(** * CryptoBuddy: the CoinGecko price-lookup helper (coin_gecko.py)

    A shallow embedding of [Crypto-buddy/coin_gecko.py]: symbol resolution,
    the in-memory cache with time-to-live, the retrying request loop and the
    public lookups built on them.

    Modelling conventions.
    - Python [str] is [string], holding the UTF-8 encoding of the text: a
      character (code point) is one lead byte followed by its continuation
      bytes (codes 128 to 191).  [len] and slicing count characters, not
      bytes.  [str.upper], [str.lower] and [str.strip] are written out on the
      ASCII range, which is what tickers, provider identifiers and currency
      codes are.
    - Python values decoded from JSON (and the dicts the module builds) are
      the inductive [json]; a dict is an association list in insertion order
      whose first binding of a key is the live one.
    - [time.time()] and durations are rationals ([Q]).
    - The process-wide [_CACHE], the clock, and the log of HTTP attempts and
      sleeps form the [World]; the functions that touch them live in the
      state-and-exception monad [M].
    - The remote provider is an oracle [provider]: the [n]-th HTTP attempt of
      the process, with request [r], yields either a decoded JSON body or a
      [requests.RequestException], and takes some time. *)

From Stdlib Require Import Ascii String QArith Lqa.
From Stdlib Require DecimalString DecimalPos DecimalZ.
From stdpp Require Import gmap strings list sorting.

Set Warnings "-register-all,-clear-no-such-hyp".

Local Open Scope string_scope.
Local Open Scope list_scope.

(** ** Strings *)

Module Str.

Definition code (c : ascii) : nat := nat_of_ascii c.

Definition is_lower (c : ascii) : bool := (97 <=? code c)%nat && (code c <=? 122)%nat.
Definition is_upper (c : ascii) : bool := (65 <=? code c)%nat && (code c <=? 90)%nat.

Definition upper_char (c : ascii) : ascii :=
  if is_lower c then ascii_of_nat (code c - 32) else c.
Definition lower_char (c : ascii) : ascii :=
  if is_upper c then ascii_of_nat (code c + 32) else c.

Fixpoint map (f : ascii → ascii) (s : string) : string :=
  match s with
  | EmptyString => EmptyString
  | String c r => String (f c) (map f r)
  end.

(** [str.upper()] and [str.lower()]. *)
Definition upper : string → string := map upper_char.
Definition lower : string → string := map lower_char.

(** Whitespace for [str.strip()]: TAB, LF, VT, FF, CR, FS, GS, RS, US, SPACE. *)
Definition is_space (c : ascii) : bool :=
  ((9 <=? code c)%nat && (code c <=? 13)%nat)
  || ((28 <=? code c)%nat && (code c <=? 32)%nat).

Definition is_empty (s : string) : bool :=
  match s with EmptyString => true | String _ _ => false end.

Fixpoint lstrip (s : string) : string :=
  match s with
  | EmptyString => EmptyString
  | String c r => if is_space c then lstrip r else s
  end.

Fixpoint rstrip (s : string) : string :=
  match s with
  | EmptyString => EmptyString
  | String c r =>
      let r' := rstrip r in
      if is_space c && is_empty r' then EmptyString else String c r'
  end.

(** [str.strip()]. *)
Definition strip (s : string) : string := rstrip (lstrip s).

(** [s.split(sep)] for a one-character separator: always at least one part. *)
Fixpoint split (sep : ascii) (s : string) : list string :=
  match s with
  | EmptyString => [EmptyString]
  | String c r =>
      if Ascii.eqb c sep then EmptyString :: split sep r
      else match split sep r with
           | [] => [String c EmptyString]
           | p :: ps => String c p :: ps
           end
  end.

(** [sep.join(parts)]. *)
Definition join (sep : string) (parts : list string) : string := String.concat sep parts.

(** [sub in s] on two strings: [sub] occurs in [s]. *)
Fixpoint contains (sub s : string) : bool :=
  String.prefix sub s ||
  match s with
  | EmptyString => false
  | String _ r => contains sub r
  end.

(** A continuation byte of a multi-byte character. *)
Definition is_continuation (c : ascii) : bool :=
  (128 <=? code c)%nat && (code c <=? 191)%nat.

(** [len(s)]: the number of characters, that is of bytes that start one. *)
Fixpoint len (s : string) : nat :=
  match s with
  | EmptyString => O
  | String c r => if is_continuation c then len r else S (len r)
  end.

(** [s[:n]] for [n >= 0]: the first [n] characters, each with all its bytes. *)
Fixpoint take (n : nat) (s : string) : string :=
  match s with
  | EmptyString => EmptyString
  | String c r =>
      if is_continuation c then String c (take n r)
      else match n with
           | O => EmptyString
           | S n' => String c (take n' r)
           end
  end.

(** [str(n)] for an integer. *)
Definition of_Z (n : Z) : string := DecimalString.NilZero.string_of_int (Z.to_int n).

End Str.

(** ** Dicts as association lists *)

Section Dict.
Context {V : Type}.

Fixpoint dict_get (k : string) (d : list (string * V)) : option V :=
  match d with
  | [] => None
  | (k', v) :: r => if String.eqb k k' then Some v else dict_get k r
  end.

(** [d[k] = v]: an existing key keeps its place, a new key goes last. *)
Fixpoint dict_set (k : string) (v : V) (d : list (string * V)) : list (string * V) :=
  match d with
  | [] => [(k, v)]
  | (k', v') :: r => if String.eqb k k' then (k, v) :: r else (k', v') :: dict_set k v r
  end.

Definition dict_keys (d : list (string * V)) : list string := List.map fst d.
Definition dict_values (d : list (string * V)) : list V := List.map snd d.

Definition dict_has (k : string) (d : list (string * V)) : bool :=
  match dict_get k d with Some _ => true | None => false end.
End Dict.

(** ** The symbol table and [symbol_to_id] *)

Definition SYMBOL_TO_ID : list (string * string) :=
  [ ("BTC", "bitcoin");
    ("ETH", "ethereum");
    ("ADA", "cardano");
    ("DOT", "polkadot");
    ("BNB", "binancecoin");
    ("XRP", "ripple");
    ("SOL", "solana");
    ("LTC", "litecoin");
    ("DOGE", "dogecoin");
    ("AVAX", "avalanche-2");
    ("LINK", "chainlink");
    ("MATIC", "matic-network");
    ("ATOM", "cosmos");
    ("TRX", "tron") ].

Definition DEFAULT_TTL : Q := 30.

(** [x in xs] for a list (or dict view) of strings. *)
Definition str_in (x : string) (xs : list string) : bool := existsb (String.eqb x) xs.

Definition symbol_to_id (symbol_or_id : string) : option string :=
  if Str.is_empty symbol_or_id then None
  else
    let s := Str.upper (Str.strip symbol_or_id) in
    match dict_get s SYMBOL_TO_ID with
    | Some id => Some id
    | None =>
        let candidate := Str.lower (Str.strip symbol_or_id) in
        if str_in candidate (dict_values SYMBOL_TO_ID) then Some candidate
        else None
    end.

(** [if coin_id:] on an [Optional[str]]. *)
Definition id_truthy (coin_id : option string) : bool :=
  match coin_id with
  | Some s => negb (Str.is_empty s)
  | None => false
  end.

(** ** JSON-like Python values *)

Inductive json : Type :=
| JNull
| JBool (b : bool)
| JNum (q : Q)
| JStr (s : string)
| JList (l : list json)
| JDict (d : list (string * json)).

(** Exceptions the module can let escape. *)
Inductive exn : Type :=
| TypeError
| AttributeError
| KeyError
| ValueError
| OverflowError.

Inductive outcome (A : Type) : Type :=
| Return (a : A)
| Raise (e : exn).
Arguments Return {A} a.
Arguments Raise {A} e.

Module Py.

(** Truth value of an object: [if x], [not x], [x or y]. *)
Definition truthy (j : json) : bool :=
  match j with
  | JNull => false
  | JBool b => b
  | JNum q => negb (Qeq_bool q 0)
  | JStr s => negb (Str.is_empty s)
  | JList l => match l with [] => false | _ => true end
  | JDict d => match d with [] => false | _ => true end
  end.

Definition is_none (j : json) : bool :=
  match j with JNull => true | _ => false end.

Definition is_dict (j : json) : bool :=
  match j with JDict _ => true | _ => false end.

Definition is_list (j : json) : bool :=
  match j with JList _ => true | _ => false end.

Definition is_str (k : string) (j : json) : bool :=
  match j with JStr s => String.eqb k s | _ => false end.

(** [obj.get(k, default)]: only dicts have [get]. *)
Definition get (obj : json) (k : string) (default : json) : outcome json :=
  match obj with
  | JDict d => Return (match dict_get k d with Some v => v | None => default end)
  | _ => Raise AttributeError
  end.

(** [k in obj] for a string [k]: key of a dict, element of a list,
    substring of a string; other objects are not iterable. *)
Definition contains (k : string) (obj : json) : outcome bool :=
  match obj with
  | JDict d => Return (dict_has k d)
  | JList l => Return (existsb (is_str k) l)
  | JStr s => Return (Str.contains k s)
  | _ => Raise TypeError
  end.

(** [obj[k]] for a string [k]. *)
Definition getitem (obj : json) (k : string) : outcome json :=
  match obj with
  | JDict d => match dict_get k d with Some v => Return v | None => Raise KeyError end
  | _ => Raise TypeError
  end.

(** Number of items [xs[:n]] keeps out of [len] items. *)
Definition slice_len (n : Z) (len : nat) : nat :=
  if (0 <=? n)%Z then Nat.min (Z.to_nat n) len
  else Z.to_nat (Z.of_nat len + n).

(** [obj[:n]]: strings and lists can be sliced; any other object raises
    (a [TypeError], for a dict a [TypeError] or a [KeyError] depending on the
    interpreter version, modelled as [TypeError]). *)
Definition slice_to (obj : json) (n : Z) : outcome json :=
  match obj with
  | JStr s => Return (JStr (Str.take (slice_len n (Str.len s)) s))
  | JList l => Return (JList (take (slice_len n (length l)) l))
  | _ => Raise TypeError
  end.

(** [x or y]. *)
Definition or_else (x y : json) : json := if truthy x then x else y.

End Py.

(** ** The world: cache, clock, network *)

Record request : Type := mkRequest {
  req_url : string;
  req_params : list (string * json)
}.

(** What [requests.get(...)], [raise_for_status()] and [json()] yield together. *)
Inductive response : Type :=
| Body (data : json)
| RequestException (msg : string).

(** The provider: attempt number (process-wide) and request to the response and
    the time the attempt took. *)
Definition provider : Type := nat → request → response * Q.

Record World : Type := mkWorld {
  _CACHE : gmap string (Q * json);
  clock : Q;
  sent : list request;
  slept : list Q
}.

Definition initial_world (t0 : Q) : World :=
  {| _CACHE := ∅; clock := t0; sent := []; slept := [] |}.

(** State and exceptions. *)
Definition M (A : Type) : Type := World → outcome A * World.

Definition ret {A} (a : A) : M A := λ w, (Return a, w).

Definition bind {A B} (m : M A) (k : A → M B) : M B :=
  λ w, match m w with
       | (Return a, w') => k a w'
       | (Raise e, w') => (Raise e, w')
       end.

Definition lift {A} (o : outcome A) : M A := λ w, (o, w).

Notation "x <- m ;; k" := (bind m (λ x, k))
  (at level 100, m at next level, right associativity).
Notation "m ;;; k" := (bind m (λ _, k))
  (at level 100, right associativity).

Definition Qgtb (x y : Q) : bool :=
  match Qcompare x y with Gt => true | _ => false end.

Definition _now : M Q := λ w, (Return (clock w), w).

Definition cache_pop (key : string) : M unit :=
  λ w, (Return tt, {| _CACHE := delete key (_CACHE w); clock := clock w;
                      sent := sent w; slept := slept w |}).

Definition cache_store (key : string) (rec : Q * json) : M unit :=
  λ w, (Return tt, {| _CACHE := <[key := rec]> (_CACHE w); clock := clock w;
                      sent := sent w; slept := slept w |}).

Definition cache_lookup (key : string) : M (option (Q * json)) :=
  λ w, (Return (_CACHE w !! key), w).

(** [_cache_get]: [None] is [JNull]. A stored record is a pair, hence truthy. *)
Definition _cache_get (key : string) (ttl : Q) : M json :=
  rec <- cache_lookup key ;;
  match rec with
  | None => ret JNull
  | Some (ts, data) =>
      now <- _now ;;
      if Qgtb (now - ts) ttl then cache_pop key ;;; ret JNull
      else ret data
  end.

Definition _cache_set (key : string) (value : json) : M unit :=
  now <- _now ;;
  cache_store key (now, value).

(** The longest duration [time.sleep] accepts: the interpreter keeps it as a
    signed 64-bit count of nanoseconds, about 9.2e9 seconds. *)
Definition sleep_max : Q := 9223372036854775807 # 1000000000.

(** [time.sleep(d)]: a duration that does not fit the nanosecond counter is
    an [OverflowError], a negative one a [ValueError]. *)
Definition sleep (d : Q) : M unit :=
  λ w, if Qgtb d sleep_max || Qgtb (- sleep_max) d then (Raise OverflowError, w)
       else if Qgtb 0 d then (Raise ValueError, w)
       else (Return tt, {| _CACHE := _CACHE w; clock := (clock w + d)%Q;
                           sent := sent w; slept := slept w ++ [d] |}).

(** One HTTP attempt. *)
Definition http_get (env : provider) (r : request) : M response :=
  λ w, let '(resp, dt) := env (length (sent w)) r in
       (Return resp, {| _CACHE := _CACHE w; clock := (clock w + dt)%Q;
                        sent := sent w ++ [r]; slept := slept w |}).

Definition COINGECKO_BASE : string := "https://api.coingecko.com/api/v3".

Definition error_dict (v : json) : json := JDict [("error", v)].

(** The body of [for attempt in range(retries + 1)], from [attempt] on, with
    [todo] iterations left. *)
Fixpoint request_loop (env : provider) (r : request) (retries : Z) (backoff : Q)
    (todo : nat) (attempt : Z) : M json :=
  match todo with
  | O => ret JNull
  | S todo' =>
      resp <- http_get env r ;;
      match resp with
      | Body data => ret data
      | RequestException e =>
          if (attempt =? retries)%Z then ret (error_dict (JStr e))
          else
            sleep (backoff * inject_Z (attempt + 1)) ;;;
            request_loop env r retries backoff todo' (attempt + 1)%Z
      end
  end.

Definition _request (env : provider) (path : string) (params : list (string * json))
    (retries : Z) (backoff : Q) : M json :=
  let url := COINGECKO_BASE +:+ path in
  request_loop env (mkRequest url params) retries backoff (Z.to_nat (retries + 1)) 0%Z.

Definition default_retries : Z := 2.
Definition default_backoff : Q := 8 # 10.

(** [_request(path, params=params)] as every caller writes it. *)
Definition request_default (env : provider) (path : string)
    (params : list (string * json)) : M json :=
  _request env path params default_retries default_backoff.

(** ** The public operations *)

Definition obind {A B} (o : outcome A) (k : A → outcome B) : outcome B :=
  match o with
  | Return a => k a
  | Raise e => Raise e
  end.

Notation "x <-? o ;; k" := (obind o (λ x, k))
  (at level 100, o at next level, right associativity).

(** [not xs] on a list. *)
Definition is_nil {A} (xs : list A) : bool :=
  match xs with [] => true | _ :: _ => false end.

(** [sorted(xs)] on strings. *)
Definition sorted (xs : list string) : list string := merge_sort String.le xs.

(** [not data or "error" in data]. *)
Definition fetch_failed (data : json) : outcome bool :=
  if negb (Py.truthy data) then Return true else Py.contains "error" data.

(** [{"error": data.get("error") if isinstance(data, dict) else "request failed"}]. *)
Definition error_of (data : json) : outcome json :=
  if Py.is_dict data then
    e <-? Py.get data "error" JNull ;; Return (error_dict e)
  else Return (error_dict (JStr "request failed")).

(** The first argument of [get_simple_price]: a string or a list of strings. *)
Inductive symbols_arg : Type :=
| SymbolsStr (s : string)
| SymbolsList (l : list string).

(** [[s.strip() for s in symbols.split(",") if s.strip()]]. *)
Definition symbols_of_str (symbols : string) : list string :=
  flat_map (λ s, if negb (Str.is_empty (Str.strip s)) then [Str.strip s] else [])
           (Str.split "," symbols).

Definition symbols_list_of (symbols : symbols_arg) : list string :=
  match symbols with
  | SymbolsStr s => symbols_of_str s
  | SymbolsList l => l
  end.

(** One round of the loop that fills [ids] and [mapping]. *)
Definition resolve_step (st : list string * list (string * option string)) (sym : string)
    : list string * list (string * option string) :=
  let coin_id := symbol_to_id sym in
  let mapping := dict_set (Str.upper sym) coin_id st.2 in
  match coin_id with
  | Some id => if id_truthy coin_id then (st.1 ++ [id], mapping) else (st.1, mapping)
  | None => (st.1, mapping)
  end.

Definition resolve (symbols_list : list string)
    : list string * list (string * option string) :=
  foldl resolve_step ([], []) symbols_list.

Definition simple_price_key (ids : list string) (vs_currency : string) : string :=
  "simple_price:" +:+ Str.join "," (sorted ids) +:+ ":" +:+ vs_currency.

(** The cache key [get_simple_price] computes for its arguments. *)
Definition cache_key_of (symbols : symbols_arg) (vs_currency : string) : string :=
  simple_price_key (resolve (symbols_list_of symbols)).1 vs_currency.

(** [{sym: None for sym in mapping}]. *)
Definition all_none (mapping : list (string * option string)) : json :=
  JDict (List.map (λ sym, (sym, JNull)) (dict_keys mapping)).

(** The value of one entry of the dict served from the cache. *)
Definition cached_price (cached : json) (vs_currency : string)
    (mapping : list (string * option string)) (sym : string) : outcome json :=
  match dict_get (Str.upper sym) mapping with
  | None => Raise KeyError
  | Some cid =>
      match cid with
      | Some id =>
          if id_truthy cid then
            entry <-? Py.get cached id (JDict []) ;;
            Py.get entry vs_currency JNull
          else Return JNull
      | None => Return JNull
      end
  end.

(** A dict comprehension over [keys]; the first exception ends it. *)
Fixpoint dict_comprehension (value : string → outcome json) (keys : list string)
    (acc : list (string * json)) : outcome (list (string * json)) :=
  match keys with
  | [] => Return acc
  | k :: ks => v <-? value k ;; dict_comprehension value ks (dict_set k v acc)
  end.

(** The value the final loop stores for [(sym, cid)]. *)
Definition fetched_price (data : json) (vs_currency : string) (cid : option string)
    : outcome json :=
  match cid with
  | Some id =>
      if id_truthy cid then
        v <-? Py.get data id JNull ;;
        if Py.truthy v then
          entry <-? Py.getitem data id ;;
          has <-? Py.contains vs_currency entry ;;
          if (has : bool) then
            entry' <-? Py.getitem data id ;; Py.getitem entry' vs_currency
          else Return JNull
        else Return JNull
      else Return JNull
  | None => Return JNull
  end.

(** [for sym, cid in mapping.items(): result[sym] = ...]. *)
Fixpoint project (data : json) (vs_currency : string)
    (items : list (string * option string)) (result : list (string * json))
    : outcome (list (string * json)) :=
  match items with
  | [] => Return result
  | (sym, cid) :: rest =>
      v <-? fetched_price data vs_currency cid ;;
      project data vs_currency rest (dict_set sym v result)
  end.

Definition get_simple_price (env : provider) (symbols : symbols_arg)
    (vs_currency : string) (ttl : Q) : M json :=
  let symbols_list := symbols_list_of symbols in
  let ids := (resolve symbols_list).1 in
  let mapping := (resolve symbols_list).2 in
  let cache_key := simple_price_key ids vs_currency in
  cached <- _cache_get cache_key ttl ;;
  if negb (Py.is_none cached) then
    lift (r <-? dict_comprehension (cached_price cached vs_currency mapping)
                  (dict_keys mapping) [] ;;
          Return (JDict r))
  else
  if is_nil ids then ret (all_none mapping)
  else
    let params := [("ids", JStr (Str.join "," ids));
                   ("vs_currencies", JStr vs_currency)] in
    data <- request_default env "/simple/price" params ;;
    failed <- lift (fetch_failed data) ;;
    if (failed : bool) then ret (all_none mapping)
    else
      _cache_set cache_key data ;;;
      lift (r <-? project data vs_currency mapping [] ;; Return (JDict r)).

Definition bulk_prices (env : provider) (symbols : list string)
    (vs_currency : string) (ttl : Q) : M json :=
  get_simple_price env (SymbolsList symbols) vs_currency ttl.

Definition market_fields : list string :=
  ["id"; "symbol"; "name"; "current_price"; "market_cap";
   "price_change_percentage_24h"; "total_volume"].

(** [{f: record.get(f) for the fixed fields}], left to right. *)
Fixpoint get_fields (record : json) (fields : list string) : outcome (list (string * json)) :=
  match fields with
  | [] => Return []
  | f :: fs =>
      v <-? Py.get record f JNull ;;
      rest <-? get_fields record fs ;;
      Return ((f, v) :: rest)
  end.

Definition market_data_key (coin_id vs_currency : string) : string :=
  "market_data:" +:+ coin_id +:+ ":" +:+ vs_currency.

Definition get_market_data (env : provider) (symbol vs_currency : string) (ttl : Q)
    : M json :=
  match symbol_to_id symbol with
  | None => ret (error_dict (JStr "unknown symbol or id mapping not available"))
  | Some coin_id =>
      if negb (id_truthy (Some coin_id))
      then ret (error_dict (JStr "unknown symbol or id mapping not available"))
      else
        let cache_key := market_data_key coin_id vs_currency in
        cached <- _cache_get cache_key ttl ;;
        if Py.truthy cached then ret cached
        else
          let params := [("vs_currency", JStr vs_currency); ("ids", JStr coin_id);
                         ("order", JStr "market_cap_desc"); ("per_page", JNum 1);
                         ("page", JNum 1); ("sparkline", JBool false)] in
          data <- request_default env "/coins/markets" params ;;
          failed <- lift (fetch_failed data) ;;
          if (failed : bool) then lift (error_of data)
          else
            match data with
            | JList (record :: _) =>
                out <- lift (get_fields record market_fields) ;;
                _cache_set cache_key (JDict out) ;;;
                ret (JDict out)
            | _ => ret (error_dict (JStr "no data returned"))
            end
  end.

Definition coin_info_key (coin_id : string) : string := "coin_info:" +:+ coin_id.

Definition description_cap : Z := 800.
Definition homepage_cap : Z := 3.

Definition coin_info_params : list (string * json) :=
  [("localization", JStr "false"); ("tickers", JStr "false");
   ("market_data", JStr "false"); ("community_data", JStr "false");
   ("developer_data", JStr "false"); ("sparkline", JStr "false")].

(** The [out] dict of [get_coin_info], its five values evaluated in order. *)
Definition coin_info_record (data : json) : outcome json :=
  id <-? Py.get data "id" JNull ;;
  symbol <-? Py.get data "symbol" JNull ;;
  name <-? Py.get data "name" JNull ;;
  d <-? Py.get data "description" JNull ;;
  en <-? Py.get (Py.or_else d (JDict [])) "en" (JStr "") ;;
  description <-? Py.slice_to en description_cap ;;
  l <-? Py.get data "links" JNull ;;
  hp <-? Py.get (Py.or_else l (JDict [])) "homepage" (JList []) ;;
  homepage <-? Py.slice_to hp homepage_cap ;;
  Return (JDict [("id", id); ("symbol", symbol); ("name", name);
                 ("description", description); ("homepage", homepage)]).

Definition get_coin_info (env : provider) (symbol : string) (ttl : Q) : M json :=
  match symbol_to_id symbol with
  | None => ret (error_dict (JStr "unknown symbol"))
  | Some coin_id =>
      if negb (id_truthy (Some coin_id)) then ret (error_dict (JStr "unknown symbol"))
      else
        let cache_key := coin_info_key coin_id in
        cached <- _cache_get cache_key ttl ;;
        if Py.truthy cached then ret cached
        else
          data <- request_default env ("/coins/" +:+ coin_id) coin_info_params ;;
          failed <- lift (fetch_failed data) ;;
          if (failed : bool) then lift (error_of data)
          else
            out <- lift (coin_info_record data) ;;
            _cache_set cache_key out ;;;
            ret out
  end.

Definition search_key (query : string) (limit : Z) : string :=
  "search:" +:+ Str.lower query +:+ ":" +:+ Str.of_Z limit.

Definition search_coin (env : provider) (query : string) (limit : Z) : M json :=
  if Str.is_empty query then ret (error_dict (JStr "empty query"))
  else
    let cache_key := search_key query limit in
    cached <- _cache_get cache_key DEFAULT_TTL ;;
    if Py.truthy cached then ret cached
    else
      data <- request_default env "/search" [("query", JStr query)] ;;
      failed <- lift (fetch_failed data) ;;
      if (failed : bool) then lift (error_of data)
      else
        found <- lift (Py.get data "coins" (JList [])) ;;
        coins <- lift (Py.slice_to found limit) ;;
        let result := JDict [("coins", coins)] in
        _cache_set cache_key result ;;;
        ret result.

(** ** Calls and reachable worlds *)

Inductive call : Type :=
| Call_symbol_to_id (symbol_or_id : string)
| Call_get_simple_price (symbols : symbols_arg) (vs_currency : string) (ttl : Q)
| Call_bulk_prices (symbols : list string) (vs_currency : string) (ttl : Q)
| Call_get_market_data (symbol vs_currency : string) (ttl : Q)
| Call_get_coin_info (symbol : string) (ttl : Q)
| Call_search_coin (query : string) (limit : Z).

Definition json_of_id (o : option string) : json :=
  match o with Some s => JStr s | None => JNull end.

Definition run (env : provider) (c : call) : M json :=
  match c with
  | Call_symbol_to_id s => ret (json_of_id (symbol_to_id s))
  | Call_get_simple_price symbols vs ttl => get_simple_price env symbols vs ttl
  | Call_bulk_prices symbols vs ttl => bulk_prices env symbols vs ttl
  | Call_get_market_data symbol vs ttl => get_market_data env symbol vs ttl
  | Call_get_coin_info symbol ttl => get_coin_info env symbol ttl
  | Call_search_coin query limit => search_coin env query limit
  end.

(** Time passing between two calls. *)
Definition wait (d : Q) (w : World) : World :=
  {| _CACHE := _CACHE w; clock := (clock w + d)%Q; sent := sent w; slept := slept w |}.

(** Worlds a process can be in: it starts with an empty cache and only the
    public operations (and the passing of time) change it. *)
Inductive reachable (env : provider) : World → Prop :=
| reachable_start t0 : reachable env (initial_world t0)
| reachable_call c w : reachable env w → reachable env (run env c w).2
| reachable_wait d w : reachable env w → reachable env (wait d w).

(** ** Vocabulary for the statements *)

(** The [n] attempts numbered from [k] on, for request [r], all fail. *)
Definition fails_at (env : provider) (r : request) (k n : nat) : Prop :=
  ∀ i, (i < n)%nat → ∃ e dt, env (k + i)%nat r = (RequestException e, dt).

(** The provider fails every attempt whatsoever. *)
Definition always_fails (env : provider) : Prop :=
  ∀ k r, ∃ e dt, env k r = (RequestException e, dt).

(** [key] holds an entry that a read with [ttl] accepts at the current time. *)
Definition fresh (w : World) (key : string) (ttl : Q) : bool :=
  match _CACHE w !! key with
  | Some (ts, _) => negb (Qgtb (clock w - ts) ttl)
  | None => false
  end.

(** The sleeps of a request loop whose attempts all fail:
    [backoff * (attempt + 1)] for [attempt = 0 .. retries - 1]. *)
Definition backoff_delays (retries : Z) (backoff : Q) : list Q :=
  (λ attempt, backoff * inject_Z (attempt + 1))%Q <$> seqZ 0 retries.

Definition set_cache (c : gmap string (Q * json)) (w : World) : World :=
  {| _CACHE := c; clock := clock w; sent := sent w; slept := slept w |}.

(** The request [get_simple_price] sends for the resolved [ids]. *)
Definition simple_price_request (ids : list string) (vs_currency : string) : request :=
  mkRequest (COINGECKO_BASE +:+ "/simple/price")
            [("ids", JStr (Str.join "," ids)); ("vs_currencies", JStr vs_currency)].

(** ** Sample providers *)

(** A provider that is down: every attempt times out. *)
Definition provider_down : provider :=
  λ _ _, (RequestException "timeout", 8%Q).

(** A provider that quotes bitcoin at 5 in every currency asked for. *)
Definition provider_btc : provider :=
  λ _ r, (Body (JDict [("bitcoin", JDict [("usd", JNum 5)])]), 1%Q).

(** ** Reasoning about runs *)

(** [sat m w Q]: running [m] from [w] ends in an outcome and a world that
    satisfy [Q]. *)
Definition sat {A} (m : M A) (w : World) (Q : outcome A → World → Prop) : Prop :=
  Q (m w).1 (m w).2.

(** What a cache read with [key] and [ttl] does to [w]: it yields [cached]
    and leaves [w1]. *)
Definition looked_up (key : string) (ttl : Q) (w : World) (cached : json) (w1 : World)
    : Prop :=
  (cached = JNull ∧ fresh w key ttl = false
   ∧ w1 = set_cache (delete key (_CACHE w)) w)
  ∨ (∃ ts, _CACHE w !! key = Some (ts, cached) ∧ fresh w key ttl = true ∧ w1 = w).

(** The body a request loop of [n] attempts obtains for [r], its attempts
    being numbered from [k] on: the one served to the first attempt that does
    not fail. *)
Definition served (env : provider) (r : request) (k n : nat) (data : json) : Prop :=
  ∃ i dt, (i < n)%nat ∧ fails_at env r k i ∧ env (k + i)%nat r = (Body data, dt).

(** What a request with the default retry budget does to [w1]: between one
    and three attempts are logged, the cache is not touched, and [data] is
    the body served to the loop or, when its three attempts failed, the
    error marker. *)
Definition fetched (env : provider) (r : request) (w1 : World) (data : json)
    (w2 : World) : Prop :=
  _CACHE w2 = _CACHE w1
  ∧ (∃ n, (1 ≤ n ≤ 3)%nat ∧ sent w2 = sent w1 ++ replicate n r)
  ∧ (served env r (length (sent w1)) 3 data
     ∨ (∃ e, data = error_dict (JStr e))).

(** The cache key and ttl a call reads the cache with, when it reads it. *)
Definition cache_read (c : call) : option (string * Q) :=
  match c with
  | Call_symbol_to_id _ => None
  | Call_get_simple_price symbols vs ttl => Some (cache_key_of symbols vs, ttl)
  | Call_bulk_prices symbols vs ttl => Some (cache_key_of (SymbolsList symbols) vs, ttl)
  | Call_get_market_data symbol vs ttl =>
      id ← symbol_to_id symbol; Some (market_data_key id vs, ttl)
  | Call_get_coin_info symbol ttl =>
      id ← symbol_to_id symbol; Some (coin_info_key id, ttl)
  | Call_search_coin query limit =>
      if Str.is_empty query then None else Some (search_key query limit, DEFAULT_TTL)
  end.

(** A call that goes to the network when its cache read finds nothing:
    [get_simple_price] does so only with at least one resolved identifier. *)
Definition fetches_on_miss (c : call) : bool :=
  match c with
  | Call_symbol_to_id _ => false
  | Call_get_simple_price symbols _ _ => negb (is_nil (resolve (symbols_list_of symbols)).1)
  | Call_bulk_prices symbols _ _ => negb (is_nil (resolve symbols).1)
  | _ => true
  end.

(** The values the operations store: [stored env key value] when [value] is
    what an operation puts under [key] after the provider [env] served a
    usable body. *)
Inductive stored (env : provider) : string → json → Prop :=
| stored_simple_price ids vs k dt data :
    env k (simple_price_request ids vs) = (Body data, dt) →
    fetch_failed data = Return false →
    stored env (simple_price_key ids vs) data
| stored_market_data id vs k r dt record rest out :
    env k r = (Body (JList (record :: rest)), dt) →
    fetch_failed (JList (record :: rest)) = Return false →
    get_fields record market_fields = Return out →
    stored env (market_data_key id vs) (JDict out)
| stored_coin_info id k r dt data out :
    env k r = (Body data, dt) →
    fetch_failed data = Return false →
    coin_info_record data = Return out →
    stored env (coin_info_key id) out
| stored_search query limit k r dt data found coins :
    env k r = (Body data, dt) →
    fetch_failed data = Return false →
    Py.get data "coins" (JList []) = Return found →
    Py.slice_to found limit = Return coins →
    stored env (search_key query limit) (JDict [("coins", coins)]).

(** The request a call sends when it goes to the network. *)
Definition request_of (c : call) : option request :=
  match c with
  | Call_symbol_to_id _ => None
  | Call_get_simple_price symbols vs _ =>
      Some (simple_price_request (resolve (symbols_list_of symbols)).1 vs)
  | Call_bulk_prices symbols vs _ =>
      Some (simple_price_request (resolve symbols).1 vs)
  | Call_get_market_data symbol vs _ =>
      id ← symbol_to_id symbol;
      Some (mkRequest (COINGECKO_BASE +:+ "/coins/markets")
              [("vs_currency", JStr vs); ("ids", JStr id);
               ("order", JStr "market_cap_desc"); ("per_page", JNum 1);
               ("page", JNum 1); ("sparkline", JBool false)])
  | Call_get_coin_info symbol _ =>
      id ← symbol_to_id symbol;
      Some (mkRequest (COINGECKO_BASE +:+ ("/coins/" +:+ id)) coin_info_params)
  | Call_search_coin query _ =>
      Some (mkRequest (COINGECKO_BASE +:+ "/search") [("query", JStr query)])
  end.

(** The request loop for [r], its three attempts numbered from [k] on,
    obtains a body the operations accept: non-empty and without an
    ["error"] entry. *)
Definition obtains_usable (env : provider) (r : request) (k : nat) : Prop :=
  ∃ data, served env r k 3 data ∧ fetch_failed data = Return false.

(** How a call may change the cache: not at all, by dropping the expired
    entry under its own key, or by storing a value under its own key after
    its own request loop obtained a usable body. *)
Definition cache_effect (env : provider) (c : call) (w w' : World) : Prop :=
  _CACHE w' = _CACHE w
  ∨ ∃ key ttl,
      cache_read c = Some (key, ttl)
      ∧ ((∃ ts d, _CACHE w !! key = Some (ts, d) ∧ (ttl < clock w - ts)%Q
                  ∧ _CACHE w' = delete key (_CACHE w))
         ∨ (∃ ts d r, stored env key d
                      ∧ request_of c = Some r
                      ∧ obtains_usable env r (length (sent w))
                      ∧ _CACHE w' = <[key := (ts, d)]> (_CACHE w))).

(** Every entry of the cache is a value some operation stored. *)
Definition cache_inv (env : provider) (w : World) : Prop :=
  ∀ key ts d, _CACHE w !! key = Some (ts, d) → stored env key d.

(** A provider whose first attempt of the process times out and that answers
    from then on. *)
Definition provider_flaky : provider :=
  λ k r, if (k =? 0)%nat
         then (RequestException "timeout", 8%Q)
         else (Body (JDict [("bitcoin", JDict [("usd", JNum 5)])]), 1%Q).

(** A provider that answers the first attempt of the process and is down
    from then on. *)
Definition provider_once : provider :=
  λ k r, if (k =? 0)%nat
         then (Body (JDict [("bitcoin", JDict [("usd", JNum 5)])]), 1%Q)
         else (RequestException "timeout", 8%Q).


(** A provider that is down for the attempts 1 to 3 of the process and
    quotes bitcoin before and after. *)
Definition provider_recovers : provider :=
  λ k r, if (1 <=? k)%nat && (k <=? 3)%nat
         then (RequestException "timeout", 8%Q)
         else (Body (JDict [("bitcoin", JDict [("usd", JNum 5)])]), 1%Q).

(** A world in which the price of bitcoin was cached 100 seconds ago. *)
Definition stale_world : World :=
  wait 100 (run provider_once (Call_get_simple_price (SymbolsList ["BTC"]) "usd"
                                 DEFAULT_TTL) (initial_world 0)).2.

(** The string form of the symbols argument as the specification words it:
    split on commas, strip every part, drop the empty parts. *)
Definition comma_separated_symbols (symbols : string) : list string :=
  List.filter (λ part, negb (Str.is_empty part))
              (List.map Str.strip (Str.split "," symbols)).

(** The test a call applies to what the cache read returned:
    [cached is not None] in [get_simple_price], [if cached] elsewhere. *)
Definition cache_accepts (c : call) (cached : json) : bool :=
  match c with
  | Call_get_simple_price _ _ _ | Call_bulk_prices _ _ _ => negb (Py.is_none cached)
  | _ => Py.truthy cached
  end.

(** The call finds a valid entry under its key and accepts it. *)
Definition served_from_cache (c : call) (w : World) : Prop :=
  ∃ key ttl ts d,
    cache_read c = Some (key, ttl) ∧ _CACHE w !! key = Some (ts, d)
    ∧ fresh w key ttl = true ∧ cache_accepts c d = true.

(** How a call uses the network: not at all (the world is untouched) when it
    is served from the cache; with one to three attempts of one request when
    it finds no valid entry and is a call that fetches. *)
Definition network_use (c : call) (w w' : World) : Prop :=
  (served_from_cache c w → w' = w)
  ∧ (∀ key ttl, cache_read c = Some (key, ttl) → fresh w key ttl = false →
                fetches_on_miss c = true →
                ∃ n r, (1 ≤ n ≤ 3)%nat ∧ sent w' = sent w ++ replicate n r).

(** [len(x)]. *)
Definition json_len (j : json) : nat :=
  match j with
  | JStr s => Str.len s
  | JList l => length l
  | JDict d => length d
  | _ => 0%nat
  end.

(** What [get_simple_price] returns when the cache read yields [cached]. *)
Definition served_prices (cached : json) (vs_currency : string)
    (mapping : list (string * option string)) : outcome json :=
  r <-? dict_comprehension (cached_price cached vs_currency mapping)
          (dict_keys mapping) [] ;;
  Return (JDict r).

(** The record [get_coin_info] builds, with its two capped fields. *)
Definition capped_record (r : json) : Prop :=
  ∃ id symbol name description homepage,
    r = JDict [("id", id); ("symbol", symbol); ("name", name);
               ("description", description); ("homepage", homepage)]
    ∧ (json_len description ≤ Z.to_nat description_cap)%nat
    ∧ (json_len homepage ≤ Z.to_nat homepage_cap)%nat.

(** The error marker [{"error": ...}]. *)
Definition is_error_marker (r : json) : Prop := ∃ e, r = error_dict e.

(** ** The documented shapes of the provider's bodies *)

Definition is_string (j : json) : bool :=
  match j with JStr _ => true | _ => false end.

(** A field that is absent or satisfies [P]. *)
Definition opt_field (P : json → bool) (k : string) (d : list (string * json)) : bool :=
  match dict_get k d with
  | Some v => P v
  | None => true
  end.

(** [null] or an object that satisfies [P]. *)
Definition opt_object (P : list (string * json) → bool) (v : json) : bool :=
  match v with
  | JNull => true
  | JDict d => P d
  | _ => false
  end.

(** [/simple/price]: an object of objects, [{"bitcoin": {"usd": 1.0}}]. *)
Definition prices_ok (data : json) : bool :=
  match data with
  | JDict d => forallb Py.is_dict (dict_values d)
  | _ => false
  end.

(** [/coins/markets]: an array of objects. *)
Definition markets_ok (data : json) : bool :=
  match data with
  | JList l => forallb Py.is_dict l
  | _ => false
  end.

(** [/coins/{id}]: an object; [description], when there, is [null] or an
    object whose [en], when there, is a string; [links], when there, is
    [null] or an object whose [homepage], when there, is an array. *)
Definition info_ok (data : json) : bool :=
  match data with
  | JDict d =>
      opt_field (opt_object (opt_field is_string "en")) "description" d
      && opt_field (opt_object (opt_field Py.is_list "homepage")) "links" d
  | _ => false
  end.

(** [/search]: an object whose [coins], when there, is an array. *)
Definition search_ok (data : json) : bool :=
  match data with
  | JDict d => opt_field Py.is_list "coins" d
  | _ => false
  end.

Definition body_ok (r : request) (data : json) : bool :=
  if String.eqb (req_url r) (COINGECKO_BASE +:+ "/simple/price") then prices_ok data
  else if String.eqb (req_url r) (COINGECKO_BASE +:+ "/coins/markets") then markets_ok data
  else if String.eqb (req_url r) (COINGECKO_BASE +:+ "/search") then search_ok data
  else info_ok data.

(** Every body the provider serves has the shape its endpoint documents. *)
Definition well_shaped (env : provider) : Prop :=
  ∀ k r data dt, env k r = (Body data, dt) → body_ok r data = true.

(** A provider whose coin description is [null]. *)
Definition provider_null_description : provider :=
  λ _ _, (Body (JDict [("id", JStr "bitcoin");
                       ("description", JDict [("en", JNull)])]), 1%Q).

(** A provider that quotes bitcoin on [/simple/price] and is down elsewhere. *)
Definition provider_prices : provider :=
  λ _ r, if String.eqb (req_url r) (COINGECKO_BASE +:+ "/simple/price")
         then (Body (JDict [("bitcoin", JDict [("usd", JNum 5)])]), 1%Q)
         else (RequestException "timeout", 8%Q).

(** A provider with a long description and four homepage links.  The
    description has 1100 characters, one in eleven of them of two bytes. *)
Definition long_text : string :=
  String.concat "" (List.repeat "é0123456789" 100).

Definition provider_verbose : provider :=
  λ _ _, (Body (JDict [("id", JStr "bitcoin"); ("symbol", JStr "btc");
                       ("name", JStr "Bitcoin");
                       ("description", JDict [("en", JStr long_text)]);
                       ("links", JDict [("homepage",
                          JList [JStr "a"; JStr "b"; JStr "c"; JStr "d"])])]), 1%Q).




(** The world ten seconds after a first, successful
    [get_simple_price(["BTC"])]: the cache holds the body, still valid. *)
Definition priced_world : World :=
  wait 10 (run provider_btc (Call_get_simple_price (SymbolsList ["BTC"]) "usd"
                               DEFAULT_TTL) (initial_world 0)).2.

(** A provider that answers every request with the JSON array [[1]]. *)
Definition provider_array : provider :=
  λ _ _, (Body (JList [JNum 1]), 1%Q).

(** ** Vocabulary for the further properties *)

(** The record [get_market_data] builds: a dict with the seven fixed keys. *)
Definition market_record (r : json) : Prop :=
  ∃ out, r = JDict out ∧ dict_keys out = market_fields.

(** The calls that hand back the cached value itself. *)
Definition returns_cached (c : call) : bool :=
  match c with
  | Call_get_market_data _ _ _ | Call_get_coin_info _ _ | Call_search_coin _ _ => true
  | _ => false
  end.

(** [":" in s]. *)
Definition has_colon (s : string) : bool :=
  existsb (Ascii.eqb ":") (list_ascii_of_string s).

(** A provider that lists bitcoin on [/coins/markets] (names only). *)
Definition provider_markets : provider :=
  λ _ _, (Body (JList [JDict [("id", JStr "bitcoin"); ("symbol", JStr "btc");
                              ("name", JStr "Bitcoin")]]), 1%Q).

(** The world after a first, successful [get_market_data("BTC")]. *)
Definition market_world : World :=
  (run provider_markets (Call_get_market_data "BTC" "usd" DEFAULT_TTL) (initial_world 0)).2.

(** A provider whose search finds four coins. *)
Definition provider_hits : provider :=
  λ _ _, (Body (JDict [("coins", JList [JStr "a"; JStr "b"; JStr "c"; JStr "d"])]), 1%Q).

(** * crypto_buddy.py: the rule-based advisor (console version)

    The data set is a dict from coin name to a dict of five facts, here an
    association list of records in insertion order. A record always has its
    five facts: a data set in which a coin lacks one (the code then raises a
    [KeyError] where it reads that fact) is outside this model, and the
    properties below are about data sets of complete coins. The score is a
    float in the source and a rational here; [show_float] stands for the way
    an f-string prints a float. Printed text and prompts are the events of
    [main]. *)

Module CryptoBuddy.

Record coin : Type := mkCoin {
  symbol : string;
  price_trend : string;
  market_cap : string;
  energy_use : string;
  sustainability_score : Q
}.

Definition crypto_db : list (string * coin) :=
  [ ("Bitcoin", mkCoin "BTC" "rising" "high" "high" 3);
    ("Ethereum", mkCoin "ETH" "stable" "high" "medium" 6);
    ("Cardano", mkCoin "ADA" "rising" "medium" "low" 8);
    ("Polkadot", mkCoin "DOT" "falling" "medium" "low" 7) ].

(** The line feed of ["\n"]. *)
Definition nl : string := String (ascii_of_nat 10) EmptyString.

(** [db[x]["sustainability_score"]]. *)
Definition score_of (db : list (string * coin)) (x : string) : outcome Q :=
  match dict_get x db with
  | Some v => Return (sustainability_score v)
  | None => Raise KeyError
  end.

(** [max(xs, key=key)] once a first candidate is known: a later element
    replaces the candidate only when its key is strictly greater. *)
Fixpoint max_from (key : string → outcome Q) (best : string) (kbest : Q)
    (xs : list string) : outcome string :=
  match xs with
  | [] => Return best
  | x :: rest =>
      kx <-? key x ;;
      if Qgtb kx kbest then max_from key x kx rest else max_from key best kbest rest
  end.

(** [max(xs, key=key)]: a [ValueError] on an empty sequence. *)
Definition py_max (key : string → outcome Q) (xs : list string) : outcome string :=
  match xs with
  | [] => Raise ValueError
  | x :: rest => kx <-? key x ;; max_from key x kx rest
  end.

Definition top_by_sustainability (db : list (string * coin)) : outcome string :=
  py_max (score_of db) (dict_keys db).

Definition is_rising (v : coin) : bool := String.eqb (price_trend v) "rising".

Definition trending_coins (db : list (string * coin)) : list string :=
  List.map fst (List.filter (λ kv, is_rising kv.2) db).

Definition profitable_coins (db : list (string * coin)) : list string :=
  List.map fst
    (List.filter (λ kv, is_rising kv.2 && String.eqb (market_cap kv.2) "high") db).

Definition sustainable_candidates (db : list (string * coin)) : list string :=
  List.map fst
    (List.filter (λ kv, String.eqb (energy_use kv.2) "low"
                        && Qgtb (sustainability_score kv.2) 7) db).

Section Answers.
Context (show_float : Q → string).

Definition summarize_coin (name : string) (db : list (string * coin)) : string :=
  match dict_get name db with
  | None => "I don't have data for that coin."
  | Some v =>
      name +:+ " (" +:+ symbol v +:+ "): trend=" +:+ price_trend v
      +:+ ", market_cap=" +:+ market_cap v +:+ ", energy_use=" +:+ energy_use v
      +:+ ", sustainability=" +:+ show_float (sustainability_score v) +:+ "/10"
  end.

Definition greeting : string :=
  "Hey! I'm CryptoBuddy — your friendly AI-powered financial sidekick. How can I help? 😊".

Definition help_text : string :=
  "I can tell you which coins are trending, which are most sustainable, or recommend "
  +:+ "coins for profitability vs sustainability. Try: 'Which crypto is trending up?' or "
  +:+ "'What's the most sustainable coin?'".

Definition fallback : string :=
  "Sorry, I didn't quite get that. Try asking: 'Which crypto is trending up?', "
  +:+ "'Which is most sustainable?', or 'Which should I buy for long-term growth?'".

(** The tests of [handle_query] on the normalised query [q]. *)
Definition is_greeting (q : string) : bool :=
  existsb (λ w, Str.contains w q) ["hi"; "hello"; "hey"; "good morning"; "good afternoon"].

Definition asks_trending (q : string) : bool :=
  Str.contains "trending" q || Str.contains "trending up" q || Str.contains "trends" q.

Definition asks_sustainable (q : string) : bool :=
  Str.contains "sustainab" q || Str.contains "eco" q || Str.contains "green" q
  || Str.contains "energy" q.

Definition asks_long_term (q : string) : bool :=
  Str.contains "long-term" q || Str.contains "long term" q
  || Str.contains "best for growth" q || Str.contains "profit" q || Str.contains "buy" q.

Definition asks_help (q : string) : bool :=
  Str.contains "help" q || Str.contains "what can you do" q.

(** [for coin in db.keys(): if coin.lower() in q or db[coin]["symbol"].lower() in q:
    return summarize_coin(coin, db)], then what follows the loop. *)
Fixpoint coin_loop (q : string) (db : list (string * coin)) (keys : list string)
    (otherwise : outcome string) : outcome string :=
  match keys with
  | [] => otherwise
  | coin :: rest =>
      if Str.contains (Str.lower coin) q then Return (summarize_coin coin db)
      else
        match dict_get coin db with
        | None => Raise KeyError
        | Some v =>
            if Str.contains (Str.lower (symbol v)) q then Return (summarize_coin coin db)
            else coin_loop q db rest otherwise
        end
  end.

Definition handle_query (user_query : string) (db : list (string * coin))
    : outcome string :=
  let q := Str.strip (Str.lower user_query) in
  if is_greeting q then Return greeting
  else if asks_trending q then
    let trending := trending_coins db in
    if negb (is_nil trending) then
      Return ("Coins trending up: " +:+ Str.join ", " trending
              +:+ ". Want a recommendation for profitability or sustainability?")
    else Return "No coins are trending up in my dataset right now."
  else if asks_sustainable q then
    let cand := sustainable_candidates db in
    if negb (is_nil cand) then
      top <-? top_by_sustainability db ;;
      Return ("Top sustainable picks: " +:+ Str.join ", " cand +:+ ". "
              +:+ "Most sustainable overall: " +:+ top +:+ " 🌱")
    else
      top <-? top_by_sustainability db ;;
      Return ("The most sustainable coin in my dataset is " +:+ top +:+ " 🌱.")
  else if asks_long_term q then
    let prof := profitable_coins db in
    if negb (is_nil prof) then
      best <-? py_max (score_of db) prof ;;
      Return ("For long-term growth, I'd suggest " +:+ best
              +:+ " — it's trending up with strong market cap. "
              +:+ "Here's a quick summary:" +:+ nl +:+ summarize_coin best db +:+ nl
              +:+ "Note: always do your own research — crypto is risky.")
    else
      let rising := trending_coins db in
      if negb (is_nil rising) then
        best <-? py_max (score_of db) rising ;;
        Return ("No 'high market cap + rising' coins found, but " +:+ best
                +:+ " is trending up. " +:+ summarize_coin best db +:+ nl
                +:+ "Please DYOR.")
      else Return "I can't find a strong long-term pick in my data. Consider more research."
  else
    coin_loop q db (dict_keys db)
      (if asks_help q then Return help_text else Return fallback).

(** What [main] writes to the terminal: [print] calls and [input] prompts. *)
Inductive event : Type :=
| Print (text : string)
| Prompt (text : string).

(** How [main] ends: the loop breaks and [main] returns, or [sys.exit]. *)
Inductive ending : Type :=
| Returned
| SysExit (code : Z).

(** The [while True] loop on the lines still to come from standard input;
    the end of the input is the [EOFError] of [input]. *)
Fixpoint main_loop (inputs : list string) : outcome (list event * ending) :=
  match inputs with
  | [] =>
      Return ([Prompt (nl +:+ "You: ");
               Print (nl +:+ "Goodbye — CryptoBuddy signing off.")], SysExit 0)
  | line :: rest =>
      let user := Str.strip line in
      if str_in (Str.lower user) ["exit"; "quit"] then
        Return ([Prompt (nl +:+ "You: ");
                 Print "CryptoBuddy: Goodbye! Stay safe and always DYOR. 🚀"], Returned)
      else
        response <-? handle_query user crypto_db ;;
        run <-? main_loop rest ;;
        Return (Prompt (nl +:+ "You: ")
                  :: Print (nl +:+ "CryptoBuddy: " +:+ response) :: run.1, run.2)
  end.

Definition main (inputs : list string) : outcome (list event * ending) :=
  run <-? main_loop inputs ;;
  Return (Print "=== CryptoBuddy (console) ==="
            :: Print "Type 'exit' to quit. Type 'help' to see example questions."
            :: run.1, run.2).

End Answers.

(** The number of answers among the events. *)
Definition answers (events : list event) : nat :=
  length (List.filter (λ e, match e with
                            | Print text => String.prefix (nl +:+ "CryptoBuddy: ") text
                            | Prompt _ => false
                            end) events).

(** A line that ends the console loop. *)
Definition is_exit (line : string) : bool :=
  str_in (Str.lower (Str.strip line)) ["exit"; "quit"].

(** The lines read before the first one that ends the loop. *)
Fixpoint before_exit (inputs : list string) : list string :=
  match inputs with
  | [] => []
  | line :: rest => if is_exit line then [] else line :: before_exit rest
  end.

End CryptoBuddy.

(** A non-empty string without white space, such as a keyword of the rules. *)
Definition solid (sub : string) : bool :=
  negb (Str.is_empty sub)
  && forallb (λ c, negb (Str.is_space c)) (list_ascii_of_string sub).

(** * crypto_db.py and ui_streamlit.py: the web version

    [ui_streamlit.py] repeats the data set and the [handle_query] of
    [crypto_db.py] word for word and adds the page; one model serves both.
    A run of the page script takes the state of the form and the session
    state, and yields the new session state and the elements it renders. *)

Module CryptoDb.

Record info : Type := mkInfo {
  price : string;
  trend : string;
  market_cap : string
}.

Definition crypto_db : list (string * info) :=
  [ ("bitcoin", mkInfo "$68,000" "up" "1.3T");
    ("ethereum", mkInfo "$3,500" "down" "420B");
    ("dogecoin", mkInfo "$0.15" "up" "20B");
    ("solana", mkInfo "$150" "up" "65B") ].

Definition nl : string := String (ascii_of_nat 10) EmptyString.

(** [str.title()]: a letter that follows a letter is lower-cased, any other
    letter is upper-cased. *)
Fixpoint title_from (after_letter : bool) (s : string) : string :=
  match s with
  | EmptyString => EmptyString
  | String c r =>
      if Str.is_lower c then
        String (if after_letter then c else Str.upper_char c) (title_from true r)
      else if Str.is_upper c then
        String (if after_letter then Str.lower_char c else c) (title_from true r)
      else String c (title_from false r)
  end.

Definition title (s : string) : string := title_from false s.

(** The answer about one coin. *)
Definition card (coin : string) (i : info) : string :=
  "**" +:+ title coin +:+ "**" +:+ nl
  +:+ "- Price: " +:+ price i +:+ nl
  +:+ "- Trend: " +:+ trend i +:+ nl
  +:+ "- Market Cap: " +:+ market_cap i.

(** [[coin.title() for coin, info in db.items() if info["trend"] == t]]. *)
Definition titles_with_trend (t : string) (db : list (string * info)) : list string :=
  List.map (λ kv, title kv.1) (List.filter (λ kv, String.eqb (trend kv.2) t) db).

(** What [handle_query] does after the loop over the coins. *)
Definition trend_answer (query : string) (db : list (string * info)) : string :=
  if Str.contains "trending up" query then
    "📈 Coins trending up: " +:+ Str.join ", " (titles_with_trend "up" db)
  else if Str.contains "trending down" query then
    "📉 Coins trending down: " +:+ Str.join ", " (titles_with_trend "down" db)
  else "Sorry, I couldn't understand your query. Try asking about a specific coin or trend.".

(** [for coin, info in db.items(): if coin in query: return ...], then
    [otherwise]. *)
Fixpoint coin_loop (query : string) (items : list (string * info)) (otherwise : string)
    : string :=
  match items with
  | [] => otherwise
  | (coin, i) :: rest =>
      if Str.contains coin query then card coin i else coin_loop query rest otherwise
  end.

Definition handle_query (query : string) (db : list (string * info)) : string :=
  let query := Str.lower query in
  coin_loop query db (trend_answer query db).

(** ** The page of ui_streamlit.py *)

Inductive element : Type :=
| PageConfig (page_title page_icon : string)
| Title (text : string)
| TextInput (label : string)
| SubmitButton (label : string)
| Markdown (text : string).

(** [st.session_state.messages], absent before the first run. *)
Definition session : Type := option (list (string * string)).

Definition render (message : string * string) : element :=
  if String.eqb message.1 "You"
  then Markdown ("**🧑 " +:+ message.1 +:+ ":** " +:+ message.2)
  else Markdown ("**🤖 " +:+ message.1 +:+ ":** " +:+ message.2).

(** One run of the script: [submitted] and [user_input] are what the form
    holds in this run. *)
Definition script (submitted : bool) (user_input : string) (state : session)
    : session * list element :=
  let messages := match state with Some m => m | None => [] end in
  let messages :=
    if submitted && negb (Str.is_empty user_input) then
      let answer := handle_query user_input crypto_db in
      (messages ++ [("You", user_input)]) ++ [("CryptoBuddy", answer)]
    else messages in
  (Some messages,
   [PageConfig "CryptoBuddy" "💰";
    Title "💰 CryptoBuddy — The AI-Powered Financial Sidekick! 🌟";
    TextInput "Ask me about crypto:"; SubmitButton "Ask"]
   ++ List.map render messages).

(** The session state after a sequence of runs, from a fresh session. *)
Definition session_after (runs : list (bool * string)) : session :=
  foldl (λ state run, (script run.1 run.2 state).1) None runs.

(** The two messages of one exchange. *)
Definition exchange (user_input : string) : list (string * string) :=
  [("You", user_input); ("CryptoBuddy", handle_query user_input crypto_db)].

(** The questions that were really asked: submitted and not empty. *)
Definition asked (runs : list (bool * string)) : list string :=
  List.map snd (List.filter (λ run, run.1 && negb (Str.is_empty run.2)) runs).

End CryptoDb.

(** * Properties *)

(** ** The model on sample inputs *)

Example symbol_to_id_padded : symbol_to_id " btc " = Some "bitcoin".
Proof. reflexivity. Qed.

Example symbol_to_id_identifier : symbol_to_id "Avalanche-2" = Some "avalanche-2".
Proof. reflexivity. Qed.

Example symbol_to_id_unknown : symbol_to_id "NOPE" = None.
Proof. reflexivity. Qed.

Example symbols_of_str_sample :
  symbols_of_str "bitcoin, ethereum,, " = ["bitcoin"; "ethereum"].
Proof. reflexivity. Qed.

Example resolve_sample :
  resolve ["BTC"; "nope"; "bitcoin"]
  = (["bitcoin"; "bitcoin"],
     [("BTC", Some "bitcoin"); ("NOPE", None); ("BITCOIN", Some "bitcoin")]).
Proof. reflexivity. Qed.

Example get_simple_price_sample :
  (get_simple_price provider_btc (SymbolsList ["BTC"; "NOPE"]) "usd" DEFAULT_TTL
     (initial_world 0)).1
  = Return (JDict [("BTC", JNum 5); ("NOPE", JNull)]).
Proof. vm_compute. reflexivity. Qed.

(** ** Rational comparisons *)

Lemma Qgtb_true x y : Qgtb x y = true ↔ (y < x)%Q.
Proof.
  unfold Qgtb. rewrite (Qgt_alt x y).
  destruct (x ?= y)%Q; split; congruence.
Qed.

Lemma Qgtb_false x y : Qgtb x y = false ↔ (x <= y)%Q.
Proof.
  unfold Qgtb. rewrite (Qle_alt x y).
  destruct (x ?= y)%Q; split; congruence.
Qed.

Lemma inject_Z_nonneg z : (0 <= z)%Z → (0 <= inject_Z z)%Q.
Proof. intros Hz. unfold Qle. simpl. lia. Qed.

Lemma sleep_max_pos : (0 < sleep_max)%Q.
Proof. reflexivity. Qed.

(** A sleep within the accepted range advances the clock and is logged. *)
Lemma sleep_within d w :
  (0 <= d)%Q → (d <= sleep_max)%Q →
  sleep d w = (Return tt, {| _CACHE := _CACHE w; clock := (clock w + d)%Q;
                             sent := sent w; slept := slept w ++ [d] |}).
Proof.
  intros Hd Hmax. unfold sleep.
  assert (- sleep_max <= d)%Q as Hmin.
  { pose proof sleep_max_pos. lra. }
  apply Qgtb_false in Hd, Hmax, Hmin. by rewrite Hd, Hmax, Hmin.
Qed.

(** Beyond the range it raises and changes nothing. *)
Lemma sleep_overflow d w :
  (sleep_max < d)%Q → sleep d w = (Raise OverflowError, w).
Proof. intros Hd. unfold sleep. apply Qgtb_true in Hd. by rewrite Hd. Qed.

(** The sleeps of the loop grow with the attempt number: when the last one
    ([backoff * retries]) is within range, all are. *)
Lemma backoff_within backoff m a :
  (0 <= backoff)%Q →
  (backoff * inject_Z m <= sleep_max)%Q →
  (0 ≤ a)%Z → (a + 1 ≤ m)%Z →
  (0 <= backoff * inject_Z (a + 1))%Q ∧ (backoff * inject_Z (a + 1) <= sleep_max)%Q.
Proof.
  intros Hb Hmax Ha Hle. split.
  - apply Qmult_le_0_compat; [done|]. apply inject_Z_nonneg. lia.
  - eapply Qle_trans; [|exact Hmax].
    rewrite !(Qmult_comm backoff). apply Qmult_le_compat_r; [|done].
    rewrite <- Zle_Qle. exact Hle.
Qed.

(** ** The cache primitives *)

(** The lookup that [_cache_get] performs, as one case analysis. *)
Lemma _cache_get_eq key ttl w :
  _cache_get key ttl w =
  match _CACHE w !! key with
  | None => (Return JNull, w)
  | Some (ts, data) =>
      if Qgtb (clock w - ts) ttl
      then (Return JNull, {| _CACHE := delete key (_CACHE w); clock := clock w;
                             sent := sent w; slept := slept w |})
      else (Return data, w)
  end.
Proof.
  unfold _cache_get, bind, cache_lookup, _now, cache_pop, ret.
  destruct (_CACHE w !! key) as [[ts data]|]; [|done].
  by destruct (Qgtb (clock w - ts) ttl).
Qed.

Lemma _cache_set_eq key value w :
  _cache_set key value w =
  (Return tt, {| _CACHE := <[key := (clock w, value)]> (_CACHE w); clock := clock w;
                 sent := sent w; slept := slept w |}).
Proof. reflexivity. Qed.

(** [_cache_get] never raises, never touches the network log, and leaves the
    cache as it was or without [key]. *)
Lemma _cache_get_effect key ttl w :
  ∃ cached w',
    _cache_get key ttl w = (Return cached, w')
    ∧ sent w' = sent w ∧ slept w' = slept w ∧ clock w' = clock w
    ∧ (_CACHE w' = _CACHE w ∨ _CACHE w' = delete key (_CACHE w))
    ∧ (cached = JNull
       ∨ ∃ ts, _CACHE w !! key = Some (ts, cached) ∧ w' = w
               ∧ (clock w - ts <= ttl)%Q).
Proof.
  rewrite _cache_get_eq.
  destruct (_CACHE w !! key) as [[ts data]|] eqn:E.
  - destruct (Qgtb (clock w - ts) ttl) eqn:G.
    + eexists _, _. split; [reflexivity|]. simpl. eauto 10.
    + eexists _, _. split; [reflexivity|]. apply Qgtb_false in G. eauto 10.
  - eexists _, _. split; [reflexivity|]. eauto 10.
Qed.

(** ** The request loop *)

Lemma http_get_eq env r w :
  http_get env r w =
  (Return (env (length (sent w)) r).1,
   {| _CACHE := _CACHE w; clock := (clock w + (env (length (sent w)) r).2)%Q;
      sent := sent w ++ [r]; slept := slept w |}).
Proof. unfold http_get. by destruct (env (length (sent w)) r). Qed.

Lemma fails_at_tail env r k n :
  fails_at env r k (S n) → fails_at env r (S k) n.
Proof.
  intros H i Hi. destruct (H (S i)) as (e & dt & He); [lia|].
  exists e, dt. by replace (S k + i)%nat with (k + S i)%nat by lia.
Qed.

(** When every attempt fails, the loop runs all its rounds, sleeps between
    them and hands back the error marker. *)
Lemma request_loop_all_fail env r retries backoff :
  (0 <= backoff)%Q →
  (backoff * inject_Z retries <= sleep_max)%Q →
  ∀ todo attempt w,
    (0 ≤ attempt)%Z →
    (attempt + Z.of_nat todo = retries + 1)%Z →
    todo ≠ 0%nat →
    fails_at env r (length (sent w)) todo →
    ∃ e w',
      request_loop env r retries backoff todo attempt w
        = (Return (error_dict (JStr e)), w')
      ∧ _CACHE w' = _CACHE w
      ∧ sent w' = sent w ++ replicate todo r
      ∧ slept w' = slept w ++
          ((λ a, backoff * inject_Z (a + 1))%Q <$> seqZ attempt (Z.of_nat todo - 1)).
Proof.
  intros Hb Hmax todo.
  induction todo as [|todo IH]; intros attempt w Ha Hsum Hne Hfail; [done|].
  destruct (Hfail 0%nat) as (e & dt & He); [lia|].
  rewrite Nat.add_0_r in He.
  simpl. unfold bind. rewrite http_get_eq, He. simpl.
  destruct (Z.eqb_spec attempt retries) as [->|Hneq].
  - assert (todo = 0%nat) as -> by lia.
    exists e. eexists. split; [reflexivity|]. simpl.
    by rewrite app_nil_r.
  - destruct (backoff_within backoff retries attempt Hb Hmax) as [Hd0 Hd1]; [lia..|].
    rewrite (sleep_within _ _ Hd0 Hd1).
    edestruct (IH (attempt + 1)%Z) as (e' & w' & Hrun & Hc & Hs & Hsl);
      [| |by (intros ->; lia)| |].
    4:{ exists e', w'. split; [exact Hrun|]. rewrite Hc, Hs, Hsl. simpl.
        split; [done|]. split.
        - by rewrite <- app_assoc.
        - rewrite <- app_assoc. f_equal.
          rewrite (seqZ_cons attempt) by lia. simpl. do 3 f_equal; lia. }
    + lia.
    + lia.
    + simpl. rewrite length_app. simpl.
      replace (length (sent w) + 1)%nat with (S (length (sent w))) by lia.
      by apply fails_at_tail.
Qed.

Lemma fails_at_cons env r k n e dt :
  env k r = (RequestException e, dt) →
  fails_at env r (S k) n → fails_at env r k (S n).
Proof.
  intros He H [|i] Hi.
  - exists e, dt. by rewrite Nat.add_0_r.
  - destruct (H i) as (e' & dt' & He'); [lia|].
    exists e', dt'. by replace (k + S i)%nat with (S k + i)%nat by lia.
Qed.

(** In general the loop does not raise (for a backoff whose sleeps are within
    range), leaves the cache alone and logs between one and [todo] attempts.
    What it returns is the body served to its first attempt that did not
    fail or, when all its attempts failed, the error marker. *)
Lemma request_loop_effect env r retries backoff :
  (0 <= backoff)%Q →
  (backoff * inject_Z retries <= sleep_max)%Q →
  ∀ todo attempt w,
    (0 ≤ attempt)%Z →
    (attempt + Z.of_nat todo = retries + 1)%Z →
    todo ≠ 0%nat →
    ∃ n data w',
      request_loop env r retries backoff todo attempt w = (Return data, w')
      ∧ _CACHE w' = _CACHE w
      ∧ sent w' = sent w ++ replicate n r
      ∧ (1 ≤ n ≤ todo)%nat
      ∧ ((∃ i dt, n = S i ∧ fails_at env r (length (sent w)) i
                  ∧ env (length (sent w) + i)%nat r = (Body data, dt))
         ∨ (∃ e, data = error_dict (JStr e)
                 ∧ n = todo ∧ fails_at env r (length (sent w)) todo)).
Proof.
  intros Hb Hmax todo.
  induction todo as [|todo IH]; intros attempt w Ha Hsum Hne; [done|].
  simpl. unfold bind. rewrite http_get_eq.
  destruct (env (length (sent w)) r) as [[data|e] dt] eqn:He; simpl.
  - exists 1%nat, data. eexists. split; [reflexivity|]. simpl.
    repeat split; [lia..|]. left. exists 0%nat, dt. split; [done|]. split.
    + intros i Hi. lia.
    + by rewrite Nat.add_0_r.
  - destruct (Z.eqb_spec attempt retries) as [->|Hneq].
    + assert (todo = 0%nat) as -> by lia.
      exists 1%nat. eexists _, _. split; [reflexivity|]. simpl.
      repeat split; [lia..|]. right. exists e. split; [done|]. split; [done|].
      intros i Hi. assert (i = 0%nat) as -> by lia. rewrite Nat.add_0_r. eauto.
    + destruct (backoff_within backoff retries attempt Hb Hmax) as [Hd0 Hd1]; [lia..|].
      rewrite (sleep_within _ _ Hd0 Hd1).
      edestruct (IH (attempt + 1)%Z) as (n & data & w' & Hrun & Hc & Hs & Hn & Hd);
        [| |by (intros ->; lia)|].
      3:{ exists (S n), data, w'. split; [exact Hrun|]. rewrite Hc, Hs. simpl.
          split; [done|]. split; [by rewrite <- app_assoc|]. split; [lia|].
          simpl in Hd. rewrite length_app in Hd. simpl in Hd.
          replace (length (sent w) + 1)%nat with (S (length (sent w))) in Hd by lia.
          destruct Hd as [(i & dt' & -> & Hfail & Hbody)|(e' & -> & -> & Hfail)].
          - left. exists (S i), dt'. split; [done|]. split.
            + by eapply fails_at_cons.
            + by replace (length (sent w) + S i)%nat
                with (S (length (sent w)) + i)%nat by lia.
          - right. exists e'. split; [done|]. split; [done|].
            by eapply fails_at_cons. }
      * lia.
      * lia.
Qed.

(** ** Strings: case and whitespace *)

Lemma upper_char_idem c : Str.upper_char (Str.upper_char c) = Str.upper_char c.
Proof. by destruct c as [[] [] [] [] [] [] [] []]. Qed.

Lemma lower_upper_char c : Str.lower_char (Str.upper_char c) = Str.lower_char c.
Proof. by destruct c as [[] [] [] [] [] [] [] []]. Qed.

Lemma is_space_upper_char c : Str.is_space (Str.upper_char c) = Str.is_space c.
Proof. by destruct c as [[] [] [] [] [] [] [] []]. Qed.

Lemma upper_idem s : Str.upper (Str.upper s) = Str.upper s.
Proof.
  induction s as [|c s IH]; [done|].
  unfold Str.upper in *. simpl. by rewrite upper_char_idem, IH.
Qed.

Lemma lower_upper s : Str.lower (Str.upper s) = Str.lower s.
Proof.
  induction s as [|c s IH]; [done|].
  unfold Str.upper, Str.lower in *. simpl. by rewrite lower_upper_char, IH.
Qed.

Lemma is_empty_map f s : Str.is_empty (Str.map f s) = Str.is_empty s.
Proof. by destruct s. Qed.

Lemma is_empty_true s : Str.is_empty s = true ↔ s = "".
Proof. by destruct s. Qed.

Lemma lstrip_upper s : Str.lstrip (Str.upper s) = Str.upper (Str.lstrip s).
Proof.
  induction s as [|c s IH]; [done|].
  unfold Str.upper in *. simpl. rewrite is_space_upper_char.
  by destruct (Str.is_space c).
Qed.

Lemma rstrip_upper s : Str.rstrip (Str.upper s) = Str.upper (Str.rstrip s).
Proof.
  induction s as [|c s IH]; [done|].
  unfold Str.upper in *. simpl. rewrite is_space_upper_char, IH, is_empty_map.
  by destruct (Str.is_space c), (Str.is_empty (Str.rstrip s)).
Qed.

Lemma strip_upper s : Str.strip (Str.upper s) = Str.upper (Str.strip s).
Proof. unfold Str.strip. by rewrite lstrip_upper, rstrip_upper. Qed.

(** ** Symbol resolution *)

Lemma dict_get_values {V} k (d : list (string * V)) v :
  dict_get k d = Some v → v ∈ dict_values d.
Proof.
  induction d as [|[k' v'] d IH]; simpl; [done|].
  destruct (String.eqb k k').
  - intros [= ->]. left.
  - intros H. right. by apply IH.
Qed.

Lemma dict_get_elem {V} k (d : list (string * V)) v :
  dict_get k d = Some v → (k, v) ∈ d.
Proof.
  induction d as [|[k' v'] d IH]; simpl; [done|].
  destruct (String.eqb_spec k k') as [->|].
  - intros [= ->]. left.
  - intros H. right. by apply IH.
Qed.

Lemma str_in_elem x xs : str_in x xs = true → x ∈ xs.
Proof.
  unfold str_in. intros H. apply existsb_exists in H as (y & Hy & Heq).
  apply String.eqb_eq in Heq as ->. by apply list_elem_of_In.
Qed.

(** What [symbol_to_id] returns is always an identifier of the table. *)
Lemma symbol_to_id_in_table s id :
  symbol_to_id s = Some id → id ∈ dict_values SYMBOL_TO_ID.
Proof.
  unfold symbol_to_id. destruct (Str.is_empty s); [done|].
  destruct (dict_get _ SYMBOL_TO_ID) as [id'|] eqn:E.
  - intros [= ->]. by eapply dict_get_values.
  - destruct (str_in _ _) eqn:E'; [|done].
    intros [= <-]. by apply str_in_elem.
Qed.

Lemma table_ids_nonempty id :
  id ∈ dict_values SYMBOL_TO_ID → Str.is_empty id = false.
Proof.
  intros H.
  assert (Forall (λ x, Str.is_empty x = false) (dict_values SYMBOL_TO_ID)) as HF
    by (repeat constructor).
  rewrite Forall_forall in HF. by apply HF.
Qed.

Lemma symbol_to_id_truthy s id :
  symbol_to_id s = Some id → id_truthy (Some id) = true.
Proof.
  intros H. simpl. by rewrite (table_ids_nonempty id (symbol_to_id_in_table _ _ H)).
Qed.

(** Resolution only looks at the upper-cased symbol. *)
Lemma symbol_to_id_upper a b :
  Str.upper a = Str.upper b → symbol_to_id a = symbol_to_id b.
Proof.
  intros H. unfold symbol_to_id.
  assert (Str.is_empty a = Str.is_empty b) as ->.
  { rewrite <- (is_empty_map Str.upper_char a), <- (is_empty_map Str.upper_char b).
    unfold Str.upper in H. by rewrite H. }
  assert (Str.upper (Str.strip a) = Str.upper (Str.strip b)) as Hs.
  { by rewrite <- !strip_upper, H. }
  rewrite <- (lower_upper (Str.strip a)), <- (lower_upper (Str.strip b)).
  by rewrite Hs.
Qed.

Lemma symbol_to_id_upper_self s : symbol_to_id (Str.upper s) = symbol_to_id s.
Proof. apply symbol_to_id_upper, upper_idem. Qed.

(** ** Dicts *)

Section DictFacts.
Context {V : Type}.
Implicit Types (d : list (string * V)) (k : string) (v : V).

Lemma dict_get_set_eq k v d : dict_get k (dict_set k v d) = Some v.
Proof.
  induction d as [|[k' v'] d IH]; simpl.
  - by rewrite String.eqb_refl.
  - destruct (String.eqb k k') eqn:E; simpl; rewrite ?String.eqb_refl, ?E; done.
Qed.

Lemma dict_get_set_ne k k' v d : k ≠ k' → dict_get k (dict_set k' v d) = dict_get k d.
Proof.
  intros Hne. induction d as [|[k2 v2] d IH]; simpl.
  - by apply String.eqb_neq in Hne as ->.
  - destruct (String.eqb_spec k' k2) as [->|]; simpl.
    + by apply String.eqb_neq in Hne as ->.
    + by rewrite IH.
Qed.

Lemma dict_get_set k k' v d :
  dict_get k (dict_set k' v d) = if String.eqb k k' then Some v else dict_get k d.
Proof.
  destruct (String.eqb_spec k k') as [->|Hne].
  - apply dict_get_set_eq.
  - by apply dict_get_set_ne.
Qed.

Lemma dict_get_keys k d : is_Some (dict_get k d) ↔ k ∈ dict_keys d.
Proof.
  induction d as [|[k' v'] d IH]; simpl.
  - split; [by intros [? [=]]|by intros ?%elem_of_nil].
  - rewrite elem_of_cons. destruct (String.eqb_spec k k') as [->|Hne].
    + split; eauto.
    + rewrite IH. naive_solver.
Qed.

Lemma dict_keys_set k v d :
  dict_keys (dict_set k v d) =
  if dict_has k d then dict_keys d else dict_keys d ++ [k].
Proof.
  unfold dict_has. induction d as [|[k' v'] d IH]; simpl; [done|].
  destruct (String.eqb_spec k k') as [->|Hne]; simpl; [done|].
  rewrite IH. by destruct (dict_get k d).
Qed.

Lemma dict_keys_set_elem k k' v d :
  k ∈ dict_keys (dict_set k' v d) ↔ k = k' ∨ k ∈ dict_keys d.
Proof.
  rewrite <- !dict_get_keys, dict_get_set.
  destruct (String.eqb_spec k k'); naive_solver.
Qed.

Lemma dict_keys_set_NoDup k v d : NoDup (dict_keys d) → NoDup (dict_keys (dict_set k v d)).
Proof.
  intros Hnd. rewrite dict_keys_set. unfold dict_has.
  destruct (dict_get k d) eqn:E; [done|].
  apply NoDup_app. split; [done|]. split; [|apply NoDup_singleton].
  intros x Hx ->%list_elem_of_singleton.
  apply dict_get_keys in Hx as [? Hx]. congruence.
Qed.
End DictFacts.

(** ** The [ids] list and the [mapping] dict of [get_simple_price] *)

Lemma resolve_snoc l sym : resolve (l ++ [sym]) = resolve_step (resolve l) sym.
Proof. unfold resolve. by rewrite foldl_app. Qed.

Lemma resolve_step_ids st sym :
  (resolve_step st sym).1 = st.1 ++ option_list (symbol_to_id sym).
Proof.
  unfold resolve_step. destruct (symbol_to_id sym) as [id|] eqn:E; simpl.
  - by rewrite (table_ids_nonempty id (symbol_to_id_in_table _ _ E)).
  - by rewrite app_nil_r.
Qed.

Lemma resolve_step_mapping st sym :
  (resolve_step st sym).2 = dict_set (Str.upper sym) (symbol_to_id sym) st.2.
Proof.
  unfold resolve_step. destruct (symbol_to_id sym) as [id|]; [|done].
  by destruct (id_truthy (Some id)).
Qed.

(** [ids] holds the identifier of every resolved symbol, in input order and
    with repetitions. *)
Lemma resolve_ids l : (resolve l).1 = omap symbol_to_id l.
Proof.
  induction l as [|sym l IH] using rev_ind; [done|].
  rewrite resolve_snoc, resolve_step_ids, IH, omap_app. simpl.
  by destruct (symbol_to_id sym).
Qed.

(** [mapping] has one key per upper-cased symbol, bound to its resolution. *)
Lemma resolve_mapping l :
  let mapping := (resolve l).2 in
  NoDup (dict_keys mapping)
  ∧ (∀ k, k ∈ dict_keys mapping ↔ ∃ sym, sym ∈ l ∧ k = Str.upper sym)
  ∧ (∀ k cid, dict_get k mapping = Some cid → cid = symbol_to_id k).
Proof.
  induction l as [|sym l IH] using rev_ind; simpl.
  - split; [constructor|]. split; [|done].
    intros k. split; [by intros ?%elem_of_nil|]. by intros (? & ?%elem_of_nil & _).
  - destruct IH as (Hnd & Hkeys & Hval).
    rewrite resolve_snoc, resolve_step_mapping. split; [|split].
    + by apply dict_keys_set_NoDup.
    + intros k. rewrite dict_keys_set_elem, Hkeys. setoid_rewrite elem_of_app.
      setoid_rewrite list_elem_of_singleton. naive_solver.
    + intros k cid. rewrite dict_get_set.
      destruct (String.eqb_spec k (Str.upper sym)) as [->|]; [|by apply Hval].
      intros [= <-]. by rewrite symbol_to_id_upper_self.
Qed.


Lemma resolve_mapping_key_upper l k :
  k ∈ dict_keys (resolve l).2 → Str.upper k = k.
Proof.
  intros Hk. destruct (resolve_mapping l) as (_ & Hkeys & _).
  apply Hkeys in Hk as (sym & _ & ->). apply upper_idem.
Qed.

Lemma all_none_lookup mapping k :
  match all_none mapping with
  | JDict d => dict_get k d = if dict_has k mapping then Some JNull else None
  | _ => False
  end.
Proof.
  unfold all_none, dict_has, dict_keys. induction mapping as [|[k' v] m IH]; simpl; [done|].
  by destruct (String.eqb k k').
Qed.

(** The sleeps of the default retry budget, 0.8 and 1.6 seconds, are within
    range. *)
Lemma default_backoff_within :
  (default_backoff * inject_Z default_retries <= sleep_max)%Q.
Proof. vm_compute. discriminate. Qed.

(** ** [_request] when the provider is down *)

Lemma _request_all_fail env path params retries backoff w :
  (0 ≤ retries)%Z → (0 <= backoff)%Q →
  (backoff * inject_Z retries <= sleep_max)%Q →
  let r := mkRequest (COINGECKO_BASE +:+ path) params in
  fails_at env r (length (sent w)) (Z.to_nat (retries + 1)) →
  ∃ e w',
    _request env path params retries backoff w = (Return (error_dict (JStr e)), w')
    ∧ _CACHE w' = _CACHE w
    ∧ sent w' = sent w ++ replicate (Z.to_nat (retries + 1)) r
    ∧ slept w' = slept w ++ backoff_delays retries backoff.
Proof.
  intros Hr Hb Hmax r Hfail. unfold _request.
  destruct (request_loop_all_fail env r retries backoff Hb Hmax
              (Z.to_nat (retries + 1)) 0%Z w) as (e & w' & Hrun & Hc & Hs & Hsl);
    [lia|lia|lia|done|].
  exists e, w'. split; [done|]. split; [done|]. split; [done|].
  rewrite Hsl. unfold backoff_delays. do 3 f_equal. lia.
Qed.

Lemma _cache_get_miss key ttl w :
  fresh w key ttl = false →
  _cache_get key ttl w = (Return JNull, set_cache (delete key (_CACHE w)) w).
Proof.
  unfold fresh. rewrite _cache_get_eq.
  destruct (_CACHE w !! key) as [[ts data]|] eqn:E.
  - intros ->%negb_false_iff. done.
  - intros _. rewrite delete_id by done. by destruct w.
Qed.

Lemma _cache_get_hit key ttl w ts data :
  _CACHE w !! key = Some (ts, data) →
  fresh w key ttl = true →
  _cache_get key ttl w = (Return data, w).
Proof.
  unfold fresh. rewrite _cache_get_eq. intros ->.
  by intros ->%negb_true_iff.
Qed.

Lemma fetch_failed_error_dict v : fetch_failed (error_dict v) = Return true.
Proof. reflexivity. Qed.

Lemma all_none_entries mapping :
  ∃ entries, all_none mapping = JDict entries
    ∧ (∀ k, k ∈ dict_keys mapping → dict_get k entries = Some JNull)
    ∧ (∀ k v, dict_get k entries = Some v → v = JNull ∧ k ∈ dict_keys mapping).
Proof.
  eexists. split; [reflexivity|].
  unfold dict_keys. induction mapping as [|[k' c] m [IH1 IH2]]; simpl.
  - split; [by intros ? ?%elem_of_nil|done].
  - split.
    + intros k Hk. destruct (String.eqb_spec k k') as [->|Hne]; [done|].
      apply IH1. apply elem_of_cons in Hk as [?|?]; done.
    + intros k v. destruct (String.eqb_spec k k') as [->|Hne].
      * intros [= <-]. split; [done|]. left.
      * intros H. destruct (IH2 _ _ H). split; [done|]. by right.
Qed.

(** C1. When every attempt of the request that [get_simple_price] sends fails
    with a requests error, the loop makes exactly [retries + 1] attempts (three
    with the default [retries = 2]), sleeps [backoff * (attempt + 1)] between
    them, and the call returns, without raising, a dict whose value is [None]
    for every requested symbol (under its upper-cased key). *)
Theorem get_simple_price_provider_down env symbols vs_currency ttl w :
  let symbols_list := symbols_list_of symbols in
  let ids := (resolve symbols_list).1 in
  let r := simple_price_request ids vs_currency in
  ids ≠ [] →
  fresh w (simple_price_key ids vs_currency) ttl = false →
  fails_at env r (length (sent w)) (Z.to_nat (default_retries + 1)) →
  ∃ entries w',
    get_simple_price env symbols vs_currency ttl w = (Return (JDict entries), w')
    ∧ sent w' = sent w ++ replicate (Z.to_nat (default_retries + 1)) r
    ∧ slept w' = slept w ++ backoff_delays default_retries default_backoff
    ∧ (∀ sym, sym ∈ symbols_list → dict_get (Str.upper sym) entries = Some JNull)
    ∧ (∀ k v, dict_get k entries = Some v → v = JNull).
Proof.
  intros symbols_list ids r Hids Hmiss Hfail.
  destruct (_request_all_fail env "/simple/price" (req_params r) default_retries
              default_backoff (set_cache (delete (simple_price_key ids vs_currency)
                                                 (_CACHE w)) w))
    as (e & w' & Hrun & Hc & Hs & Hsl);
    [done|done|exact default_backoff_within|exact Hfail|].
  destruct (all_none_entries (resolve symbols_list).2) as (entries & Hall & Hin & Hout).
  exists entries, w'.
  unfold get_simple_price, bind. fold symbols_list. fold ids.
  rewrite (_cache_get_miss _ _ _ Hmiss). cbn [Py.is_none negb].
  assert (is_nil ids = false) as -> by (by destruct ids).
  unfold request_default. cbn [req_params r simple_price_request] in Hrun.
  rewrite Hrun.
  unfold lift. rewrite fetch_failed_error_dict. unfold ret. rewrite Hall.
  split; [done|]. split; [exact Hs|]. split; [exact Hsl|]. split.
  - intros sym Hsym. apply Hin.
    destruct (resolve_mapping symbols_list) as (_ & Hkeys & _). apply Hkeys. eauto.
  - intros k v Hk. by destruct (Hout _ _ Hk).
Qed.

Lemma get_simple_price_provider_down_witness :
  ∃ entries w',
    get_simple_price provider_down (SymbolsList ["BTC"]) "usd" DEFAULT_TTL
      (initial_world 0) = (Return (JDict entries), w')
    ∧ sent w' = replicate 3 (simple_price_request ["bitcoin"] "usd")
    ∧ slept w' = [(8 # 10) * inject_Z 1; (8 # 10) * inject_Z 2]%Q
    ∧ (∀ sym, sym ∈ ["BTC"] → dict_get (Str.upper sym) entries = Some JNull)
    ∧ (∀ k v, dict_get k entries = Some v → v = JNull).
Proof.
  apply (get_simple_price_provider_down provider_down (SymbolsList ["BTC"]) "usd"
           DEFAULT_TTL (initial_world 0)).
  - discriminate.
  - reflexivity.
  - intros i _. eexists _, _. reflexivity.
Defined.

(** ** Rules for [sat] *)

Lemma sat_ret {A} (a : A) w Q : Q (Return a) w → sat (ret a) w Q.
Proof. done. Qed.

Lemma sat_lift {A} (o : outcome A) w Q : Q o w → sat (lift o) w Q.
Proof. done. Qed.

Lemma sat_bind {A B} (m : M A) (k : A → M B) w Q :
  sat m w (λ o w1, match o with
                   | Return a => sat (k a) w1 Q
                   | Raise e => Q (Raise e) w1
                   end) →
  sat (bind m k) w Q.
Proof. unfold sat, bind. by destruct (m w) as [[a|e] w1]. Qed.

Lemma sat_cache_get key ttl w (Q : outcome json → World → Prop) :
  (∀ cached w1, looked_up key ttl w cached w1 → Q (Return cached) w1) →
  sat (_cache_get key ttl) w Q.
Proof.
  intros HQ. unfold sat. destruct (fresh w key ttl) eqn:E.
  - unfold fresh in E. destruct (_CACHE w !! key) as [[ts data]|] eqn:El; [|done].
    rewrite (_cache_get_hit key ttl w ts data) by (done || by unfold fresh; rewrite El).
    apply HQ. right. exists ts. unfold fresh. by rewrite El.
  - rewrite _cache_get_miss by done. apply HQ. by left.
Qed.

Lemma sat_cache_set key value w (Q : outcome unit → World → Prop) :
  Q (Return tt) (set_cache (<[key := (clock w, value)]> (_CACHE w)) w) →
  sat (_cache_set key value) w Q.
Proof. done. Qed.

Lemma sat_request_default env path params w1 (Q : outcome json → World → Prop) :
  (∀ data w2, fetched env (mkRequest (COINGECKO_BASE +:+ path) params) w1 data w2 →
              Q (Return data) w2) →
  sat (request_default env path params) w1 Q.
Proof.
  intros HQ. unfold sat, request_default, _request.
  destruct (request_loop_effect env (mkRequest (COINGECKO_BASE +:+ path) params)
              default_retries default_backoff ltac:(done) default_backoff_within
              (Z.to_nat (default_retries + 1))
              0%Z w1) as (n & data & w2 & Hrun & Hc & Hs & Hn & Hd); [done|done|done|].
  change (Z.to_nat (default_retries + 1)) with 3%nat in Hn.
  rewrite Hrun. apply HQ. split; [done|]. split.
  - exists n. split; [lia|done].
  - destruct Hd as [(i & dt & -> & Hfail & Hbody)|(e & -> & _)]; [left|right; eauto].
    exists i, dt. split; [lia|done].
Qed.

Lemma looked_up_sent key ttl w cached w1 :
  looked_up key ttl w cached w1 → sent w1 = sent w ∧ clock w1 = clock w.
Proof. by intros [(_ & _ & ->)|(? & _ & _ & ->)]. Qed.

Lemma looked_up_cache key ttl w cached w1 :
  looked_up key ttl w cached w1 →
  _CACHE w1 = _CACHE w
  ∨ ∃ ts d, _CACHE w !! key = Some (ts, d) ∧ (ttl < clock w - ts)%Q
            ∧ _CACHE w1 = delete key (_CACHE w).
Proof.
  intros [(_ & Hf & ->)|(? & _ & _ & ->)]; [|by left].
  unfold fresh in Hf. simpl.
  destruct (_CACHE w !! key) as [[ts d]|] eqn:E.
  - right. exists ts, d. apply negb_false_iff, Qgtb_true in Hf. done.
  - left. by apply delete_id.
Qed.

(** ** What each operation does to the cache *)

Lemma fetched_body env r w1 data w2 :
  fetched env r w1 data w2 →
  fetch_failed data = Return false →
  ∃ k dt, (length (sent w1) ≤ k)%nat ∧ env k r = (Body data, dt).
Proof.
  intros (_ & _ & [(i & dt & _ & _ & H)|[e ->]]) Hff.
  - exists (length (sent w1) + i)%nat, dt. split; [lia|done].
  - by rewrite fetch_failed_error_dict in Hff.
Qed.

Lemma fetched_usable env r key ttl w cached w1 data w2 :
  looked_up key ttl w cached w1 →
  fetched env r w1 data w2 →
  fetch_failed data = Return false →
  obtains_usable env r (length (sent w)).
Proof.
  intros Hl (_ & _ & [Hserved|[e ->]]) Hff.
  - destruct (looked_up_sent _ _ _ _ _ Hl) as [Hs _]. rewrite Hs in Hserved.
    by exists data.
  - by rewrite fetch_failed_error_dict in Hff.
Qed.

Lemma effect_of_lookup env c key ttl w cached w1 w' :
  cache_read c = Some (key, ttl) →
  looked_up key ttl w cached w1 →
  _CACHE w' = _CACHE w1 →
  cache_effect env c w w'.
Proof.
  intros Hc Hl Hw. unfold cache_effect. rewrite Hw.
  destruct (looked_up_cache _ _ _ _ _ Hl) as [->|Hx]; [by left|].
  right. exists key, ttl. split; [done|]. by left.
Qed.

Lemma effect_of_store env c key ttl r w cached w1 w' ts d :
  cache_read c = Some (key, ttl) →
  looked_up key ttl w cached w1 →
  request_of c = Some r →
  obtains_usable env r (length (sent w)) →
  stored env key d →
  _CACHE w' = <[key := (ts, d)]> (_CACHE w1) →
  cache_effect env c w w'.
Proof.
  intros Hc Hl Hreq Hu Hst Hw. right. exists key, ttl. split; [done|]. right.
  exists ts, d, r. split; [done|]. split; [done|]. split; [done|]. rewrite Hw.
  destruct (looked_up_cache _ _ _ _ _ Hl) as [->|(? & ? & _ & _ & ->)]; [done|].
  apply insert_delete_eq.
Qed.

Ltac sat_bind_with rule := apply sat_bind; apply rule.

Lemma get_coin_info_cache_effect env symbol ttl w :
  sat (get_coin_info env symbol ttl) w
      (λ _ w', cache_effect env (Call_get_coin_info symbol ttl) w w').
Proof.
  unfold get_coin_info.
  destruct (symbol_to_id symbol) as [id|] eqn:E; [|by apply sat_ret; left].
  rewrite (symbol_to_id_truthy _ _ E). cbn [negb].
  assert (cache_read (Call_get_coin_info symbol ttl) = Some (coin_info_key id, ttl))
    as Hread by (simpl; by rewrite E).
  sat_bind_with sat_cache_get. intros cached w1 Hl.
  destruct (Py.truthy cached).
  { apply sat_ret. by eapply effect_of_lookup. }
  sat_bind_with sat_request_default. intros data w2 Hf.
  sat_bind_with @sat_lift.
  destruct (fetch_failed data) as [[|]|e] eqn:Hff.
  - apply sat_lift. eapply effect_of_lookup; [done..|apply Hf].
  - destruct (fetched_body _ _ _ _ _ Hf Hff) as (k & dt & _ & Hbody).
    pose proof (fetched_usable _ _ _ _ _ _ _ _ _ Hl Hf Hff) as Hu.
    sat_bind_with @sat_lift.
    destruct (coin_info_record data) as [out|e] eqn:Hrec.
    + sat_bind_with sat_cache_set. apply sat_ret.
      eapply effect_of_store; [exact Hread|exact Hl| |exact Hu| |].
      * simpl. by rewrite E.
      * by eapply stored_coin_info.
      * simpl. f_equal. apply Hf.
    + eapply effect_of_lookup; [done..|apply Hf].
  - eapply effect_of_lookup; [done..|apply Hf].
Qed.

Lemma get_market_data_cache_effect env symbol vs_currency ttl w :
  sat (get_market_data env symbol vs_currency ttl) w
      (λ _ w', cache_effect env (Call_get_market_data symbol vs_currency ttl) w w').
Proof.
  unfold get_market_data.
  destruct (symbol_to_id symbol) as [id|] eqn:E; [|by apply sat_ret; left].
  rewrite (symbol_to_id_truthy _ _ E). cbn [negb].
  assert (cache_read (Call_get_market_data symbol vs_currency ttl)
          = Some (market_data_key id vs_currency, ttl)) as Hread by (simpl; by rewrite E).
  sat_bind_with sat_cache_get. intros cached w1 Hl.
  destruct (Py.truthy cached).
  { apply sat_ret. by eapply effect_of_lookup. }
  sat_bind_with sat_request_default. intros data w2 Hf.
  sat_bind_with @sat_lift.
  destruct (fetch_failed data) as [[|]|e] eqn:Hff.
  - apply sat_lift. eapply effect_of_lookup; [done..|apply Hf].
  - destruct (fetched_body _ _ _ _ _ Hf Hff) as (k & dt & _ & Hbody).
    pose proof (fetched_usable _ _ _ _ _ _ _ _ _ Hl Hf Hff) as Hu.
    destruct data as [| | | |[|record rest]|];
      try (apply sat_ret; eapply effect_of_lookup; [done..|apply Hf]).
    sat_bind_with @sat_lift.
    destruct (get_fields record market_fields) as [out|e] eqn:Hrec.
    + sat_bind_with sat_cache_set. apply sat_ret.
      eapply effect_of_store; [exact Hread|exact Hl| |exact Hu| |].
      * simpl. by rewrite E.
      * by eapply stored_market_data.
      * simpl. f_equal. apply Hf.
    + eapply effect_of_lookup; [done..|apply Hf].
  - eapply effect_of_lookup; [done..|apply Hf].
Qed.

Lemma search_coin_cache_effect env query limit w :
  sat (search_coin env query limit) w
      (λ _ w', cache_effect env (Call_search_coin query limit) w w').
Proof.
  unfold search_coin.
  destruct (Str.is_empty query) eqn:E; [by apply sat_ret; left|].
  assert (cache_read (Call_search_coin query limit)
          = Some (search_key query limit, DEFAULT_TTL)) as Hread by (simpl; by rewrite E).
  sat_bind_with sat_cache_get. intros cached w1 Hl.
  destruct (Py.truthy cached).
  { apply sat_ret. by eapply effect_of_lookup. }
  sat_bind_with sat_request_default. intros data w2 Hf.
  sat_bind_with @sat_lift.
  destruct (fetch_failed data) as [[|]|e] eqn:Hff.
  - apply sat_lift. eapply effect_of_lookup; [done..|apply Hf].
  - destruct (fetched_body _ _ _ _ _ Hf Hff) as (k & dt & _ & Hbody).
    pose proof (fetched_usable _ _ _ _ _ _ _ _ _ Hl Hf Hff) as Hu.
    sat_bind_with @sat_lift.
    destruct (Py.get data "coins" (JList [])) as [found|e] eqn:Hfound;
      [|eapply effect_of_lookup; [done..|apply Hf]].
    sat_bind_with @sat_lift.
    destruct (Py.slice_to found limit) as [coins|e] eqn:Hcoins;
      [|eapply effect_of_lookup; [done..|apply Hf]].
    sat_bind_with sat_cache_set. apply sat_ret.
    eapply effect_of_store; [exact Hread|exact Hl| |exact Hu| |].
    + done.
    + by eapply stored_search.
    + simpl. f_equal. apply Hf.
  - eapply effect_of_lookup; [done..|apply Hf].
Qed.

Lemma get_simple_price_cache_effect env symbols vs_currency ttl w :
  sat (get_simple_price env symbols vs_currency ttl) w
      (λ _ w', cache_effect env (Call_get_simple_price symbols vs_currency ttl) w w').
Proof.
  unfold get_simple_price.
  set (ids := (resolve (symbols_list_of symbols)).1).
  set (mapping := (resolve (symbols_list_of symbols)).2).
  assert (cache_read (Call_get_simple_price symbols vs_currency ttl)
          = Some (simple_price_key ids vs_currency, ttl)) as Hread by done.
  sat_bind_with sat_cache_get. intros cached w1 Hl.
  destruct (Py.is_none cached); cbn [negb];
    [|apply sat_lift; by eapply effect_of_lookup].
  destruct (is_nil ids); [apply sat_ret; by eapply effect_of_lookup|].
  sat_bind_with sat_request_default. intros data w2 Hf.
  sat_bind_with @sat_lift.
  destruct (fetch_failed data) as [[|]|e] eqn:Hff.
  - apply sat_ret. eapply effect_of_lookup; [done..|apply Hf].
  - destruct (fetched_body _ _ _ _ _ Hf Hff) as (k & dt & _ & Hbody).
    pose proof (fetched_usable _ _ _ _ _ _ _ _ _ Hl Hf Hff) as Hu.
    sat_bind_with sat_cache_set. apply sat_lift.
    eapply effect_of_store; [exact Hread|exact Hl| |exact Hu| |].
    + done.
    + by eapply stored_simple_price.
    + simpl. f_equal. apply Hf.
  - eapply effect_of_lookup; [done..|apply Hf].
Qed.

(** Every call changes the cache in one of the three ways of [cache_effect]. *)
Lemma run_cache_effect env c w : cache_effect env c w (run env c w).2.
Proof.
  destruct c as [s|symbols vs ttl|symbols vs ttl|symbol vs ttl|symbol ttl|query limit]; simpl.
  - by left.
  - apply get_simple_price_cache_effect.
  - apply (get_simple_price_cache_effect env (SymbolsList symbols)).
  - apply get_market_data_cache_effect.
  - apply get_coin_info_cache_effect.
  - apply search_coin_cache_effect.
Qed.

(** In a reachable world every cache entry was stored by an operation. *)
Lemma reachable_cache_inv env w : reachable env w → cache_inv env w.
Proof.
  induction 1 as [t0|c w Hr IH|d w Hr IH].
  - intros key ts d. simpl. by rewrite lookup_empty.
  - intros key ts d.
    destruct (run_cache_effect env c w) as [->|(k & ttl & _ & [H|H])]; [apply IH|..].
    + destruct H as (ts' & d' & _ & _ & ->).
      rewrite lookup_delete. case_decide; [done|apply IH].
    + destruct H as (ts' & d' & r & Hst & _ & _ & ->).
      rewrite lookup_insert. case_decide; [|apply IH].
      by intros [= <- <-]; subst.
  - exact IH.
Qed.

(** ** Failed fetches and the cache *)


(** The sample world is one the recovering provider leads to: its first
    attempt, numbered 0, is answered. *)
Lemma stale_world_recovers : reachable provider_recovers stale_world.
Proof.
  replace stale_world
    with (wait 100 (run provider_recovers
                      (Call_get_simple_price (SymbolsList ["BTC"]) "usd" DEFAULT_TTL)
                      (initial_world 0)).2)
    by (vm_compute; reflexivity).
  apply reachable_wait, reachable_call, reachable_start.
Qed.



(** A body that is no object is another matter: [get_simple_price] stores it
    before the loop over [mapping] raises on it. *)
Example get_simple_price_caches_array :
  let run1 := get_simple_price provider_array (SymbolsList ["BTC"]) "usd" DEFAULT_TTL
                (initial_world 0) in
  run1.1 = Raise AttributeError
  ∧ _CACHE run1.2 !! "simple_price:bitcoin:usd" = Some (1%Q, JList [JNum 1]).
Proof. split; vm_compute; reflexivity. Qed.

(** ** Symbols, identifiers and cache keys *)

(** C6. For every ticker [S] of [SYMBOL_TO_ID], the upper-cased ticker, the
    lower-cased ticker and the provider identifier [SYMBOL_TO_ID[S]] itself
    all resolve to [SYMBOL_TO_ID[S]]. *)
Theorem symbol_to_id_agrees S id :
  dict_get S SYMBOL_TO_ID = Some id →
  symbol_to_id (Str.upper S) = Some id
  ∧ symbol_to_id (Str.lower S) = Some id
  ∧ symbol_to_id id = Some id.
Proof.
  intros H%dict_get_elem.
  assert (Forall (λ e, symbol_to_id (Str.upper e.1) = Some e.2
                       ∧ symbol_to_id (Str.lower e.1) = Some e.2
                       ∧ symbol_to_id e.2 = Some e.2) SYMBOL_TO_ID) as HF
    by (repeat constructor).
  rewrite Forall_forall in HF. exact (HF (S, id) H).
Qed.

Lemma symbol_to_id_agrees_witness :
  symbol_to_id (Str.upper "DOGE") = Some "dogecoin"
  ∧ symbol_to_id (Str.lower "DOGE") = Some "dogecoin"
  ∧ symbol_to_id "dogecoin" = Some "dogecoin".
Proof. apply (symbol_to_id_agrees "DOGE" "dogecoin"). reflexivity. Defined.

Lemma sorted_perm (xs ys : list string) : xs ≡ₚ ys → sorted xs = sorted ys.
Proof.
  intros Hp. unfold sorted.
  apply (Sorted_unique String.le).
  - apply Sorted_merge_sort, _.
  - apply Sorted_merge_sort, _.
  - by rewrite !merge_sort_Permutation.
Qed.

Lemma simple_price_key_perm ids1 ids2 vs_currency :
  ids1 ≡ₚ ids2 → simple_price_key ids1 vs_currency = simple_price_key ids2 vs_currency.
Proof. intros Hp. unfold simple_price_key. by rewrite (sorted_perm _ _ Hp). Qed.

(** A permutation of the input list does not change the key. *)
Lemma cache_key_of_input_order l1 l2 vs_currency :
  l1 ≡ₚ l2 →
  cache_key_of (SymbolsList l1) vs_currency = cache_key_of (SymbolsList l2) vs_currency.
Proof.
  intros Hp. apply simple_price_key_perm. simpl.
  rewrite !resolve_ids. by apply omap_Permutation.
Qed.

(** C7, as the code has it. The cache key is a function of the sorted list of
    resolved identifiers, repetitions included, and of the quote currency: two
    symbol arguments whose resolved identifiers are the same up to order (any
    permutation of the input, for one) compute the same key. *)
Theorem cache_key_of_permutation symbols1 symbols2 vs_currency :
  (resolve (symbols_list_of symbols1)).1 ≡ₚ (resolve (symbols_list_of symbols2)).1 →
  cache_key_of symbols1 vs_currency = cache_key_of symbols2 vs_currency.
Proof. intros Hp. by apply simple_price_key_perm. Qed.

Lemma cache_key_of_permutation_witness :
  cache_key_of (SymbolsList ["ETH"; "btc"]) "usd"
  = cache_key_of (SymbolsStr "bitcoin, ethereum") "usd".
Proof.
  apply (cache_key_of_permutation (SymbolsList ["ETH"; "btc"])
           (SymbolsStr "bitcoin, ethereum") "usd").
  apply perm_swap.
Defined.

(** C7 as stated fails: naming bitcoin twice, by symbol and by identifier,
    resolves to the same set of identifiers as naming it once, but the keys
    differ because the repeated identifier is kept. *)
Lemma cache_key_keeps_repetitions :
  (∀ id, id ∈ (resolve ["BTC"; "bitcoin"]).1 ↔ id ∈ (resolve ["BTC"]).1)
  ∧ cache_key_of (SymbolsList ["BTC"; "bitcoin"]) "usd" = "simple_price:bitcoin,bitcoin:usd"
  ∧ cache_key_of (SymbolsList ["BTC"]) "usd" = "simple_price:bitcoin:usd"
  ∧ cache_key_of (SymbolsList ["BTC"; "bitcoin"]) "usd"
    ≠ cache_key_of (SymbolsList ["BTC"]) "usd".
Proof.
  split; [|split; [|split]].
  - intros id. change (id ∈ ["bitcoin"; "bitcoin"] ↔ id ∈ ["bitcoin"]).
    rewrite !elem_of_cons. tauto.
  - reflexivity.
  - reflexivity.
  - discriminate.
Qed.

(** ** The string form of the symbols argument *)

Lemma symbols_of_str_spec symbols :
  symbols_of_str symbols = comma_separated_symbols symbols.
Proof.
  unfold symbols_of_str, comma_separated_symbols.
  induction (Str.split "," symbols) as [|part parts IH]; [done|].
  simpl. rewrite IH. by destruct (Str.is_empty (Str.strip part)).
Qed.

(** C10. Given a string, [get_simple_price] splits it on commas, strips every
    part and drops the empty ones, and then behaves exactly as on that list
    with the same quote currency and ttl. *)
Theorem get_simple_price_str env symbols vs_currency ttl w :
  get_simple_price env (SymbolsStr symbols) vs_currency ttl w
  = get_simple_price env (SymbolsList (comma_separated_symbols symbols)) vs_currency ttl w.
Proof.
  unfold get_simple_price. simpl. by rewrite symbols_of_str_spec.
Qed.

(** ** Cache hits, cache misses and the network *)

Lemma cache_accepts_none c : cache_accepts c JNull = false.
Proof. by destruct c. Qed.

Lemma network_use_hit c key ttl w cached w1 :
  cache_read c = Some (key, ttl) →
  looked_up key ttl w cached w1 →
  cache_accepts c cached = true →
  network_use c w w1.
Proof.
  intros Hread [(-> & _ & _)|(ts & Hk & Hfresh & ->)] Hacc.
  { by rewrite cache_accepts_none in Hacc. }
  split; [done|]. intros key' ttl' Hread' Hfresh'. congruence.
Qed.

Lemma not_served c key ttl w cached w1 :
  cache_read c = Some (key, ttl) →
  looked_up key ttl w cached w1 →
  cache_accepts c cached = false →
  ¬ served_from_cache c w.
Proof.
  intros Hread Hl Hacc (key' & ttl' & ts & d & Hread' & Hk & Hfresh & Hacc').
  assert (key' = key ∧ ttl' = ttl) as [-> ->] by (split; congruence).
  destruct Hl as [(_ & Hf & _)|(ts' & Hk' & _ & _)]; congruence.
Qed.

Lemma network_use_skip c key ttl w cached w1 :
  cache_read c = Some (key, ttl) →
  looked_up key ttl w cached w1 →
  cache_accepts c cached = false →
  fetches_on_miss c = false →
  network_use c w w1.
Proof.
  intros Hread Hl Hacc Hno. split.
  - intros Hs. by destruct (not_served _ _ _ _ _ _ Hread Hl Hacc).
  - intros ? ? _ _ ?. congruence.
Qed.

Lemma network_use_fetch env r c key ttl w cached w1 data w2 w' :
  cache_read c = Some (key, ttl) →
  looked_up key ttl w cached w1 →
  cache_accepts c cached = false →
  fetched env r w1 data w2 →
  sent w' = sent w2 →
  network_use c w w'.
Proof.
  intros Hread Hl Hacc (_ & (n & Hn & Hs) & _) Hw'. split.
  - intros Hsv. by destruct (not_served _ _ _ _ _ _ Hread Hl Hacc).
  - intros _ _ _ _ _. exists n, r. split; [done|].
    destruct (looked_up_sent _ _ _ _ _ Hl) as [Hs1 _]. by rewrite Hw', Hs, Hs1.
Qed.

Lemma network_use_no_read c w : cache_read c = None → network_use c w w.
Proof.
  intros Hread. split; [done|]. intros ? ? ?. congruence.
Qed.

Lemma get_coin_info_network_use env symbol ttl w :
  sat (get_coin_info env symbol ttl) w
      (λ _ w', network_use (Call_get_coin_info symbol ttl) w w').
Proof.
  unfold get_coin_info.
  destruct (symbol_to_id symbol) as [id|] eqn:E;
    [|by apply sat_ret, network_use_no_read; simpl; rewrite E].
  rewrite (symbol_to_id_truthy _ _ E). cbn [negb].
  assert (cache_read (Call_get_coin_info symbol ttl) = Some (coin_info_key id, ttl))
    as Hread by (simpl; by rewrite E).
  sat_bind_with sat_cache_get. intros cached w1 Hl.
  destruct (Py.truthy cached) eqn:Hacc.
  { apply sat_ret. by eapply network_use_hit. }
  sat_bind_with sat_request_default. intros data w2 Hf.
  sat_bind_with @sat_lift.
  destruct (fetch_failed data) as [[|]|e] eqn:Hff.
  - apply sat_lift. by eapply network_use_fetch.
  - sat_bind_with @sat_lift.
    destruct (coin_info_record data) as [out|e] eqn:Hrec.
    + sat_bind_with sat_cache_set. apply sat_ret. by eapply network_use_fetch.
    + by eapply network_use_fetch.
  - by eapply network_use_fetch.
Qed.

Lemma get_market_data_network_use env symbol vs_currency ttl w :
  sat (get_market_data env symbol vs_currency ttl) w
      (λ _ w', network_use (Call_get_market_data symbol vs_currency ttl) w w').
Proof.
  unfold get_market_data.
  destruct (symbol_to_id symbol) as [id|] eqn:E;
    [|by apply sat_ret, network_use_no_read; simpl; rewrite E].
  rewrite (symbol_to_id_truthy _ _ E). cbn [negb].
  assert (cache_read (Call_get_market_data symbol vs_currency ttl)
          = Some (market_data_key id vs_currency, ttl)) as Hread by (simpl; by rewrite E).
  sat_bind_with sat_cache_get. intros cached w1 Hl.
  destruct (Py.truthy cached) eqn:Hacc.
  { apply sat_ret. by eapply network_use_hit. }
  sat_bind_with sat_request_default. intros data w2 Hf.
  sat_bind_with @sat_lift.
  destruct (fetch_failed data) as [[|]|e] eqn:Hff.
  - apply sat_lift. by eapply network_use_fetch.
  - destruct data as [| | | |[|record rest]|];
      try (apply sat_ret; by eapply network_use_fetch).
    sat_bind_with @sat_lift.
    destruct (get_fields record market_fields) as [out|e] eqn:Hrec.
    + sat_bind_with sat_cache_set. apply sat_ret. by eapply network_use_fetch.
    + by eapply network_use_fetch.
  - by eapply network_use_fetch.
Qed.

Lemma search_coin_network_use env query limit w :
  sat (search_coin env query limit) w
      (λ _ w', network_use (Call_search_coin query limit) w w').
Proof.
  unfold search_coin.
  destruct (Str.is_empty query) eqn:E;
    [by apply sat_ret, network_use_no_read; simpl; rewrite E|].
  assert (cache_read (Call_search_coin query limit)
          = Some (search_key query limit, DEFAULT_TTL)) as Hread by (simpl; by rewrite E).
  sat_bind_with sat_cache_get. intros cached w1 Hl.
  destruct (Py.truthy cached) eqn:Hacc.
  { apply sat_ret. by eapply network_use_hit. }
  sat_bind_with sat_request_default. intros data w2 Hf.
  sat_bind_with @sat_lift.
  destruct (fetch_failed data) as [[|]|e] eqn:Hff.
  - apply sat_lift. by eapply network_use_fetch.
  - sat_bind_with @sat_lift.
    destruct (Py.get data "coins" (JList [])) as [found|e] eqn:Hfound;
      [|by eapply network_use_fetch].
    sat_bind_with @sat_lift.
    destruct (Py.slice_to found limit) as [coins|e] eqn:Hcoins;
      [|by eapply network_use_fetch].
    sat_bind_with sat_cache_set. apply sat_ret. by eapply network_use_fetch.
  - by eapply network_use_fetch.
Qed.

Lemma get_simple_price_network_use env symbols vs_currency ttl w :
  sat (get_simple_price env symbols vs_currency ttl) w
      (λ _ w', network_use (Call_get_simple_price symbols vs_currency ttl) w w').
Proof.
  unfold get_simple_price.
  set (ids := (resolve (symbols_list_of symbols)).1).
  set (mapping := (resolve (symbols_list_of symbols)).2).
  assert (cache_read (Call_get_simple_price symbols vs_currency ttl)
          = Some (simple_price_key ids vs_currency, ttl)) as Hread by done.
  sat_bind_with sat_cache_get. intros cached w1 Hl.
  destruct (Py.is_none cached) eqn:Hacc; cbn [negb];
    [|apply sat_lift; eapply network_use_hit; [done..|by simpl; rewrite Hacc]].
  assert (cache_accepts (Call_get_simple_price symbols vs_currency ttl) cached = false)
    as Hacc' by (simpl; by rewrite Hacc).
  destruct (is_nil ids) eqn:Hnil.
  { apply sat_ret. eapply network_use_skip; [done..|]. simpl. fold ids. by rewrite Hnil. }
  sat_bind_with sat_request_default. intros data w2 Hf.
  sat_bind_with @sat_lift.
  destruct (fetch_failed data) as [[|]|e] eqn:Hff.
  - apply sat_ret. by eapply network_use_fetch.
  - sat_bind_with sat_cache_set. apply sat_lift. by eapply network_use_fetch.
  - by eapply network_use_fetch.
Qed.

(** Every call uses the network as [network_use] says. *)
Lemma run_network_use env c w : network_use c w (run env c w).2.
Proof.
  destruct c as [s|symbols vs ttl|symbols vs ttl|symbol vs ttl|symbol ttl|query limit]; simpl.
  - by apply network_use_no_read.
  - apply get_simple_price_network_use.
  - apply (get_simple_price_network_use env (SymbolsList symbols)).
  - apply get_market_data_network_use.
  - apply get_coin_info_network_use.
  - apply search_coin_network_use.
Qed.

(** Just before and just after the deadline [T + ttl]. *)
Lemma _cache_get_before_deadline c key T data ttl ε log naps :
  c !! key = Some (T, data) → (0 <= ε)%Q →
  let w := {| _CACHE := c; clock := (T + ttl - ε)%Q; sent := log; slept := naps |} in
  _cache_get key ttl w = (Return data, w).
Proof.
  intros Hk Hε w. apply (_cache_get_hit key ttl w T data Hk).
  unfold fresh. simpl. rewrite Hk. apply negb_true_iff, Qgtb_false. lra.
Qed.

Lemma _cache_get_after_deadline c key T data ttl ε log naps :
  c !! key = Some (T, data) → (0 < ε)%Q →
  let w := {| _CACHE := c; clock := (T + ttl + ε)%Q; sent := log; slept := naps |} in
  _cache_get key ttl w = (Return JNull, set_cache (delete key c) w).
Proof.
  intros Hk Hε w. apply (_cache_get_miss key ttl w).
  unfold fresh. simpl. rewrite Hk. apply negb_false_iff, Qgtb_true. lra.
Qed.

(** C3. An entry stored at time [T], read with time-to-live [ttl], is valid
    exactly when [now - T <= ttl]. A read at such a time returns the stored
    data and leaves the world alone; a read with [now - T > ttl] returns
    [None] and removes the entry, and a call that reads the cache with that
    key then goes to the network. *)
Theorem cache_entry_valid_iff key ttl T data w :
  _CACHE w !! key = Some (T, data) →
  (fresh w key ttl = true ↔ (clock w - T <= ttl)%Q)
  ∧ ((clock w - T <= ttl)%Q → _cache_get key ttl w = (Return data, w))
  ∧ ((ttl < clock w - T)%Q →
       _cache_get key ttl w = (Return JNull, set_cache (delete key (_CACHE w)) w)
       ∧ ∀ env c, cache_read c = Some (key, ttl) → fetches_on_miss c = true →
                  ∃ n r, (1 ≤ n ≤ 3)%nat
                         ∧ sent (run env c w).2 = sent w ++ replicate n r).
Proof.
  intros Hk.
  assert (fresh w key ttl = true ↔ (clock w - T <= ttl)%Q) as Hiff.
  { unfold fresh. rewrite Hk, negb_true_iff. apply Qgtb_false. }
  split; [done|]. split.
  - intros Hle. apply (_cache_get_hit key ttl w T data Hk). by apply Hiff.
  - intros Hlt.
    assert (fresh w key ttl = false) as Hstale.
    { apply not_true_is_false. intros E.
      apply Hiff in E. by destruct (Qlt_not_le _ _ Hlt). }
    split; [by apply _cache_get_miss|].
    intros env c Hread Hfetch.
    destruct (run_network_use env c w) as [_ Hmiss]. by eapply Hmiss.
Qed.

Lemma cache_entry_valid_iff_witness :
  let key := "simple_price:bitcoin:usd" in
  let data := JDict [("bitcoin", JDict [("usd", JNum 5)])] in
  (fresh stale_world key DEFAULT_TTL = true ↔ (clock stale_world - 1 <= DEFAULT_TTL)%Q)
  ∧ ((clock stale_world - 1 <= DEFAULT_TTL)%Q →
       _cache_get key DEFAULT_TTL stale_world = (Return data, stale_world))
  ∧ ((DEFAULT_TTL < clock stale_world - 1)%Q →
       _cache_get key DEFAULT_TTL stale_world
         = (Return JNull, set_cache (delete key (_CACHE stale_world)) stale_world)
       ∧ ∀ env c, cache_read c = Some (key, DEFAULT_TTL) → fetches_on_miss c = true →
                  ∃ n r, (1 ≤ n ≤ 3)%nat
                         ∧ sent (run env c stale_world).2
                           = sent stale_world ++ replicate n r).
Proof.
  apply (cache_entry_valid_iff "simple_price:bitcoin:usd" DEFAULT_TTL 1%Q
           (JDict [("bitcoin", JDict [("usd", JNum 5)])]) stale_world).
  vm_compute. reflexivity.
Defined.

(** ** Two calls in a row *)

Lemma stored_truthy env key d : stored env key d → Py.truthy d = true.
Proof.
  destruct 1 as [ids vs k dt data _ Hff|id vs k r dt record rest out _ _ Hout
                |id k r dt data out _ _ Hout|query limit k r dt data found coins _ _ _ _].
  - unfold fetch_failed in Hff. destruct (Py.truthy data); [done|]. by inversion Hff.
  - unfold market_fields in Hout. cbn [get_fields] in Hout. unfold obind in Hout.
    destruct (Py.get record "id" JNull); [|done].
    by repeat (match type of Hout with
               | match ?o with Return _ => _ | Raise _ => _ end = _ => destruct o
               end; [|done]); inversion Hout.
  - unfold coin_info_record, obind in Hout.
    by repeat (match type of Hout with
               | match ?o with Return _ => _ | Raise _ => _ end = _ => destruct o
               end; [|done]); inversion Hout.
  - done.
Qed.

Lemma get_simple_price_hit env symbols vs_currency ttl w ts d :
  _CACHE w !! cache_key_of symbols vs_currency = Some (ts, d) →
  fresh w (cache_key_of symbols vs_currency) ttl = true →
  Py.is_none d = false →
  get_simple_price env symbols vs_currency ttl w
  = (served_prices d vs_currency (resolve (symbols_list_of symbols)).2, w).
Proof.
  unfold cache_key_of. intros Hk Hfresh Hd. unfold get_simple_price, bind.
  rewrite (_cache_get_hit _ ttl w ts d Hk Hfresh). by rewrite Hd.
Qed.

Lemma get_simple_price_first_ok env symbols vs_currency ttl w data dt :
  let ids := (resolve (symbols_list_of symbols)).1 in
  let key := simple_price_key ids vs_currency in
  is_nil ids = false →
  fresh w key ttl = false →
  env (length (sent w)) (simple_price_request ids vs_currency) = (Body data, dt) →
  fetch_failed data = Return false →
  get_simple_price env symbols vs_currency ttl w
  = (r <-? project data vs_currency (resolve (symbols_list_of symbols)).2 [] ;;
     Return (JDict r),
     {| _CACHE := <[key := ((clock w + dt)%Q, data)]> (delete key (_CACHE w));
        clock := (clock w + dt)%Q;
        sent := sent w ++ [simple_price_request ids vs_currency];
        slept := slept w |}).
Proof.
  intros ids key Hnil Hmiss Henv Hff. unfold get_simple_price, bind.
  fold ids. fold key. rewrite (_cache_get_miss _ _ _ Hmiss). cbn [Py.is_none negb].
  rewrite Hnil. unfold request_default, _request.
  change (Z.to_nat (default_retries + 1)) with 3%nat. cbn [request_loop]. unfold bind.
  rewrite http_get_eq. cbn [sent set_cache].
  unfold simple_price_request in Henv. rewrite Henv. cbn [fst snd ret lift].
  rewrite Hff. by rewrite _cache_set_eq.
Qed.

(** ** The caps of [get_coin_info] *)

(** A slice keeps as many characters as asked for, or all there are. *)
Lemma length_str_take n s : Str.len (Str.take n s) = Nat.min n (Str.len s).
Proof.
  revert n. induction s as [|c s IH]; intros n; simpl.
  - by rewrite Nat.min_0_r.
  - destruct (Str.is_continuation c) eqn:Hc; simpl; rewrite ?Hc.
    + apply IH.
    + destruct n as [|n]; simpl; [done|]. by rewrite Hc, IH.
Qed.

(** It is a prefix of the string: the cut falls between two characters. *)
Lemma str_take_prefix n s : ∃ rest, s = Str.take n s +:+ rest.
Proof.
  revert n. induction s as [|c s IH]; intros n; simpl.
  - by exists "".
  - destruct (Str.is_continuation c).
    + destruct (IH n) as [rest Hrest]. exists rest.
      change (String c s = String c (Str.take n s +:+ rest)). by rewrite <- Hrest.
    + destruct n as [|n]; [by exists (String c s)|].
      destruct (IH n) as [rest Hrest]. exists rest.
      change (String c s = String c (Str.take n s +:+ rest)). by rewrite <- Hrest.
Qed.

Lemma slice_len_le n len : (0 ≤ n)%Z → (Py.slice_len n len ≤ Z.to_nat n)%nat.
Proof.
  intros Hn. unfold Py.slice_len.
  destruct (Z.leb_spec 0 n); lia.
Qed.

Lemma slice_to_len obj n r :
  (0 ≤ n)%Z → Py.slice_to obj n = Return r → (json_len r ≤ Z.to_nat n)%nat.
Proof.
  intros Hn. pose proof (slice_len_le n) as Hle.
  destruct obj as [| | |s|l|]; simpl; try done; intros [= <-]; simpl.
  - rewrite length_str_take. specialize (Hle (Str.len s) Hn). lia.
  - rewrite length_take. specialize (Hle (length l) Hn). lia.
Qed.

Ltac split_obind H :=
  repeat match type of H with
         | match ?o with Return _ => _ | Raise _ => _ end = _ =>
             let E := fresh "E" in destruct o eqn:E; [|discriminate H]
         end.

Lemma coin_info_record_capped data out :
  coin_info_record data = Return out → capped_record out.
Proof.
  unfold coin_info_record, obind. intros H. split_obind H.
  injection H as <-. eexists _, _, _, _, _. split; [reflexivity|].
  split; eapply slice_to_len; try eassumption; done.
Qed.

Lemma stored_coin_info_inv env id d :
  stored env (coin_info_key id) d → ∃ data, coin_info_record data = Return d.
Proof.
  inversion 1 as [ids vs k dt data _ _ Hkey|id' vs k r dt record rest out _ _ _ Hkey
                 |id' k r dt data out _ _ Hout Hkey
                 |query limit k r dt data found coins _ _ _ _ Hkey];
    try (unfold simple_price_key, market_data_key, search_key, coin_info_key in Hkey;
         simpl in Hkey; discriminate Hkey).
  subst. by exists data.
Qed.

Lemma error_of_marker data r : error_of data = Return r → is_error_marker r.
Proof.
  unfold error_of. destruct (Py.is_dict data).
  - unfold obind. destruct (Py.get data "error" JNull); [|done].
    intros [= <-]. by eexists.
  - intros [= <-]. by eexists.
Qed.

Lemma get_coin_info_result env symbol ttl w :
  cache_inv env w →
  sat (get_coin_info env symbol ttl) w
      (λ o _, ∀ r, o = Return r → is_error_marker r ∨ capped_record r).
Proof.
  intros Hinv. unfold get_coin_info.
  destruct (symbol_to_id symbol) as [id|] eqn:E;
    [|apply sat_ret; intros r [= <-]; left; by eexists].
  rewrite (symbol_to_id_truthy _ _ E). cbn [negb].
  sat_bind_with sat_cache_get. intros cached w1 Hl.
  destruct (Py.truthy cached) eqn:Hacc.
  { apply sat_ret. intros r [= <-]. right.
    destruct Hl as [(-> & _)|(ts & Hk & _)]; [done|].
    destruct (stored_coin_info_inv env id cached (Hinv _ _ _ Hk)) as [data Hrec].
    by eapply coin_info_record_capped. }
  sat_bind_with sat_request_default. intros data w2 Hf.
  sat_bind_with @sat_lift.
  destruct (fetch_failed data) as [[|]|e] eqn:Hff; [| |done].
  - apply sat_lift. intros r Hr. left. by eapply error_of_marker.
  - sat_bind_with @sat_lift.
    destruct (coin_info_record data) as [out|e] eqn:Hrec; [|done].
    sat_bind_with sat_cache_set. apply sat_ret.
    intros r [= <-]. right. by eapply coin_info_record_capped.
Qed.

(** C8. Whatever the provider answers, a record returned by [get_coin_info]
    (freshly fetched or served from the cache) has a description of at most
    800 characters ([len], which counts characters and not bytes) and at most
    3 homepage links; the only other value the call can return is the error
    marker. *)
Theorem get_coin_info_capped env symbol ttl w r :
  reachable env w →
  (get_coin_info env symbol ttl w).1 = Return r →
  is_error_marker r
  ∨ ∃ id sym name description homepage,
      r = JDict [("id", id); ("symbol", sym); ("name", name);
                 ("description", description); ("homepage", homepage)]
      ∧ (json_len description ≤ 800)%nat
      ∧ (json_len homepage ≤ 3)%nat.
Proof.
  intros Hreach Hr.
  exact (get_coin_info_result env symbol ttl w (reachable_cache_inv env w Hreach) r Hr).
Qed.

(** ** Exceptions *)

Lemma dict_comprehension_returns value keys acc :
  (∀ k, k ∈ keys → ∃ v, value k = Return v) →
  ∃ r, dict_comprehension value keys acc = Return r.
Proof.
  revert acc. induction keys as [|k keys IH]; intros acc Hv; simpl; [by eexists|].
  destruct (Hv k) as [v ->]; [left|]. simpl.
  apply IH. intros k' Hk'. apply Hv. by right.
Qed.

Lemma prices_ok_get d id default :
  forallb Py.is_dict (dict_values d) = true →
  Py.is_dict default = true →
  ∃ entry, Py.get (JDict d) id default = Return (JDict entry)
           ∧ (dict_get id d = Some (JDict entry)
              ∨ dict_get id d = None ∧ default = JDict entry).
Proof.
  intros Hall Hdef. simpl. destruct (dict_get id d) as [v|] eqn:E.
  - apply dict_get_values, list_elem_of_In in E.
    rewrite forallb_forall in Hall. specialize (Hall v E).
    destruct v; try done. eexists. eauto.
  - destruct default; try done. eexists. eauto.
Qed.

Lemma served_prices_returns cached vs_currency l :
  prices_ok cached = true →
  ∃ r, served_prices cached vs_currency (resolve l).2 = Return r.
Proof.
  intros Hok. unfold served_prices.
  destruct (dict_comprehension_returns
              (cached_price cached vs_currency (resolve l).2)
              (dict_keys (resolve l).2) []) as [r ->]; [|by eexists].
  intros k Hk. unfold cached_price.
  rewrite (resolve_mapping_key_upper l k Hk).
  apply dict_get_keys in Hk as [cid ->].
  destruct cid as [id|]; [|by eexists].
  destruct (id_truthy (Some id)); [|by eexists].
  destruct cached as [| | | | |d]; try done.
  destruct (prices_ok_get d id (JDict []) Hok eq_refl) as (entry & -> & _).
  simpl. by eexists.
Qed.

Lemma fetched_price_returns d vs_currency cid :
  forallb Py.is_dict (dict_values d) = true →
  ∃ v, fetched_price (JDict d) vs_currency cid = Return v.
Proof.
  intros Hok. unfold fetched_price.
  destruct cid as [id|]; [|by eexists].
  destruct (id_truthy (Some id)); [|by eexists].
  simpl. destruct (dict_get id d) as [v|] eqn:E; simpl; [|by eexists].
  destruct (Py.truthy v); [|by eexists].
  apply dict_get_values, list_elem_of_In in E.
  rewrite forallb_forall in Hok. specialize (Hok v E).
  destruct v as [| | | | |entry]; try done. simpl.
  unfold dict_has. destruct (dict_get vs_currency entry); simpl; by eexists.
Qed.

Lemma project_returns d vs_currency items result :
  forallb Py.is_dict (dict_values d) = true →
  ∃ r, project (JDict d) vs_currency items result = Return r.
Proof.
  intros Hok. revert result.
  induction items as [|[sym cid] items IH]; intros result; simpl; [by eexists|].
  destruct (fetched_price_returns d vs_currency cid Hok) as [v ->]. simpl. apply IH.
Qed.

Lemma get_fields_returns d fields : ∃ out, get_fields (JDict d) fields = Return out.
Proof.
  induction fields as [|f fields [out IH]]; simpl; [by eexists|].
  rewrite IH. simpl. by eexists.
Qed.

Lemma error_of_returns data : ∃ r, error_of data = Return r.
Proof.
  unfold error_of. destruct data; simpl; by eexists.
Qed.

Lemma capped_field_returns (P : json → bool) d key inner default cap :
  opt_field (opt_object (opt_field P inner)) key d = true →
  (∀ v, P v = true → ∃ r, Py.slice_to v cap = Return r) →
  (∃ r, Py.slice_to default cap = Return r) →
  ∃ x y v,
    Py.get (JDict d) key JNull = Return x
    ∧ Py.get (Py.or_else x (JDict [])) inner default = Return y
    ∧ Py.slice_to y cap = Return v.
Proof.
  intros Hok HP [rd Hdef]. unfold opt_field in Hok. cbn [Py.get].
  assert (∃ y v, Py.get (Py.or_else JNull (JDict [])) inner default = Return y
                 ∧ Py.slice_to y cap = Return v) as (y0 & v0 & Hy0 & Hv0)
    by (by eexists _, _).
  destruct (dict_get key d) as [x|]; [|by exists JNull, y0, v0].
  destruct x as [| | | | |dd]; try done; [by exists JNull, y0, v0|].
  simpl in Hok. unfold opt_field in Hok.
  assert (Py.or_else (JDict dd) (JDict []) = JDict dd) as Hor by (by destruct dd).
  exists (JDict dd). rewrite Hor. cbn [Py.get].
  destruct (dict_get inner dd) as [y|]; [|by exists default, rd].
  destruct (HP y Hok) as [r Hr]. by exists y, r.
Qed.

Lemma coin_info_record_returns data :
  info_ok data = true → ∃ out, coin_info_record data = Return out.
Proof.
  destruct data as [| | | | |d]; try done.
  unfold info_ok. intros [Hd Hl]%andb_true_iff.
  destruct (capped_field_returns _ d "description" "en" (JStr "") description_cap Hd)
    as (x & en & desc & Hx & Hen & Hdesc).
  { intros [] ?; try done. by eexists. }
  { by eexists. }
  destruct (capped_field_returns _ d "links" "homepage" (JList []) homepage_cap Hl)
    as (x' & hp & home & Hx' & Hhp & Hhome).
  { intros [] ?; try done. by eexists. }
  { by eexists. }
  unfold coin_info_record.
  change (Py.get (JDict d) "id" JNull) with
    (Return (match dict_get "id" d with Some v => v | None => JNull end)).
  change (Py.get (JDict d) "symbol" JNull) with
    (Return (match dict_get "symbol" d with Some v => v | None => JNull end)).
  change (Py.get (JDict d) "name" JNull) with
    (Return (match dict_get "name" d with Some v => v | None => JNull end)).
  cbn [obind]. rewrite Hx. cbn [obind]. rewrite Hen. cbn [obind]. rewrite Hdesc.
  cbn [obind]. rewrite Hx'. cbn [obind]. rewrite Hhp. cbn [obind]. rewrite Hhome.
  cbn [obind]. by eexists.
Qed.

Lemma search_returns data limit :
  search_ok data = true →
  ∃ found coins, Py.get data "coins" (JList []) = Return found
                 ∧ Py.slice_to found limit = Return coins.
Proof.
  destruct data as [| | | | |d]; try done.
  unfold search_ok, opt_field. simpl.
  destruct (dict_get "coins" d) as [[]|]; try done; intros _; by eexists _, _.
Qed.

Lemma table_id_not_markets id :
  id ∈ dict_values SYMBOL_TO_ID → String.eqb id "markets" = false.
Proof.
  intros H.
  assert (Forall (λ x, String.eqb x "markets" = false) (dict_values SYMBOL_TO_ID)) as HF
    by (repeat constructor).
  rewrite Forall_forall in HF. by apply HF.
Qed.

Lemma body_ok_coin_info id params data :
  id ∈ dict_values SYMBOL_TO_ID →
  body_ok (mkRequest (COINGECKO_BASE +:+ ("/coins/" +:+ id)) params) data = info_ok data.
Proof.
  intros Hid. unfold body_ok.
  change ((if String.eqb id "markets" then markets_ok data else info_ok data)
          = info_ok data).
  by rewrite (table_id_not_markets id Hid).
Qed.

Lemma stored_simple_price_inv env ids vs d :
  well_shaped env → stored env (simple_price_key ids vs) d → prices_ok d = true.
Proof.
  intros Hws.
  inversion 1 as [ids' vs' k dt data Hbody _ Hkey|id' vs' k r dt record rest out _ _ _ Hkey
                 |id' k r dt data out _ _ _ Hkey
                 |query limit k r dt data found coins _ _ _ _ Hkey];
    try (unfold simple_price_key, market_data_key, search_key, coin_info_key in Hkey;
         simpl in Hkey; discriminate Hkey).
  subst. exact (Hws _ _ _ _ Hbody).
Qed.

Lemma fetch_failed_container data :
  Py.is_dict data || Py.is_list data = true → ∃ b, fetch_failed data = Return b.
Proof.
  unfold fetch_failed. destruct data; try done; intros _;
    destruct (negb _); simpl; by eexists.
Qed.

(** What a fetch hands to its caller when the provider is well-shaped. *)
Lemma fetched_shape env r w1 data w2 :
  well_shaped env →
  fetched env r w1 data w2 →
  body_ok r data = true ∨ fetch_failed data = Return true.
Proof.
  intros Hws (_ & _ & [(i & dt & _ & _ & Hbody)|(e & ->)]).
  - left. by eapply Hws.
  - by right.
Qed.

Lemma get_simple_price_returns env symbols vs_currency ttl w :
  well_shaped env → cache_inv env w →
  sat (get_simple_price env symbols vs_currency ttl) w (λ o _, ∃ v, o = Return v).
Proof.
  intros Hws Hinv. unfold get_simple_price.
  set (l := symbols_list_of symbols).
  sat_bind_with sat_cache_get. intros cached w1 Hl.
  destruct (Py.is_none cached) eqn:Hnone; cbn [negb].
  2:{ apply sat_lift. apply served_prices_returns.
      destruct Hl as [(-> & _)|(ts & Hk & _)]; [done|].
      eapply stored_simple_price_inv; [done|]. by eapply Hinv. }
  destruct (is_nil (resolve l).1); [apply sat_ret; by eexists|].
  sat_bind_with sat_request_default. intros data w2 Hf.
  sat_bind_with @sat_lift.
  destruct (fetched_shape _ _ _ _ _ Hws Hf) as [Hok| ->]; [|apply sat_ret; by eexists].
  change (prices_ok data = true) in Hok.
  destruct data as [| | | | |d]; try done.
  destruct (fetch_failed_container (JDict d) eq_refl) as [[|] ->];
    [apply sat_ret; by eexists|].
  sat_bind_with sat_cache_set. apply sat_lift.
  destruct (project_returns d vs_currency (resolve l).2 [] Hok) as [r ->].
  simpl. by eexists.
Qed.

Lemma get_market_data_returns env symbol vs_currency ttl w :
  well_shaped env →
  sat (get_market_data env symbol vs_currency ttl) w (λ o _, ∃ v, o = Return v).
Proof.
  intros Hws. unfold get_market_data.
  destruct (symbol_to_id symbol) as [id|] eqn:E; [|apply sat_ret; by eexists].
  rewrite (symbol_to_id_truthy _ _ E). cbn [negb].
  sat_bind_with sat_cache_get. intros cached w1 Hl.
  destruct (Py.truthy cached); [apply sat_ret; by eexists|].
  sat_bind_with sat_request_default. intros data w2 Hf.
  sat_bind_with @sat_lift.
  destruct (fetched_shape _ _ _ _ _ Hws Hf) as [Hok| ->];
    [|apply sat_lift, error_of_returns].
  change (markets_ok data = true) in Hok.
  destruct data as [| | | |recs|]; try done.
  destruct (fetch_failed_container (JList recs) eq_refl) as [[|] ->];
    [apply sat_lift, error_of_returns|].
  destruct recs as [|record rest]; [apply sat_ret; by eexists|].
  simpl in Hok. apply andb_true_iff in Hok as [Hrec _].
  destruct record as [| | | | |rd]; try done.
  sat_bind_with @sat_lift.
  destruct (get_fields_returns rd market_fields) as [out ->].
  sat_bind_with sat_cache_set. apply sat_ret. by eexists.
Qed.

Lemma get_coin_info_returns env symbol ttl w :
  well_shaped env →
  sat (get_coin_info env symbol ttl) w (λ o _, ∃ v, o = Return v).
Proof.
  intros Hws. unfold get_coin_info.
  destruct (symbol_to_id symbol) as [id|] eqn:E; [|apply sat_ret; by eexists].
  rewrite (symbol_to_id_truthy _ _ E). cbn [negb].
  sat_bind_with sat_cache_get. intros cached w1 Hl.
  destruct (Py.truthy cached); [apply sat_ret; by eexists|].
  sat_bind_with sat_request_default. intros data w2 Hf.
  sat_bind_with @sat_lift.
  destruct (fetched_shape _ _ _ _ _ Hws Hf) as [Hok| ->];
    [|apply sat_lift, error_of_returns].
  rewrite body_ok_coin_info in Hok by (by eapply symbol_to_id_in_table).
  assert (Py.is_dict data = true) as Hdict by (by destruct data).
  destruct (fetch_failed_container data) as [[|] ->];
    [by rewrite Hdict|apply sat_lift, error_of_returns|].
  sat_bind_with @sat_lift.
  destruct (coin_info_record_returns data Hok) as [out ->].
  sat_bind_with sat_cache_set. apply sat_ret. by eexists.
Qed.

Lemma search_coin_returns env query limit w :
  well_shaped env →
  sat (search_coin env query limit) w (λ o _, ∃ v, o = Return v).
Proof.
  intros Hws. unfold search_coin.
  destruct (Str.is_empty query); [apply sat_ret; by eexists|].
  sat_bind_with sat_cache_get. intros cached w1 Hl.
  destruct (Py.truthy cached); [apply sat_ret; by eexists|].
  sat_bind_with sat_request_default. intros data w2 Hf.
  sat_bind_with @sat_lift.
  destruct (fetched_shape _ _ _ _ _ Hws Hf) as [Hok| ->];
    [|apply sat_lift, error_of_returns].
  change (search_ok data = true) in Hok.
  assert (Py.is_dict data = true) as Hdict by (by destruct data).
  destruct (fetch_failed_container data) as [[|] ->];
    [by rewrite Hdict|apply sat_lift, error_of_returns|].
  destruct (search_returns data limit Hok) as (found & coins & Hfound & Hcoins).
  sat_bind_with @sat_lift. rewrite Hfound.
  sat_bind_with @sat_lift. rewrite Hcoins.
  sat_bind_with sat_cache_set. apply sat_ret. by eexists.
Qed.

(** With a provider whose every attempt either fails with a requests error
    or gets a body of the shape its endpoint documents, no public operation
    raises to its caller, for any string arguments and from any reachable
    world. *)
Theorem no_exception_escapes env c w :
  well_shaped env →
  reachable env w →
  ∃ v, (run env c w).1 = Return v.
Proof.
  intros Hws Hreach. pose proof (reachable_cache_inv env w Hreach) as Hinv.
  destruct c as [s|symbols vs ttl|symbols vs ttl|symbol vs ttl|symbol ttl|query limit]; simpl.
  - by eexists.
  - by apply get_simple_price_returns.
  - by apply (get_simple_price_returns env (SymbolsList symbols)).
  - by apply get_market_data_returns.
  - by apply get_coin_info_returns.
  - by apply search_coin_returns.
Qed.

Lemma no_exception_escapes_witness :
  ∃ v, (run provider_prices
          (Call_get_simple_price (SymbolsList ["BTC"; "NOPE"]) "usd" DEFAULT_TTL)
          (initial_world 0)).1 = Return v.
Proof.
  apply (no_exception_escapes provider_prices
           (Call_get_simple_price (SymbolsList ["BTC"; "NOPE"]) "usd" DEFAULT_TTL)
           (initial_world 0)).
  - intros k r data dt. unfold provider_prices, body_ok.
    destruct (String.eqb (req_url r) (COINGECKO_BASE +:+ "/simple/price"));
      [|discriminate].
    intros [= <- _]. reflexivity.
  - apply reachable_start.
Defined.

(** C5 does not hold of the code: [get_coin_info("BTC")], when the body the
    provider serves has the description [{"en": null}], raises a [TypeError]
    to its caller (the slice [None[:800]]) instead of encoding the failure in
    the value it returns. *)
Lemma get_coin_info_raises :
  (run provider_null_description (Call_get_coin_info "BTC" DEFAULT_TTL)
       (initial_world 0)).1 = Raise TypeError.
Proof. vm_compute. reflexivity. Qed.

(** The guards next to it, [or {}] and the default [""], do cover a
    description that is [null] and one without an ["en"] entry: both give
    the empty description. *)
Example coin_info_record_guards :
  coin_info_record (JDict [("id", JStr "bitcoin"); ("description", JNull)])
  = Return (JDict [("id", JStr "bitcoin"); ("symbol", JNull); ("name", JNull);
                   ("description", JStr ""); ("homepage", JList [])])
  ∧ coin_info_record (JDict [("id", JStr "bitcoin"); ("description", JDict [])])
    = Return (JDict [("id", JStr "bitcoin"); ("symbol", JNull); ("name", JNull);
                     ("description", JStr ""); ("homepage", JList [])])
  ∧ coin_info_record (JDict [("id", JStr "bitcoin");
                             ("description", JDict [("en", JNull)])])
    = Raise TypeError.
Proof. repeat split; vm_compute; reflexivity. Qed.

(** The cut of the sample description: 800 characters, which are 873
    bytes, out of 1100 characters. *)
Example long_text_cut :
  Str.len long_text = 1100%nat
  ∧ Str.len (Str.take 800 long_text) = 800%nat
  ∧ String.length (Str.take 800 long_text) = 873%nat.
Proof. vm_compute. done. Qed.

Lemma get_coin_info_capped_witness :
  let r := JDict [("id", JStr "bitcoin"); ("symbol", JStr "btc"); ("name", JStr "Bitcoin");
                  ("description", JStr (Str.take 800 long_text));
                  ("homepage", JList [JStr "a"; JStr "b"; JStr "c"])] in
  is_error_marker r
  ∨ ∃ id sym name description homepage,
      r = JDict [("id", id); ("symbol", sym); ("name", name);
                 ("description", description); ("homepage", homepage)]
      ∧ (json_len description ≤ 800)%nat
      ∧ (json_len homepage ≤ 3)%nat.
Proof.
  apply (get_coin_info_capped provider_verbose "BTC" DEFAULT_TTL (initial_world 0)).
  - apply reachable_start.
  - vm_compute. reflexivity.
Defined.

(** ** The keys of the returned prices *)

Lemma dict_get_of_elem {V} (d : list (string * V)) k v :
  NoDup (dict_keys d) → (k, v) ∈ d → dict_get k d = Some v.
Proof.
  induction d as [|[k' v'] d IH]; simpl; [by intros _ ?%elem_of_nil|].
  intros [Hk' Hnd]%NoDup_cons [[= -> ->]|Hin]%elem_of_cons.
  - by rewrite String.eqb_refl.
  - destruct (String.eqb_spec k k') as [->|]; [|by apply IH].
    destruct Hk'. apply list_elem_of_In, (List.in_map fst) in Hin.
    by apply list_elem_of_In.
Qed.







(** C2 at [get_simple_price(["btc"])] and [get_simple_price(["BTC", "btc"])]:
    the entry is keyed by the upper-cased symbol, not by the symbol as the
    caller passed it, and the two spellings share one entry. *)
Theorem get_simple_price_keys_upper_cased :
  (get_simple_price provider_btc (SymbolsList ["btc"]) "usd" DEFAULT_TTL
     (initial_world 0)).1 = Return (JDict [("BTC", JNum 5)])
  ∧ dict_get "btc" [("BTC", JNum 5)] = None
  ∧ (get_simple_price provider_btc (SymbolsList ["BTC"; "btc"]) "usd" DEFAULT_TTL
       (initial_world 0)).1 = Return (JDict [("BTC", JNum 5)]).
Proof. repeat split; vm_compute; reflexivity. Qed.

(** ** Prices served from the cache *)






(** The answer of that second call, computed. *)
Example priced_world_answer :
  get_simple_price provider_btc (SymbolsList ["BTC"]) "usd" DEFAULT_TTL priced_world
  = (Return (JDict [("BTC", JNum 5)]), priced_world).
Proof. vm_compute. reflexivity. Qed.

(** * Further properties of coin_gecko.py *)

(** ** The cache: store, then read *)

(** X1. [_cache_set] followed, after a pause of at most [ttl], by [_cache_get]
    on the same key gives back the stored value, whatever the key held
    before, and leaves the world alone; the store does not touch any other
    key. *)
Theorem cache_set_then_get key value ttl pause w :
  (pause <= ttl)%Q →
  let w1 := wait pause (_cache_set key value w).2 in
  _cache_get key ttl w1 = (Return value, w1)
  ∧ ∀ key', key' ≠ key → _CACHE w1 !! key' = _CACHE w !! key'.
Proof.
  intros Hp w1. split.
  - apply (_cache_get_hit key ttl w1 (clock w) value).
    + subst w1. simpl. apply lookup_insert_eq.
    + unfold fresh. subst w1. simpl. rewrite lookup_insert_eq.
      apply negb_true_iff, Qgtb_false. lra.
  - intros key' Hne. subst w1. simpl. by apply lookup_insert_ne.
Qed.

Lemma cache_set_then_get_witness :
  let w1 := wait 30 (_cache_set "search:btc:5" (JDict [("coins", JList [])])
                       stale_world).2 in
  _cache_get "search:btc:5" DEFAULT_TTL w1 = (Return (JDict [("coins", JList [])]), w1)
  ∧ ∀ key', key' ≠ "search:btc:5" → _CACHE w1 !! key' = _CACHE stale_world !! key'.
Proof.
  apply (cache_set_then_get "search:btc:5" (JDict [("coins", JList [])]) DEFAULT_TTL
           30%Q stale_world).
  vm_compute. discriminate.
Defined.

(** ** The request loop in general *)

Lemma request_loop_first_success env r retries backoff :
  (0 <= backoff)%Q →
  ∀ i todo attempt w data dt,
    (0 ≤ attempt)%Z →
    (attempt + Z.of_nat i ≤ retries)%Z →
    (backoff * inject_Z (attempt + Z.of_nat i) <= sleep_max)%Q →
    (i < todo)%nat →
    fails_at env r (length (sent w)) i →
    env (length (sent w) + i)%nat r = (Body data, dt) →
    ∃ w',
      request_loop env r retries backoff todo attempt w = (Return data, w')
      ∧ _CACHE w' = _CACHE w
      ∧ sent w' = sent w ++ replicate (S i) r
      ∧ slept w' = slept w ++
          ((λ a, backoff * inject_Z (a + 1))%Q <$> seqZ attempt (Z.of_nat i)).
Proof.
  intros Hb i.
  induction i as [|i IH]; intros todo attempt w data dt Ha Hle Hmax Hlt Hfail Hok.
  - destruct todo as [|todo]; [lia|]. rewrite Nat.add_0_r in Hok.
    simpl. unfold bind. rewrite http_get_eq, Hok. simpl.
    eexists. split; [reflexivity|]. simpl. by rewrite app_nil_r.
  - destruct todo as [|todo]; [lia|].
    destruct (Hfail 0%nat) as (e & dt' & He); [lia|]. rewrite Nat.add_0_r in He.
    simpl. unfold bind. rewrite http_get_eq, He. simpl.
    destruct (Z.eqb_spec attempt retries) as [->|Hneq]; [lia|].
    destruct (backoff_within backoff _ attempt Hb Hmax) as [Hd0 Hd1]; [lia..|].
    rewrite (sleep_within _ _ Hd0 Hd1).
    match goal with
    | |- ∃ w', request_loop _ _ _ _ _ _ ?w1 = _ ∧ _ =>
        destruct (IH todo (attempt + 1)%Z w1 data dt) as (w' & Hrun & Hc & Hs & Hsl)
    end.
    + lia.
    + lia.
    + by replace (attempt + 1 + Z.of_nat i)%Z with (attempt + Z.of_nat (S i))%Z by lia.
    + lia.
    + simpl. rewrite length_app. simpl.
      replace (length (sent w) + 1)%nat with (S (length (sent w))) by lia.
      by apply fails_at_tail.
    + simpl. rewrite length_app. simpl.
      replace (length (sent w) + 1 + i)%nat with (length (sent w) + S i)%nat by lia.
      exact Hok.
    + exists w'. split; [exact Hrun|]. rewrite Hc, Hs, Hsl. simpl.
      split; [done|]. split.
      * by rewrite <- app_assoc.
      * rewrite <- app_assoc. f_equal.
        rewrite (seqZ_cons attempt) by lia. simpl. do 3 f_equal; lia.
Qed.

(** X2. [_request] stops at the first attempt that succeeds: when the first
    [i] attempts fail ([i <= retries]) and the next one gets a body, the
    call returns that body after exactly [i + 1] attempts, having slept
    [backoff * 1], ..., [backoff * i], and without touching the cache.  The
    backoff is non-negative and its longest sleep, [backoff * i], is one
    [time.sleep] accepts (at most [sleep_max], about 9.2e9 seconds). *)
Theorem _request_first_success env path params retries backoff w i data dt :
  (0 <= backoff)%Q →
  (backoff * inject_Z (Z.of_nat i) <= sleep_max)%Q →
  (Z.of_nat i ≤ retries)%Z →
  let r := mkRequest (COINGECKO_BASE +:+ path) params in
  fails_at env r (length (sent w)) i →
  env (length (sent w) + i)%nat r = (Body data, dt) →
  ∃ w',
    _request env path params retries backoff w = (Return data, w')
    ∧ _CACHE w' = _CACHE w
    ∧ sent w' = sent w ++ replicate (S i) r
    ∧ slept w' = slept w ++ backoff_delays (Z.of_nat i) backoff.
Proof.
  intros Hb Hmax Hi r Hfail Hok. unfold _request.
  apply (request_loop_first_success env r retries backoff Hb i
           (Z.to_nat (retries + 1)) 0%Z w data dt); [lia|lia|done|lia|done|done].
Qed.

Lemma _request_first_success_witness :
  ∃ w',
    _request provider_flaky "/simple/price" [] 2 (8 # 10) (initial_world 0)
      = (Return (JDict [("bitcoin", JDict [("usd", JNum 5)])]), w')
    ∧ _CACHE w' = _CACHE (initial_world 0)
    ∧ sent w' = sent (initial_world 0) ++
                replicate 2 (mkRequest (COINGECKO_BASE +:+ "/simple/price") [])
    ∧ slept w' = slept (initial_world 0) ++ backoff_delays (Z.of_nat 1) (8 # 10).
Proof.
  apply (_request_first_success provider_flaky "/simple/price" [] 2 (8 # 10)
           (initial_world 0) 1 (JDict [("bitcoin", JDict [("usd", JNum 5)])]) 1%Q).
  - discriminate.
  - vm_compute. discriminate.
  - simpl. lia.
  - intros i Hi. assert (i = 0%nat) as -> by lia. by eexists _, _.
  - reflexivity.
Defined.

(** With a backoff beyond that range the first failed attempt that is not
    the last ends the call with an [OverflowError]. *)
Lemma _request_overflow :
  (_request provider_down "/search" [] 2 10000000000 (initial_world 0)).1
  = Raise OverflowError.
Proof. vm_compute. reflexivity. Qed.

(** X3. For any [retries] and a non-negative [backoff] whose longest sleep,
    [backoff * retries], is one [time.sleep] accepts (at most [sleep_max],
    about 9.2e9 seconds), [_request] does not raise and never touches the
    cache. It makes at most [retries + 1] attempts, all of the same request:
    none when [retries] is negative, and then it returns [None]; at least
    one otherwise, and then it returns the body served to its first attempt
    that did not fail or, when all [retries + 1] attempts failed, the error
    marker [{"error": ...}]. *)
Theorem _request_effect env path params retries backoff w :
  (0 <= backoff)%Q →
  (backoff * inject_Z retries <= sleep_max)%Q →
  let r := mkRequest (COINGECKO_BASE +:+ path) params in
  ∃ n data w',
    _request env path params retries backoff w = (Return data, w')
    ∧ _CACHE w' = _CACHE w
    ∧ sent w' = sent w ++ replicate n r
    ∧ (n ≤ Z.to_nat (retries + 1))%nat
    ∧ (((retries < 0)%Z ∧ n = 0%nat ∧ data = JNull ∧ w' = w)
       ∨ ((0 ≤ retries)%Z ∧ (1 ≤ n)%nat
          ∧ ((∃ dt, fails_at env r (length (sent w)) (n - 1)
                    ∧ env (length (sent w) + (n - 1))%nat r = (Body data, dt))
             ∨ (∃ e, data = error_dict (JStr e) ∧ n = Z.to_nat (retries + 1)
                     ∧ fails_at env r (length (sent w)) n)))).
Proof.
  intros Hb Hmax r. unfold _request. fold r.
  destruct (Z.to_nat (retries + 1)) as [|todo] eqn:Htodo.
  - exists 0%nat, JNull, w. simpl. rewrite app_nil_r.
    split; [done|]. split; [done|]. split; [done|]. split; [done|].
    left. split; [lia|done].
  - destruct (request_loop_effect env r retries backoff Hb Hmax (S todo) 0%Z w)
      as (n & data & w' & Hrun & Hc & Hs & Hn & Hd); [lia|lia|done|].
    exists n, data, w'. split; [done|]. split; [done|]. split; [done|].
    split; [lia|]. right. split; [lia|]. split; [lia|].
    destruct Hd as [(i & dt & -> & Hfail & Hbody)|(e & -> & -> & Hfail)].
    + left. exists dt. by replace (S i - 1)%nat with i by lia.
    + right. by exists e.
Qed.

Lemma _request_effect_witness :
  ∃ n data w',
    _request provider_flaky "/search" [] 2 (8 # 10) (initial_world 0) = (Return data, w')
    ∧ _CACHE w' = _CACHE (initial_world 0)
    ∧ sent w' = sent (initial_world 0) ++
                replicate n (mkRequest (COINGECKO_BASE +:+ "/search") [])
    ∧ (n ≤ Z.to_nat (2 + 1))%nat
    ∧ (((2 < 0)%Z ∧ n = 0%nat ∧ data = JNull ∧ w' = initial_world 0)
       ∨ ((0 ≤ 2)%Z ∧ (1 ≤ n)%nat
          ∧ ((∃ dt, fails_at provider_flaky (mkRequest (COINGECKO_BASE +:+ "/search") [])
                      (length (sent (initial_world 0))) (n - 1)
                    ∧ provider_flaky (length (sent (initial_world 0)) + (n - 1))%nat
                        (mkRequest (COINGECKO_BASE +:+ "/search") [])
                      = (Body data, dt))
             ∨ (∃ e, data = error_dict (JStr e) ∧ n = Z.to_nat (2 + 1)
                     ∧ fails_at provider_flaky
                         (mkRequest (COINGECKO_BASE +:+ "/search") [])
                         (length (sent (initial_world 0))) n)))).
Proof.
  apply (_request_effect provider_flaky "/search" [] 2 (8 # 10) (initial_world 0)).
  - discriminate.
  - vm_compute. discriminate.
Defined.

(** ** More on [symbol_to_id] *)

(** X4. Whatever [symbol_to_id] returns is an identifier of the table, and
    resolving that identifier again gives the identifier itself. *)
Theorem symbol_to_id_idempotent s id :
  symbol_to_id s = Some id →
  id ∈ dict_values SYMBOL_TO_ID ∧ symbol_to_id id = Some id.
Proof.
  intros H%symbol_to_id_in_table. split; [done|].
  assert (Forall (λ x, symbol_to_id x = Some x) (dict_values SYMBOL_TO_ID)) as HF
    by (repeat constructor).
  rewrite Forall_forall in HF. by apply HF.
Qed.

Lemma symbol_to_id_idempotent_witness :
  "matic-network" ∈ dict_values SYMBOL_TO_ID
  ∧ symbol_to_id "matic-network" = Some "matic-network".
Proof. apply (symbol_to_id_idempotent " Matic "). reflexivity. Defined.

Lemma upper_lower_char c : Str.upper_char (Str.lower_char c) = Str.upper_char c.
Proof. by destruct c as [[] [] [] [] [] [] [] []]. Qed.

Lemma upper_lower s : Str.upper (Str.lower s) = Str.upper s.
Proof.
  induction s as [|c s IH]; [done|].
  unfold Str.upper, Str.lower in *. simpl. by rewrite upper_lower_char, IH.
Qed.

Lemma lstrip_idem s : Str.lstrip (Str.lstrip s) = Str.lstrip s.
Proof.
  induction s as [|c s IH]; [done|]. simpl.
  destruct (Str.is_space c) eqn:E; [done|]. simpl. by rewrite E.
Qed.

Lemma rstrip_idem s : Str.rstrip (Str.rstrip s) = Str.rstrip s.
Proof.
  induction s as [|c s IH]; [done|]. simpl.
  destruct (Str.is_space c && Str.is_empty (Str.rstrip s)) eqn:E; [done|].
  simpl. by rewrite IH, E.
Qed.

(** Stripping on the right does not bring white space to the front. *)
Lemma lstrip_rstrip s : Str.lstrip s = s → Str.lstrip (Str.rstrip s) = Str.rstrip s.
Proof.
  destruct s as [|c s]; [done|]. simpl.
  destruct (Str.is_space c) eqn:E.
  - intros H. exfalso.
    assert (∀ t, String.length (Str.lstrip t) ≤ String.length t)%nat as Hlen.
    { induction t as [|a t IHt]; simpl; [done|]. destruct (Str.is_space a); simpl; lia. }
    specialize (Hlen s). rewrite H in Hlen. simpl in Hlen. lia.
  - intros _. simpl. by rewrite E.
Qed.

Lemma strip_idem s : Str.strip (Str.strip s) = Str.strip s.
Proof.
  unfold Str.strip.
  rewrite (lstrip_rstrip (Str.lstrip s) (lstrip_idem s)). apply rstrip_idem.
Qed.

Lemma symbol_to_id_strip s : symbol_to_id (Str.strip s) = symbol_to_id s.
Proof.
  unfold symbol_to_id. rewrite strip_idem.
  destruct (Str.is_empty s) eqn:Es.
  - apply is_empty_true in Es as ->. done.
  - destruct (Str.is_empty (Str.strip s)) eqn:E; [|done].
    apply is_empty_true in E. by rewrite E.
Qed.

(** X5. [symbol_to_id] ignores letter case and surrounding white space: the
    input, its stripped upper-case form and its stripped lower-case form all
    resolve alike. *)
Theorem symbol_to_id_normalises s :
  symbol_to_id s = symbol_to_id (Str.upper (Str.strip s))
  ∧ symbol_to_id s = symbol_to_id (Str.lower (Str.strip s)).
Proof.
  rewrite <- (symbol_to_id_strip s). split.
  - symmetry. apply symbol_to_id_upper_self.
  - apply symbol_to_id_upper. by rewrite upper_lower.
Qed.

(** ** Calls that never reach the network *)

Lemma dict_set_fresh {V} k (v : V) d :
  k ∉ dict_keys d → dict_set k v d = d ++ [(k, v)].
Proof.
  induction d as [|[k' v'] d IH]; simpl; [done|].
  rewrite not_elem_of_cons. intros [Hne Hk].
  apply String.eqb_neq in Hne as ->. by rewrite IH.
Qed.

Lemma dict_comprehension_all_none value keys :
  (∀ k, k ∈ keys → value k = Return JNull) →
  NoDup keys →
  ∀ acc, (∀ k, k ∈ keys → k ∉ dict_keys acc) →
         dict_comprehension value keys acc
         = Return (acc ++ List.map (λ k, (k, JNull)) keys).
Proof.
  intros Hv Hnd. induction Hnd as [|k keys Hk Hnd IH]; intros acc Hacc; simpl.
  - by rewrite app_nil_r.
  - rewrite Hv by left. simpl.
    rewrite (dict_set_fresh k JNull acc) by (apply Hacc; left).
    rewrite IH.
    + by rewrite <- app_assoc.
    + intros k' Hk'. apply Hv. by right.
    + intros k' Hk'. unfold dict_keys. rewrite List.map_app. simpl.
      rewrite elem_of_app, list_elem_of_singleton. intros [Hin| ->]; [|done].
      apply (Hacc k'); [by right|done].
Qed.

Lemma omap_all_none {A B} (f : A → option B) (l : list A) :
  (∀ x, x ∈ l → f x = None) → omap f l = [].
Proof.
  induction l as [|x l IH]; [done|]. intros H. simpl.
  rewrite (H x) by left. apply IH. intros y Hy. apply H. by right.
Qed.

(** X7. When no requested symbol resolves, [get_simple_price] answers [None]
    for every symbol without raising, without sending any request and without
    sleeping, in any world and whatever the provider would say. *)
Theorem get_simple_price_nothing_resolves env symbols vs_currency ttl w :
  (∀ sym, sym ∈ symbols_list_of symbols → symbol_to_id sym = None) →
  ∃ w',
    get_simple_price env symbols vs_currency ttl w
      = (Return (all_none (resolve (symbols_list_of symbols)).2), w')
    ∧ sent w' = sent w ∧ slept w' = slept w.
Proof.
  intros Hnone. set (l := symbols_list_of symbols) in *.
  destruct (resolve_mapping l) as (Hnd & Hkeys & Hval).
  assert ((resolve l).1 = []) as Hids.
  { rewrite resolve_ids. by apply omap_all_none. }
  assert (∀ cached, served_prices cached vs_currency (resolve l).2
                    = Return (all_none (resolve l).2)) as Hserved.
  { intros cached. unfold served_prices.
    rewrite (dict_comprehension_all_none _ _ ) with (acc := []); [done| |done|].
    - intros k Hk. unfold cached_price.
      rewrite (resolve_mapping_key_upper l k Hk).
      pose proof Hk as Hk'. apply dict_get_keys in Hk' as [cid Hcid]. rewrite Hcid.
      rewrite (Hval _ _ Hcid).
      apply Hkeys in Hk as (sym & Hsym & ->).
      by rewrite symbol_to_id_upper_self, (Hnone sym Hsym).
    - intros k _. simpl. apply not_elem_of_nil. }
  unfold get_simple_price, bind. fold l.
  destruct (fresh w (simple_price_key (resolve l).1 vs_currency) ttl) eqn:Hf.
  - unfold fresh in Hf.
    destruct (_CACHE w !! simple_price_key (resolve l).1 vs_currency)
      as [[ts d]|] eqn:Hk; [|done].
    rewrite (_cache_get_hit _ ttl w ts d Hk) by (unfold fresh; by rewrite Hk).
    exists w. destruct (Py.is_none d); cbn [negb].
    + by rewrite Hids.
    + unfold lift. unfold served_prices in Hserved. by rewrite Hserved.
  - rewrite (_cache_get_miss _ _ _ Hf). cbn [Py.is_none negb]. rewrite Hids.
    eexists. split; [reflexivity|]. done.
Qed.

Lemma get_simple_price_nothing_resolves_witness :
  ∃ w',
    get_simple_price provider_btc (SymbolsStr "nope, xyz") "usd" DEFAULT_TTL stale_world
      = (Return (all_none (resolve ["nope"; "xyz"]).2), w')
    ∧ sent w' = sent stale_world ∧ slept w' = slept stale_world.
Proof.
  apply (get_simple_price_nothing_resolves provider_btc (SymbolsStr "nope, xyz") "usd"
           DEFAULT_TTL stale_world).
  intros sym Hsym. change (sym ∈ ["nope"; "xyz"]) in Hsym.
  rewrite !elem_of_cons, elem_of_nil in Hsym.
  destruct Hsym as [->|[->|[]]]; reflexivity.
Defined.

(** An unknown symbol and an empty search query are answered on the spot:
    [get_market_data], [get_coin_info] and [search_coin] return the error
    marker and leave the world untouched, so the cache is not read and the
    provider is not contacted. *)
Lemma unknown_input_short_circuits env c w :
  cache_read c = None →
  (run env c w).2 = w
  ∧ (match c with Call_symbol_to_id _ => False | _ => True end →
     ∃ e, (run env c w).1 = Return (error_dict e)).
Proof.
  destruct c as [s|symbols vs ttl|symbols vs ttl|symbol vs ttl|symbol ttl|query limit];
    simpl; try done.
  - unfold get_market_data. destruct (symbol_to_id symbol); [done|].
    intros _. split; [done|]. by eexists.
  - unfold get_coin_info. destruct (symbol_to_id symbol); [done|].
    intros _. split; [done|]. by eexists.
  - unfold search_coin. destruct (Str.is_empty query); [|done].
    intros _. split; [done|]. by eexists.
Qed.

(** ** The record of [get_market_data] *)

Lemma get_fields_keys record fields out :
  get_fields record fields = Return out → dict_keys out = fields.
Proof.
  revert out. induction fields as [|f fields IH]; intros out; simpl.
  - by intros [= <-].
  - unfold obind. destruct (Py.get record f JNull); [|done].
    destruct (get_fields record fields) as [rest|]; [|done].
    intros [= <-]. simpl. f_equal. by apply IH.
Qed.

Lemma stored_market_data_inv env id vs d :
  stored env (market_data_key id vs) d →
  ∃ record out, d = JDict out ∧ get_fields record market_fields = Return out.
Proof.
  inversion 1 as [ids vs' k dt data _ _ Hkey|id' vs' k r dt record rest out _ _ Hout Hkey
                 |id' k r dt data out _ _ _ Hkey
                 |query limit k r dt data found coins _ _ _ _ Hkey];
    try (unfold simple_price_key, market_data_key, search_key, coin_info_key in Hkey;
         simpl in Hkey; discriminate Hkey).
  subst. by exists record, out.
Qed.

Lemma get_market_data_result env symbol vs_currency ttl w :
  cache_inv env w →
  sat (get_market_data env symbol vs_currency ttl) w
      (λ o _, ∀ r, o = Return r → is_error_marker r ∨ market_record r).
Proof.
  intros Hinv. unfold get_market_data.
  destruct (symbol_to_id symbol) as [id|] eqn:E;
    [|apply sat_ret; intros r [= <-]; left; by eexists].
  rewrite (symbol_to_id_truthy _ _ E). cbn [negb].
  sat_bind_with sat_cache_get. intros cached w1 Hl.
  destruct (Py.truthy cached) eqn:Hacc.
  { apply sat_ret. intros r [= <-]. right.
    destruct Hl as [(-> & _)|(ts & Hk & _)]; [done|].
    destruct (stored_market_data_inv env id vs_currency cached (Hinv _ _ _ Hk))
      as (record & out & -> & Hout).
    exists out. split; [done|]. by eapply get_fields_keys. }
  sat_bind_with sat_request_default. intros data w2 Hf.
  sat_bind_with @sat_lift.
  destruct (fetch_failed data) as [[|]|e] eqn:Hff; [| |done].
  - apply sat_lift. intros r Hr. left. by eapply error_of_marker.
  - destruct data as [| | | |[|record rest]|];
      try (apply sat_ret; intros r [= <-]; left; by eexists).
    sat_bind_with @sat_lift.
    destruct (get_fields record market_fields) as [out|e] eqn:Hout; [|done].
    sat_bind_with sat_cache_set. apply sat_ret.
    intros r [= <-]. right. exists out. split; [done|]. by eapply get_fields_keys.
Qed.

(** X8. In a reachable world, whatever the provider answers, a value returned
    by [get_market_data] (freshly fetched or served from the cache) is either
    the error marker or a dict with exactly the seven keys [id], [symbol],
    [name], [current_price], [market_cap], [price_change_percentage_24h] and
    [total_volume], in that order. *)
Theorem get_market_data_fixed_fields env symbol vs_currency ttl w r :
  reachable env w →
  (get_market_data env symbol vs_currency ttl w).1 = Return r →
  is_error_marker r
  ∨ ∃ out, r = JDict out
           ∧ dict_keys out = ["id"; "symbol"; "name"; "current_price"; "market_cap";
                              "price_change_percentage_24h"; "total_volume"].
Proof.
  intros Hreach Hr.
  exact (get_market_data_result env symbol vs_currency ttl w
           (reachable_cache_inv env w Hreach) r Hr).
Qed.

Lemma get_market_data_fixed_fields_witness :
  let r := JDict [("id", JStr "bitcoin"); ("symbol", JStr "btc"); ("name", JStr "Bitcoin");
                  ("current_price", JNull); ("market_cap", JNull);
                  ("price_change_percentage_24h", JNull); ("total_volume", JNull)] in
  is_error_marker r
  ∨ ∃ out, r = JDict out
           ∧ dict_keys out = ["id"; "symbol"; "name"; "current_price"; "market_cap";
                              "price_change_percentage_24h"; "total_volume"].
Proof.
  apply (get_market_data_fixed_fields provider_markets "BTC" "usd" DEFAULT_TTL
           (initial_world 0)).
  - apply reachable_start.
  - vm_compute. reflexivity.
Defined.

(** ** Answers taken from the cache *)

(** X9. In a reachable world, [get_market_data], [get_coin_info] and
    [search_coin] hand back the very value the cache holds under their key
    while that entry is valid ([now - ts <= ttl]), and leave the world
    untouched: no request is sent and the entry keeps its time stamp. *)
Theorem cached_value_returned env c key ttl ts d w :
  reachable env w →
  returns_cached c = true →
  cache_read c = Some (key, ttl) →
  _CACHE w !! key = Some (ts, d) →
  (clock w - ts <= ttl)%Q →
  run env c w = (Return d, w).
Proof.
  intros Hreach Hc Hread Hk Hle.
  pose proof (stored_truthy _ _ _ (reachable_cache_inv env w Hreach _ _ _ Hk)) as Ht.
  assert (fresh w key ttl = true) as Hfresh.
  { unfold fresh. rewrite Hk. by apply negb_true_iff, Qgtb_false. }
  destruct c as [s|symbols vs ttl'|symbols vs ttl'|symbol vs ttl'|symbol ttl'|query limit];
    try done; simpl in Hread |- *.
  - unfold get_market_data.
    destruct (symbol_to_id symbol) as [id|] eqn:E; [|done]. simpl in Hread.
    injection Hread as <- <-.
    rewrite (symbol_to_id_truthy _ _ E). cbn [negb]. unfold bind.
    rewrite (_cache_get_hit _ _ w ts d Hk Hfresh). by rewrite Ht.
  - unfold get_coin_info.
    destruct (symbol_to_id symbol) as [id|] eqn:E; [|done]. simpl in Hread.
    injection Hread as <- <-.
    rewrite (symbol_to_id_truthy _ _ E). cbn [negb]. unfold bind.
    rewrite (_cache_get_hit _ _ w ts d Hk Hfresh). by rewrite Ht.
  - unfold search_coin.
    destruct (Str.is_empty query); [done|]. injection Hread as <- <-. unfold bind.
    rewrite (_cache_get_hit _ _ w ts d Hk Hfresh). by rewrite Ht.
Qed.

Lemma cached_value_returned_witness :
  let record := JDict [("id", JStr "bitcoin"); ("symbol", JStr "btc");
                       ("name", JStr "Bitcoin"); ("current_price", JNull);
                       ("market_cap", JNull); ("price_change_percentage_24h", JNull);
                       ("total_volume", JNull)] in
  run provider_markets (Call_get_market_data " btc" "usd" DEFAULT_TTL) market_world
  = (Return record, market_world).
Proof.
  apply (cached_value_returned provider_markets
           (Call_get_market_data " btc" "usd" DEFAULT_TTL)
           "market_data:bitcoin:usd" DEFAULT_TTL 1%Q _ market_world).
  - apply reachable_call, reachable_start.
  - reflexivity.
  - reflexivity.
  - vm_compute. reflexivity.
  - vm_compute. discriminate.
Defined.

(** ** The limit of [search_coin] *)

Lemma uint_no_colon d : has_colon (DecimalString.NilEmpty.string_of_uint d) = false.
Proof. unfold has_colon. induction d; simpl; done. Qed.

Lemma of_Z_no_colon z : has_colon (Str.of_Z z) = false.
Proof.
  unfold Str.of_Z, DecimalString.NilZero.string_of_int,
    DecimalString.NilZero.string_of_uint.
  destruct (Z.to_int z) as [d|d]; destruct d; try done;
    try apply (uint_no_colon (Decimal.D0 _));
    try apply (uint_no_colon (Decimal.D1 _));
    try apply (uint_no_colon (Decimal.D2 _));
    try apply (uint_no_colon (Decimal.D3 _));
    try apply (uint_no_colon (Decimal.D4 _));
    try apply (uint_no_colon (Decimal.D5 _));
    try apply (uint_no_colon (Decimal.D6 _));
    try apply (uint_no_colon (Decimal.D7 _));
    try apply (uint_no_colon (Decimal.D8 _));
    try apply (uint_no_colon (Decimal.D9 _)).
Qed.

Lemma of_Z_inj a b : Str.of_Z a = Str.of_Z b → a = b.
Proof.
  unfold Str.of_Z. intros H.
  assert (∀ z, DecimalString.NilZero.int_of_string
                 (DecimalString.NilZero.string_of_int (Z.to_int z))
               = Some (Z.to_int z)) as Hisi.
  { intros z. apply DecimalString.NilZero.isi; destruct z; simpl; try done;
      intros [= Hp]; by apply DecimalPos.Unsigned.to_uint_nonnil in Hp. }
  apply DecimalZ.to_int_inj.
  pose proof (Hisi a) as Ha. rewrite H, Hisi in Ha. by injection Ha.
Qed.

Lemma has_colon_app_colon b y : has_colon (b +:+ (":" +:+ y)) = true.
Proof.
  unfold has_colon. induction b as [|c b IH]; [done|].
  change (String c b +:+ (":" +:+ y)) with (String c (b +:+ (":" +:+ y))).
  simpl. rewrite IH. apply orb_true_r.
Qed.

(** The text after the last colon of a key decides the key's last field. *)
Lemma colon_suffix_inj a b x y :
  has_colon x = false → has_colon y = false →
  a +:+ (":" +:+ x) = b +:+ (":" +:+ y) → x = y.
Proof.
  intros Hx Hy. revert b. induction a as [|c a IH]; intros [|c' b].
  - change (String ":" x = String ":" y → x = y). intros [= H]. exact H.
  - change (String ":" x = String c' (b +:+ (":" +:+ y)) → x = y).
    intros [= _ ->]. by rewrite has_colon_app_colon in Hx.
  - change (String c (a +:+ (":" +:+ x)) = String ":" y → x = y).
    intros [= _ <-]. by rewrite has_colon_app_colon in Hy.
  - change (String c (a +:+ (":" +:+ x)) = String c' (b +:+ (":" +:+ y)) → x = y).
    intros [= _ H]. exact (IH b H).
Qed.

Lemma search_key_limit query query' limit limit' :
  search_key query limit = search_key query' limit' → limit = limit'.
Proof.
  unfold search_key. intros H. apply (inj (String.append "search:")) in H.
  apply of_Z_inj. eapply colon_suffix_inj; [apply of_Z_no_colon..|exact H].
Qed.

Lemma stored_search_inv env query limit d :
  stored env (search_key query limit) d →
  ∃ found coins, d = JDict [("coins", coins)] ∧ Py.slice_to found limit = Return coins.
Proof.
  inversion 1 as [ids vs' k dt data _ _ Hkey|id' vs' k r dt record rest out _ _ _ Hkey
                 |id' k r dt data out _ _ _ Hkey
                 |query' limit' k r dt data found coins _ _ _ Hcoins Hkey];
    try (unfold simple_price_key, market_data_key, search_key, coin_info_key in Hkey;
         simpl in Hkey; discriminate Hkey).
  assert (limit' = limit) as ->.
  { apply of_Z_inj. eapply colon_suffix_inj; [apply of_Z_no_colon..|exact Hkey]. }
  by exists found, coins.
Qed.

Lemma search_coin_result env query limit w :
  cache_inv env w →
  sat (search_coin env query limit) w
      (λ o _, ∀ r, o = Return r →
                   is_error_marker r
                   ∨ ∃ found coins, r = JDict [("coins", coins)]
                                    ∧ Py.slice_to found limit = Return coins).
Proof.
  intros Hinv. unfold search_coin.
  destruct (Str.is_empty query);
    [apply sat_ret; intros r [= <-]; left; by eexists|].
  sat_bind_with sat_cache_get. intros cached w1 Hl.
  destruct (Py.truthy cached) eqn:Hacc.
  { apply sat_ret. intros r [= <-]. right.
    destruct Hl as [(-> & _)|(ts & Hk & _)]; [done|].
    by apply (stored_search_inv env query limit cached), (Hinv _ _ _ Hk). }
  sat_bind_with sat_request_default. intros data w2 Hf.
  sat_bind_with @sat_lift.
  destruct (fetch_failed data) as [[|]|e] eqn:Hff; [| |done].
  - apply sat_lift. intros r Hr. left. by eapply error_of_marker.
  - sat_bind_with @sat_lift.
    destruct (Py.get data "coins" (JList [])) as [found|e]; [|done].
    sat_bind_with @sat_lift.
    destruct (Py.slice_to found limit) as [coins|e] eqn:Hcoins; [|done].
    sat_bind_with sat_cache_set. apply sat_ret.
    intros r [= <-]. right. by exists found, coins.
Qed.

(** X10. In a reachable world, whatever the provider answers, a value
    returned by [search_coin] with a non-negative [limit] (freshly fetched or
    served from the cache) is either the error marker or [{"coins": coins}]
    with at most [limit] coins: entries cached for another limit are never
    served, because the limit is part of the cache key. *)
Theorem search_coin_at_most_limit env query limit w r :
  reachable env w →
  (0 ≤ limit)%Z →
  (search_coin env query limit w).1 = Return r →
  is_error_marker r
  ∨ ∃ coins, r = JDict [("coins", coins)] ∧ (json_len coins ≤ Z.to_nat limit)%nat.
Proof.
  intros Hreach Hlimit Hr.
  destruct (search_coin_result env query limit w (reachable_cache_inv env w Hreach) r Hr)
    as [He|(found & coins & -> & Hslice)]; [by left|].
  right. exists coins. split; [done|]. by eapply slice_to_len.
Qed.

Lemma search_coin_at_most_limit_witness :
  let r := JDict [("coins", JList [JStr "a"; JStr "b"])] in
  is_error_marker r
  ∨ ∃ coins, r = JDict [("coins", coins)] ∧ (json_len coins ≤ Z.to_nat 2)%nat.
Proof.
  apply (search_coin_at_most_limit provider_hits "Bit" 2 (initial_world 0)).
  - apply reachable_start.
  - done.
  - vm_compute. reflexivity.
Defined.

(** ** The fresh answer and the cached answer *)

Lemma project_as_comprehension data vs_currency value items :
  (∀ k cid, (k, cid) ∈ items → value k = fetched_price data vs_currency cid) →
  ∀ acc, project data vs_currency items acc
         = dict_comprehension value (dict_keys items) acc.
Proof.
  induction items as [|[k cid] items IH]; intros Hv acc; simpl; [done|].
  rewrite (Hv k cid) by left.
  destruct (fetched_price data vs_currency cid) as [v|e]; [|done]. simpl.
  apply IH. intros k' cid' Hin. apply Hv. by right.
Qed.

Lemma price_paths_agree d vs_currency mapping k cid :
  forallb Py.is_dict (dict_values d) = true →
  dict_get (Str.upper k) mapping = Some cid →
  cached_price (JDict d) vs_currency mapping k = fetched_price (JDict d) vs_currency cid.
Proof.
  intros Hok Hk. unfold cached_price, fetched_price. rewrite Hk.
  destruct cid as [id|]; [|done].
  destruct (id_truthy (Some id)); [|done]. simpl.
  destruct (dict_get id d) as [v|] eqn:E; simpl; [|done].
  pose proof E as Hin. apply dict_get_values, list_elem_of_In in Hin.
  rewrite forallb_forall in Hok. specialize (Hok v Hin).
  destruct v as [| | | | |entry]; try done.
  destruct entry as [|kv entry]; [done|]. cbn [Py.truthy Py.getitem Py.get obind].
  cbn [obind Py.contains]. unfold dict_has.
  by destruct (dict_get vs_currency (kv :: entry)).
Qed.

Lemma served_prices_as_project data vs_currency l :
  prices_ok data = true →
  served_prices data vs_currency (resolve l).2
  = (r <-? project data vs_currency (resolve l).2 [] ;; Return (JDict r)).
Proof.
  intros Hok. destruct data as [| | | | |d]; try done. unfold served_prices.
  destruct (resolve_mapping l) as (Hnd & _ & _).
  rewrite (project_as_comprehension _ _
             (cached_price (JDict d) vs_currency (resolve l).2)); [done|].
  intros k cid Hin. apply price_paths_agree; [done|].
  rewrite (resolve_mapping_key_upper l k).
  - by apply dict_get_of_elem.
  - apply list_elem_of_In, (List.in_map fst) in Hin. by apply list_elem_of_In.
Qed.

(** X11. When the provider's body is an object of objects, the answer that
    [get_simple_price] computes from a fresh fetch and the answer an identical
    call gets from the cache within the ttl are the same dict, and the second
    call sends nothing. *)
Theorem fresh_and_cached_answers_agree env symbols vs_currency ttl w data dt pause :
  let ids := (resolve (symbols_list_of symbols)).1 in
  ids ≠ [] →
  fresh w (simple_price_key ids vs_currency) ttl = false →
  env (length (sent w)) (simple_price_request ids vs_currency) = (Body data, dt) →
  fetch_failed data = Return false →
  prices_ok data = true →
  (pause <= ttl)%Q →
  let first := get_simple_price env symbols vs_currency ttl w in
  let again := get_simple_price env symbols vs_currency ttl (wait pause first.2) in
  again.1 = first.1 ∧ sent again.2 = sent first.2.
Proof.
  intros ids Hids Hmiss Henv Hff Hok Hpause first again.
  assert (is_nil ids = false) as Hnil by (by destruct ids).
  pose proof (get_simple_price_first_ok env symbols vs_currency ttl w data dt
                Hnil Hmiss Henv Hff) as Hfirst.
  subst again first. rewrite Hfirst. cbn [fst snd].
  erewrite (get_simple_price_hit env symbols vs_currency ttl _ (clock w + dt)%Q data).
  - split; [|done]. cbn [fst]. by apply served_prices_as_project.
  - cbn [wait _CACHE]. apply lookup_insert_eq.
  - unfold fresh, cache_key_of. cbn [wait _CACHE clock]. fold ids.
    rewrite lookup_insert_eq. apply negb_true_iff, Qgtb_false. lra.
  - unfold fetch_failed in Hff. by destruct data.
Qed.

Lemma fresh_and_cached_answers_agree_witness :
  let first := get_simple_price provider_btc (SymbolsList ["BTC"; "NOPE"]) "usd"
                 DEFAULT_TTL (initial_world 0) in
  let again := get_simple_price provider_btc (SymbolsList ["BTC"; "NOPE"]) "usd"
                 DEFAULT_TTL (wait 10 first.2) in
  again.1 = first.1 ∧ sent again.2 = sent first.2.
Proof.
  apply (fresh_and_cached_answers_agree provider_btc (SymbolsList ["BTC"; "NOPE"]) "usd"
           DEFAULT_TTL (initial_world 0) (JDict [("bitcoin", JDict [("usd", JNum 5)])])
           1%Q 10%Q).
  - discriminate.
  - reflexivity.
  - reflexivity.
  - reflexivity.
  - reflexivity.
  - vm_compute. discriminate.
Defined.

(** ** The batch request and the entries of the answer *)



(** * Properties of crypto_buddy.py *)

(** ** [max] with a key *)

Lemma max_from_spec key (g : string → Q) xs :
  (∀ x, x ∈ xs → key x = Return (g x)) →
  ∀ best,
    ∃ m pre post,
      CryptoBuddy.max_from key best (g best) xs = Return m
      ∧ best :: xs = pre ++ m :: post
      ∧ (∀ x, x ∈ pre → (g x < g m)%Q)
      ∧ (∀ x, x ∈ best :: xs → (g x <= g m)%Q).
Proof.
  induction xs as [|x xs IH]; intros Hkey best; simpl.
  - exists best, [], []. split; [done|]. split; [done|]. split.
    + by intros ? ?%elem_of_nil.
    + intros y ->%list_elem_of_singleton. apply Qle_refl.
  - rewrite (Hkey x) by left. simpl.
    assert (∀ y, y ∈ xs → key y = Return (g y)) as Hkey'
      by (intros y Hy; apply Hkey; by right).
    destruct (Qgtb (g x) (g best)) eqn:Hgt.
    + apply Qgtb_true in Hgt.
      destruct (IH Hkey' x) as (m & pre & post & Hrun & Hsplit & Hpre & Hall).
      exists m, (best :: pre), post. split; [done|]. split; [by rewrite Hsplit|].
      assert (g x <= g m)%Q as Hxm by (apply Hall; left).
      split.
      * intros y [->|Hy]%elem_of_cons; [lra|by apply Hpre].
      * intros y [->|Hy]%elem_of_cons; [lra|by apply Hall].
    + apply Qgtb_false in Hgt.
      destruct (IH Hkey' best) as (m & pre & post & Hrun & Hsplit & Hpre & Hall).
      assert (g best <= g m)%Q as Hbm by (apply Hall; left).
      destruct pre as [|b pre].
      * simpl in Hsplit. injection Hsplit as <- <-.
        exists best, [], (x :: xs). split; [done|]. split; [done|]. split.
        -- by intros ? ?%elem_of_nil.
        -- intros y [->|[->|Hy]%elem_of_cons]%elem_of_cons;
             [apply Qle_refl|done|apply Hall; by right].
      * simpl in Hsplit. injection Hsplit as <- Hxs.
        assert (g best < g m)%Q as Hlt by (apply Hpre; left).
        exists m, (best :: x :: pre), post. split; [done|].
        split; [by rewrite Hxs|]. split.
        -- intros y [->|[->|Hy]%elem_of_cons]%elem_of_cons;
             [done|lra|apply Hpre; by right].
        -- intros y [->|[->|Hy]%elem_of_cons]%elem_of_cons;
             [done|lra|apply Hall; by right].
Qed.

Lemma py_max_spec key (g : string → Q) xs :
  xs ≠ [] →
  (∀ x, x ∈ xs → key x = Return (g x)) →
  ∃ m pre post,
    CryptoBuddy.py_max key xs = Return m
    ∧ xs = pre ++ m :: post
    ∧ (∀ x, x ∈ pre → (g x < g m)%Q)
    ∧ (∀ x, x ∈ xs → (g x <= g m)%Q).
Proof.
  destruct xs as [|x xs]; [done|]. intros _ Hkey. simpl.
  rewrite (Hkey x) by left. simpl.
  apply max_from_spec. intros y Hy. apply Hkey. by right.
Qed.

(** The score [db[x]["sustainability_score"]] as a total function. *)
Lemma score_of_keys db x :
  x ∈ dict_keys db →
  ∃ c, dict_get x db = Some c
       ∧ CryptoBuddy.score_of db x = Return (CryptoBuddy.sustainability_score c).
Proof.
  intros [c Hc]%dict_get_keys. exists c. split; [done|].
  unfold CryptoBuddy.score_of. by rewrite Hc.
Qed.

Lemma py_max_scores db xs :
  xs ≠ [] →
  (∀ x, x ∈ xs → x ∈ dict_keys db) →
  ∃ m c pre post,
    CryptoBuddy.py_max (CryptoBuddy.score_of db) xs = Return m
    ∧ dict_get m db = Some c
    ∧ xs = pre ++ m :: post
    ∧ (∀ k c', k ∈ pre → dict_get k db = Some c' →
               (CryptoBuddy.sustainability_score c'
                < CryptoBuddy.sustainability_score c)%Q)
    ∧ (∀ k c', k ∈ xs → dict_get k db = Some c' →
               (CryptoBuddy.sustainability_score c'
                <= CryptoBuddy.sustainability_score c)%Q).
Proof.
  intros Hne Hsub.
  set (g := λ x, match dict_get x db with
                 | Some c => CryptoBuddy.sustainability_score c
                 | None => 0%Q
                 end).
  destruct (py_max_spec (CryptoBuddy.score_of db) g xs Hne)
    as (m & pre & post & Hrun & Hsplit & Hpre & Hall).
  { intros x Hx. destruct (score_of_keys db x (Hsub x Hx)) as (c & Hc & ->).
    unfold g. by rewrite Hc. }
  assert (m ∈ xs) as Hm by (rewrite Hsplit; set_solver).
  destruct (score_of_keys db m (Hsub m Hm)) as (c & Hc & _).
  exists m, c, pre, post. split; [done|]. split; [done|]. split; [done|].
  unfold g in Hpre, Hall. rewrite Hc in Hpre, Hall. split.
  - intros k c' Hk Hc'. specialize (Hpre k Hk). by rewrite Hc' in Hpre.
  - intros k c' Hk Hc'. specialize (Hall k Hk). by rewrite Hc' in Hall.
Qed.

(** X12. On a non-empty data set [top_by_sustainability] returns a coin of
    the data set whose score no other coin exceeds, and among coins with that
    score the first one in insertion order. *)
Theorem top_by_sustainability_is_top db :
  db ≠ [] →
  ∃ name c pre post,
    CryptoBuddy.top_by_sustainability db = Return name
    ∧ dict_get name db = Some c
    ∧ dict_keys db = pre ++ name :: post
    ∧ (∀ k c', k ∈ pre → dict_get k db = Some c' →
               (CryptoBuddy.sustainability_score c'
                < CryptoBuddy.sustainability_score c)%Q)
    ∧ (∀ k c', dict_get k db = Some c' →
               (CryptoBuddy.sustainability_score c'
                <= CryptoBuddy.sustainability_score c)%Q).
Proof.
  intros Hne. unfold CryptoBuddy.top_by_sustainability.
  destruct (py_max_scores db (dict_keys db)) as (m & c & pre & post & H1 & H2 & H3 & H4 & H5).
  { by destruct db. }
  { done. }
  exists m, c, pre, post. split; [done|]. split; [done|]. split; [done|].
  split; [done|]. intros k c' Hk. apply (H5 k c'); [|done].
  apply dict_get_keys. by eexists.
Qed.

Lemma top_by_sustainability_is_top_witness :
  ∃ name c pre post,
    CryptoBuddy.top_by_sustainability CryptoBuddy.crypto_db = Return name
    ∧ dict_get name CryptoBuddy.crypto_db = Some c
    ∧ dict_keys CryptoBuddy.crypto_db = pre ++ name :: post
    ∧ (∀ k c', k ∈ pre → dict_get k CryptoBuddy.crypto_db = Some c' →
               (CryptoBuddy.sustainability_score c'
                < CryptoBuddy.sustainability_score c)%Q)
    ∧ (∀ k c', dict_get k CryptoBuddy.crypto_db = Some c' →
               (CryptoBuddy.sustainability_score c'
                <= CryptoBuddy.sustainability_score c)%Q).
Proof. apply (top_by_sustainability_is_top CryptoBuddy.crypto_db). discriminate. Defined.

Example top_by_sustainability_cardano :
  CryptoBuddy.top_by_sustainability CryptoBuddy.crypto_db = Return "Cardano".
Proof. reflexivity. Qed.

(** ** The rule lists *)

Lemma filter_sublist {A} (P R : A → bool) (l : list A) :
  (∀ x, P x = true → R x = true) → sublist (List.filter P l) (List.filter R l).
Proof.
  intros HPR. induction l as [|x l IH]; simpl; [constructor|].
  destruct (P x) eqn:HP.
  - rewrite (HPR x HP). by constructor.
  - destruct (R x); [by constructor|done].
Qed.

Lemma filter_sublist_all {A} (P : A → bool) (l : list A) : sublist (List.filter P l) l.
Proof.
  induction l as [|x l IH]; simpl; [constructor|].
  destruct (P x); by constructor.
Qed.

Lemma sublist_map {A B} (f : A → B) (l1 l2 : list A) :
  sublist l1 l2 → sublist (List.map f l1) (List.map f l2).
Proof. induction 1; simpl; by constructor. Qed.

Lemma filtered_keys (P : string * CryptoBuddy.coin → bool) db x :
  x ∈ List.map fst (List.filter P db) → x ∈ dict_keys db.
Proof.
  intros Hx. eapply elem_of_sublist; [exact Hx|].
  apply sublist_map, filter_sublist_all.
Qed.

(** X13. The rule lists keep the order of the data set and nest: every coin
    of [profitable_coins] is a coin of [trending_coins], and [trending_coins]
    and [sustainable_candidates] are sub-lists of the coin names. *)
Theorem rule_lists_nest db :
  sublist (CryptoBuddy.profitable_coins db) (CryptoBuddy.trending_coins db)
  ∧ sublist (CryptoBuddy.trending_coins db) (dict_keys db)
  ∧ sublist (CryptoBuddy.sustainable_candidates db) (dict_keys db).
Proof.
  split; [|split].
  - apply sublist_map, filter_sublist. by intros x [H _]%andb_true_iff.
  - apply sublist_map, filter_sublist_all.
  - apply sublist_map, filter_sublist_all.
Qed.

(** ** When [handle_query] raises *)

Lemma coin_loop_returns show q db keys otherwise :
  (∀ k, k ∈ keys → k ∈ dict_keys db) →
  (∃ s, otherwise = Return s) →
  ∃ s, CryptoBuddy.coin_loop show q db keys otherwise = Return s.
Proof.
  intros Hkeys Hother. induction keys as [|k keys IH]; simpl; [done|].
  destruct (Str.contains (Str.lower k) q); [by eexists|].
  destruct (score_of_keys db k) as (c & -> & _); [apply Hkeys; left|].
  destruct (Str.contains _ q); [by eexists|].
  apply IH. intros k' Hk'. apply Hkeys. by right.
Qed.

Lemma top_by_sustainability_returns db :
  db ≠ [] → ∃ name, CryptoBuddy.top_by_sustainability db = Return name.
Proof.
  intros Hne. destruct (py_max_scores db (dict_keys db)) as (m & _ & _ & _ & H & _);
    [by destruct db|done|]. by exists m.
Qed.

Lemma py_max_filtered_returns P db :
  List.map fst (List.filter P db) ≠ [] →
  ∃ best, CryptoBuddy.py_max (CryptoBuddy.score_of db) (List.map fst (List.filter P db))
          = Return best.
Proof.
  intros Hne. destruct (py_max_scores db (List.map fst (List.filter P db)))
    as (m & _ & _ & _ & H & _); [done|apply filtered_keys|]. by exists m.
Qed.

Lemma is_nil_false {A} (l : list A) : is_nil l = false → l ≠ [].
Proof. by destruct l. Qed.

Lemma handle_query_raise_cases show q db e :
  let n := Str.strip (Str.lower q) in
  CryptoBuddy.handle_query show q db = Raise e
  ↔ e = ValueError ∧ db = []
    ∧ CryptoBuddy.is_greeting n = false ∧ CryptoBuddy.asks_trending n = false
    ∧ CryptoBuddy.asks_sustainable n = true.
Proof.
  intros n. unfold CryptoBuddy.handle_query. fold n.
  destruct (CryptoBuddy.is_greeting n); [by split; [|intros (_ & _ & ? & _)]|].
  destruct (CryptoBuddy.asks_trending n).
  { destruct (negb _); by split; [|intros (_ & _ & _ & ? & _)]. }
  destruct (CryptoBuddy.asks_sustainable n).
  - destruct db as [|kv db].
    + simpl. split; [by intros [= <-]|by intros [-> _]].
    + destruct (top_by_sustainability_returns (kv :: db)) as [top ->]; [done|].
      destruct (negb _); simpl; by split; [|intros (_ & ? & _)].
  - destruct (CryptoBuddy.asks_long_term n).
    + destruct (is_nil (CryptoBuddy.profitable_coins db)) eqn:Hp; cbn [negb].
      * destruct (is_nil (CryptoBuddy.trending_coins db)) eqn:Ht; cbn [negb].
        -- by split; [|intros (_ & _ & _ & _ & ?)].
        -- destruct (py_max_filtered_returns _ db (is_nil_false _ Ht)) as [best Hbest].
           unfold CryptoBuddy.trending_coins. rewrite Hbest. simpl.
           by split; [|intros (_ & _ & _ & _ & ?)].
      * destruct (py_max_filtered_returns _ db (is_nil_false _ Hp)) as [best Hbest].
        unfold CryptoBuddy.profitable_coins. rewrite Hbest. simpl.
        by split; [|intros (_ & _ & _ & _ & ?)].
    + destruct (coin_loop_returns show n db (dict_keys db)
                  (if CryptoBuddy.asks_help n then Return (CryptoBuddy.help_text)
                   else Return (CryptoBuddy.fallback))) as [s ->].
      * done.
      * destruct (CryptoBuddy.asks_help n); by eexists.
      * by split; [|intros (_ & _ & _ & _ & ?)].
Qed.

(** X14. On a data set whose coins all carry the five facts (a name, as
    in [crypto_db], bound to symbol, price trend, market cap, energy use and a
    numeric score: what the type [coin] holds), [handle_query] raises in one
    situation only: the data set is empty and the query, being neither a
    greeting nor a question about trends, asks about sustainability; [max]
    over no coin then raises a [ValueError]. Every other query on such a data
    set gets an answer. *)
Theorem handle_query_raises_iff show q db e :
  let n := Str.strip (Str.lower q) in
  CryptoBuddy.handle_query show q db = Raise e
  ↔ e = ValueError ∧ db = []
    ∧ CryptoBuddy.is_greeting n = false ∧ CryptoBuddy.asks_trending n = false
    ∧ CryptoBuddy.asks_sustainable n = true.
Proof. apply handle_query_raise_cases. Qed.

(** ** Keywords inside words *)

Lemma contains_empty sub : solid sub = true → Str.contains sub "" = false.
Proof. by destruct sub. Qed.

Lemma contains_cons sub c s :
  Str.contains sub (String c s) = String.prefix sub (String c s) || Str.contains sub s.
Proof. done. Qed.

Lemma contains_lstrip sub s :
  solid sub = true → Str.contains sub s = true → Str.contains sub (Str.lstrip s) = true.
Proof.
  intros Hsub. induction s as [|c s IH]; [done|].
  rewrite contains_cons. cbn [Str.lstrip].
  destruct (Str.is_space c) eqn:Hc; [|by rewrite contains_cons].
  destruct sub as [|a sub]; [done|].
  cbn [String.prefix]. destruct (ascii_dec a c) as [->|]; [|done].
  unfold solid in Hsub. simpl in Hsub. by rewrite Hc in Hsub.
Qed.

Lemma prefix_rstrip sub s :
  forallb (λ c, negb (Str.is_space c)) (list_ascii_of_string sub) = true →
  String.prefix sub s = true → String.prefix sub (Str.rstrip s) = true.
Proof.
  revert s. induction sub as [|a sub IH]; intros s Hsub;
    [intros _; by destruct (Str.rstrip s)|].
  destruct s as [|c s]; [done|]. cbn [String.prefix].
  destruct (ascii_dec a c) as [->|]; [|done].
  simpl in Hsub. apply andb_true_iff in Hsub as [Hc Hsub].
  apply negb_true_iff in Hc. intros Hp. cbn [Str.rstrip]. rewrite Hc. simpl.
  destruct (ascii_dec c c); [|done]. by apply IH.
Qed.

Lemma contains_rstrip sub s :
  solid sub = true → Str.contains sub s = true → Str.contains sub (Str.rstrip s) = true.
Proof.
  intros Hsub. pose proof Hsub as [_ Hchars]%andb_true_iff.
  induction s as [|c s IH]; [done|].
  rewrite contains_cons. intros [Hp|Hc]%orb_true_iff.
  - apply (prefix_rstrip sub _ Hchars) in Hp.
    destruct (Str.rstrip (String c s)); [by destruct sub|].
    rewrite contains_cons, Hp. done.
  - specialize (IH Hc). cbn [Str.rstrip].
    destruct (Str.rstrip s) as [|c' s'] eqn:E.
    { by rewrite contains_empty in IH. }
    rewrite andb_false_r. rewrite contains_cons, IH. apply orb_true_r.
Qed.

Lemma contains_strip sub s :
  solid sub = true → Str.contains sub s = true → Str.contains sub (Str.strip s) = true.
Proof.
  intros Hsub Hc. unfold Str.strip. by apply contains_rstrip, contains_lstrip.
Qed.

(** X15. The greeting test comes first and looks for ["hi"] anywhere in the
    query: every query with the letters [hi] next to each other, in any
    case, such as one that starts with "Which", is answered with the
    greeting, whatever else it asks and whatever the data set holds. *)
Theorem hi_inside_a_word_greets show q db :
  Str.contains "hi" (Str.lower q) = true →
  CryptoBuddy.handle_query show q db = Return CryptoBuddy.greeting.
Proof.
  intros Hhi. unfold CryptoBuddy.handle_query, CryptoBuddy.is_greeting.
  apply (contains_strip "hi" _ eq_refl) in Hhi. simpl existsb. by rewrite Hhi.
Qed.

Lemma hi_inside_a_word_greets_witness :
  CryptoBuddy.handle_query (λ _, "") "Which crypto is trending up?" CryptoBuddy.crypto_db
  = Return CryptoBuddy.greeting.
Proof.
  apply (hi_inside_a_word_greets (λ _, "") "Which crypto is trending up?"
           CryptoBuddy.crypto_db).
  reflexivity.
Defined.

(** ** The long-term recommendation *)

Lemma filtered_elem (P : string * CryptoBuddy.coin → bool) db x :
  NoDup (dict_keys db) →
  x ∈ List.map fst (List.filter P db) →
  ∃ c, dict_get x db = Some c ∧ P (x, c) = true.
Proof.
  intros Hnd Hx. apply list_elem_of_In, List.in_map_iff in Hx as ([k c] & <- & Hin).
  apply List.filter_In in Hin as [Hin HP]. exists c. split; [|done].
  apply dict_get_of_elem; [done|]. by apply list_elem_of_In.
Qed.

(** X16. Asked for a long-term pick (the query not being a greeting, nor
    about trends or sustainability), with at least one coin that is rising
    with a high market cap, [handle_query] recommends such a coin, and one
    whose sustainability score no other such coin exceeds. *)
Theorem long_term_pick_is_best show q db :
  let n := Str.strip (Str.lower q) in
  NoDup (dict_keys db) →
  CryptoBuddy.is_greeting n = false →
  CryptoBuddy.asks_trending n = false →
  CryptoBuddy.asks_sustainable n = false →
  CryptoBuddy.asks_long_term n = true →
  CryptoBuddy.profitable_coins db ≠ [] →
  ∃ best c,
    CryptoBuddy.handle_query show q db
    = Return ("For long-term growth, I'd suggest " +:+ best
              +:+ " — it's trending up with strong market cap. "
              +:+ "Here's a quick summary:" +:+ CryptoBuddy.nl
              +:+ CryptoBuddy.summarize_coin show best db +:+ CryptoBuddy.nl
              +:+ "Note: always do your own research — crypto is risky.")
    ∧ dict_get best db = Some c
    ∧ CryptoBuddy.price_trend c = "rising" ∧ CryptoBuddy.market_cap c = "high"
    ∧ ∀ k c', k ∈ CryptoBuddy.profitable_coins db → dict_get k db = Some c' →
              (CryptoBuddy.sustainability_score c'
               <= CryptoBuddy.sustainability_score c)%Q.
Proof.
  intros n Hnd Hg Ht Hs Hl Hprof.
  destruct (py_max_scores db (CryptoBuddy.profitable_coins db) Hprof)
    as (best & c & pre & post & Hrun & Hc & Hsplit & _ & Hall).
  { apply filtered_keys. }
  exists best, c. split; [|split; [done|]].
  - unfold CryptoBuddy.handle_query. fold n. rewrite Hg, Ht, Hs, Hl.
    destruct (is_nil (CryptoBuddy.profitable_coins db)) eqn:E;
      [by destruct (CryptoBuddy.profitable_coins db)|].
    cbn [negb]. by rewrite Hrun.
  - assert (best ∈ CryptoBuddy.profitable_coins db) as Hin
      by (rewrite Hsplit; set_solver).
    destruct (filtered_elem _ db best Hnd Hin) as (c' & Hc' & HP).
    rewrite Hc in Hc'. injection Hc' as <-.
    apply andb_true_iff in HP as [Hr Hh].
    apply String.eqb_eq in Hr, Hh. done.
Qed.

Lemma long_term_pick_is_best_witness :
  ∃ best c,
    CryptoBuddy.handle_query (λ _, "?") "What should I buy?" CryptoBuddy.crypto_db
    = Return ("For long-term growth, I'd suggest " +:+ best
              +:+ " — it's trending up with strong market cap. "
              +:+ "Here's a quick summary:" +:+ CryptoBuddy.nl
              +:+ CryptoBuddy.summarize_coin (λ _, "?") best CryptoBuddy.crypto_db
              +:+ CryptoBuddy.nl
              +:+ "Note: always do your own research — crypto is risky.")
    ∧ dict_get best CryptoBuddy.crypto_db = Some c
    ∧ CryptoBuddy.price_trend c = "rising" ∧ CryptoBuddy.market_cap c = "high"
    ∧ ∀ k c', k ∈ CryptoBuddy.profitable_coins CryptoBuddy.crypto_db →
              dict_get k CryptoBuddy.crypto_db = Some c' →
              (CryptoBuddy.sustainability_score c'
               <= CryptoBuddy.sustainability_score c)%Q.
Proof.
  apply (long_term_pick_is_best (λ _, "?") "What should I buy?" CryptoBuddy.crypto_db).
  - repeat constructor; set_solver.
  - reflexivity.
  - reflexivity.
  - reflexivity.
  - reflexivity.
  - discriminate.
Defined.

(** ** The console loop *)

Lemma handle_query_crypto_db_returns show q :
  ∃ s, CryptoBuddy.handle_query show q CryptoBuddy.crypto_db = Return s.
Proof.
  destruct (CryptoBuddy.handle_query show q CryptoBuddy.crypto_db) as [s|e] eqn:E;
    [by exists s|].
  by apply handle_query_raise_cases in E as (_ & ? & _).
Qed.

Lemma answer_is_counted response :
  String.prefix (CryptoBuddy.nl +:+ "CryptoBuddy: ")
                (CryptoBuddy.nl +:+ "CryptoBuddy: " +:+ response) = true.
Proof. by destruct response. Qed.

Lemma main_loop_answers show inputs :
  ∃ events,
    CryptoBuddy.main_loop show inputs
    = Return (events, if existsb CryptoBuddy.is_exit inputs
                      then CryptoBuddy.Returned else CryptoBuddy.SysExit 0)
    ∧ CryptoBuddy.answers events = length (CryptoBuddy.before_exit inputs).
Proof.
  induction inputs as [|line rest (events & IH & Hn)].
  - eexists. split; [reflexivity|]. reflexivity.
  - cbn [CryptoBuddy.main_loop existsb CryptoBuddy.before_exit].
    change (str_in (Str.lower (Str.strip line)) ["exit"; "quit"])
      with (CryptoBuddy.is_exit line).
    destruct (CryptoBuddy.is_exit line); cbn [orb].
    + eexists. split; [reflexivity|]. reflexivity.
    + destruct (handle_query_crypto_db_returns show (Str.strip line)) as [s ->].
      rewrite IH. cbn [obind fst snd]. eexists. split; [reflexivity|].
      unfold CryptoBuddy.answers in *. cbn [List.filter].
      rewrite answer_is_counted. cbn [length]. by rewrite Hn.
Qed.

(** X17. On any finite sequence of input lines [main] ends without an
    exception. It answers every line read before the first line that says
    [exit] or [quit] (in any case, white space around it aside), one answer
    per line, and nothing after it; it returns when there is such a line and
    leaves through [sys.exit(0)] when the input ends first. *)
Theorem main_answers_until_exit show inputs :
  ∃ events,
    CryptoBuddy.main show inputs
    = Return (events, if existsb CryptoBuddy.is_exit inputs
                      then CryptoBuddy.Returned else CryptoBuddy.SysExit 0)
    ∧ CryptoBuddy.answers events = length (CryptoBuddy.before_exit inputs).
Proof.
  destruct (main_loop_answers show inputs) as (events & Hrun & Hn).
  unfold CryptoBuddy.main. rewrite Hrun. simpl.
  eexists. split; [reflexivity|]. exact Hn.
Qed.

(** * Properties of crypto_db.py and ui_streamlit.py *)

Lemma coin_loop_first_match query pre coin i post otherwise :
  Forall (λ kv, Str.contains kv.1 query = false) pre →
  Str.contains coin query = true →
  CryptoDb.coin_loop query (pre ++ (coin, i) :: post) otherwise = CryptoDb.card coin i.
Proof.
  intros Hpre Hc. induction Hpre as [|[k v] pre Hk Hpre IH]; simpl.
  - by rewrite Hc.
  - simpl in Hk. by rewrite Hk.
Qed.

(** X18. A query that names coins of the data set (in any case) gets the
    card of the first of them in insertion order; this comes before the
    trend questions, so asking whether a coin is "trending up" gets its
    card and not the list of rising coins. *)
Theorem first_named_coin_wins query pre coin i post :
  Forall (λ kv, Str.contains kv.1 (Str.lower query) = false) pre →
  Str.contains coin (Str.lower query) = true →
  CryptoDb.handle_query query (pre ++ (coin, i) :: post) = CryptoDb.card coin i.
Proof.
  intros Hpre Hc. unfold CryptoDb.handle_query. by apply coin_loop_first_match.
Qed.

Lemma first_named_coin_wins_witness :
  CryptoDb.handle_query "Is Dogecoin or Solana trending up?" CryptoDb.crypto_db
  = CryptoDb.card "dogecoin" (CryptoDb.mkInfo "$0.15" "up" "20B").
Proof.
  apply (first_named_coin_wins "Is Dogecoin or Solana trending up?"
           [("bitcoin", CryptoDb.mkInfo "$68,000" "up" "1.3T");
            ("ethereum", CryptoDb.mkInfo "$3,500" "down" "420B")]
           "dogecoin" (CryptoDb.mkInfo "$0.15" "up" "20B")
           [("solana", CryptoDb.mkInfo "$150" "up" "65B")]).
  - repeat constructor.
  - reflexivity.
Defined.

(** ** The chat history *)

Lemma session_after_snoc runs run :
  CryptoDb.session_after (runs ++ [run])
  = (CryptoDb.script run.1 run.2 (CryptoDb.session_after runs)).1.
Proof. unfold CryptoDb.session_after. by rewrite foldl_app. Qed.

(** X19. After any non-empty sequence of runs of the page from a fresh
    session, the chat history is exactly the exchanges of the questions that
    were submitted and not empty, in order: each question under "You",
    followed by the answer of [handle_query] to it under "CryptoBuddy".
    Nothing else is ever added, changed or dropped. *)
Theorem chat_history_is_the_exchanges runs :
  runs ≠ [] →
  CryptoDb.session_after runs
  = Some (flat_map CryptoDb.exchange (CryptoDb.asked runs)).
Proof.
  induction runs as [|[submitted user_input] runs IH] using rev_ind; [done|].
  intros _. rewrite session_after_snoc. unfold CryptoDb.asked.
  rewrite List.filter_app, List.map_app, flat_map_app. cbn [fst snd].
  destruct runs as [|r runs].
  - simpl. by destruct (submitted && negb (Str.is_empty user_input)).
  - rewrite IH by done. unfold CryptoDb.script. cbn [fst snd List.filter].
    destruct (submitted && negb (Str.is_empty user_input)); simpl.
    + by rewrite <- app_assoc.
    + by rewrite app_nil_r.
Qed.

Lemma chat_history_is_the_exchanges_witness :
  CryptoDb.session_after [(false, ""); (true, "solana?"); (true, ""); (true, "hm")]
  = Some (flat_map CryptoDb.exchange ["solana?"; "hm"]).
Proof.
  apply (chat_history_is_the_exchanges
           [(false, ""); (true, "solana?"); (true, ""); (true, "hm")]).
  discriminate.
Defined.
